(** * paystack-go: a shallow embedding of [paystack.go] and its properties

    The Go package is one file: a [Client] holding a secret, a private
    dispatcher [request] and five operations built on it.  Go strings and
    byte slices are sequences of bytes, modelled as [string] (a list of
    8-bit [ascii]).  The standard-library calls the file makes
    ([json.Marshal], [json.Unmarshal], [http.NewRequestWithContext],
    [fmt.Sprintf], [os.Getenv]) are modelled next to the code that uses
    them; the network ([http.DefaultClient.Do]) is a parameter. *)

From Stdlib Require Import String Ascii ZArith NArith List Bool Lia.
From Stdlib Require Import DecimalString DecimalPos DecimalZ.
From stdpp Require Import base strings gmap.
Import ListNotations.
Local Open Scope string_scope.

(** ** Bytes *)

Definition byte_code (c : ascii) : N := N_of_ascii c.

Definition byte_of_code (n : N) : ascii := ascii_of_N n.

Fixpoint string_drop (n : nat) (s : string) : string :=
  match n, s with
  | O, _ => s
  | S k, String _ rest => string_drop k rest
  | S _, EmptyString => EmptyString
  end.

Fixpoint string_take (n : nat) (s : string) : string :=
  match n, s with
  | S k, String c rest => String c (string_take k rest)
  | _, _ => EmptyString
  end.

Fixpoint string_forallb (p : ascii -> bool) (s : string) : bool :=
  match s with
  | EmptyString => true
  | String c rest => p c && string_forallb p rest
  end.

Fixpoint string_index (c : ascii) (s : string) : option nat :=
  match s with
  | EmptyString => None
  | String d rest =>
      if Ascii.eqb c d then Some O else option_map S (string_index c rest)
  end.

(** [strings.Cut(s, sep)] for a one-byte separator. *)
Definition strings_Cut (s : string) (sep : ascii) : string * string * bool :=
  match string_index sep s with
  | Some i => (string_take i s, string_drop (S i) s, true)
  | None => (s, EmptyString, false)
  end.

Definition in_range (lo hi : N) (c : ascii) : bool :=
  (lo <=? byte_code c)%N && (byte_code c <=? hi)%N.

Definition ishex (c : ascii) : bool :=
  in_range 48 57 c || in_range 97 102 c || in_range 65 70 c.

Definition hex_value (c : ascii) : N :=
  if in_range 48 57 c then byte_code c - 48
  else if in_range 97 102 c then byte_code c - 87
  else byte_code c - 55.

(** The table [hex = "0123456789abcdef"] of package json. *)
Definition hex_digit (n : N) : ascii :=
  if (n <? 10)%N then byte_of_code (48 + n) else byte_of_code (87 + n).

(** ** Package utf8 *)

Definition RuneError : N := 65533.

Definition is_cont (c : ascii) : bool := in_range 128 191 c.

Definition low_bits (k : N) (c : ascii) : N := N.land (byte_code c) (N.ones k).

(** [utf8.DecodeRuneInString]: the rune at the head of [s] and its width in
    bytes; [(RuneError, 0)] on the empty string and [(RuneError, 1)] on an
    encoding that is not well formed (an overlong form, a surrogate, a
    value above U+10FFFF, a stray or missing continuation byte). *)
Definition utf8_DecodeRune (s : string) : N * nat :=
  match s with
  | EmptyString => (RuneError, O)
  | String s0 t0 =>
      let b0 := byte_code s0 in
      if (b0 <? 128)%N then (b0, 1%nat)
      else if (b0 <? 194)%N then (RuneError, 1%nat)
      else if (244 <? b0)%N then (RuneError, 1%nat)
      else
        match t0 with
        | EmptyString => (RuneError, 1%nat)
        | String s1 t1 =>
            let lo := if (b0 =? 224)%N then 160%N
                      else if (b0 =? 240)%N then 144%N else 128%N in
            let hi := if (b0 =? 237)%N then 159%N
                      else if (b0 =? 244)%N then 143%N else 191%N in
            if negb (in_range lo hi s1) then (RuneError, 1%nat)
            else if (b0 <? 224)%N then
              (N.lor (N.shiftl (low_bits 5 s0) 6) (low_bits 6 s1), 2%nat)
            else
              match t1 with
              | EmptyString => (RuneError, 1%nat)
              | String s2 t2 =>
                  if negb (is_cont s2) then (RuneError, 1%nat)
                  else if (b0 <? 240)%N then
                    (N.lor (N.shiftl (low_bits 4 s0) 12)
                       (N.lor (N.shiftl (low_bits 6 s1) 6) (low_bits 6 s2)),
                     3%nat)
                  else
                    match t2 with
                    | EmptyString => (RuneError, 1%nat)
                    | String s3 _ =>
                        if negb (is_cont s3) then (RuneError, 1%nat)
                        else
                          (N.lor (N.shiftl (low_bits 3 s0) 18)
                             (N.lor (N.shiftl (low_bits 6 s1) 12)
                                (N.lor (N.shiftl (low_bits 6 s2) 6)
                                   (low_bits 6 s3))),
                           4%nat)
                    end
              end
        end
  end.

Definition cont_byte (r : N) (shift : N) : ascii :=
  byte_of_code (N.lor 128 (N.land (N.shiftr r shift) 63)).

(** [utf8.AppendRune]: surrogates and values above U+10FFFF are written as
    U+FFFD. *)
Definition utf8_EncodeRune (r : N) : string :=
  if (r <? 128)%N then String (byte_of_code r) EmptyString
  else if (r <? 2048)%N then
    String (byte_of_code (N.lor 192 (N.shiftr r 6)))
      (String (cont_byte r 0) EmptyString)
  else if ((55296 <=? r) && (r <=? 57343))%N || (1114111 <? r)%N then
    String (byte_of_code 239)
      (String (byte_of_code 191) (String (byte_of_code 189) EmptyString))
  else if (r <? 65536)%N then
    String (byte_of_code (N.lor 224 (N.shiftr r 12)))
      (String (cont_byte r 6) (String (cont_byte r 0) EmptyString))
  else
    String (byte_of_code (N.lor 240 (N.shiftr r 18)))
      (String (cont_byte r 12)
         (String (cont_byte r 6) (String (cont_byte r 0) EmptyString))).

(** ** Integers as Go prints and reads them *)

Definition int32_min : Z := - 2 ^ 31.
Definition int32_max : Z := 2 ^ 31 - 1.
Definition is_int32 (z : Z) : Prop := (int32_min <= z <= int32_max)%Z.

(** Go's [int] on the 64-bit platforms the package is built for. *)
Definition int_min : Z := - 2 ^ 63.
Definition int_max : Z := 2 ^ 63 - 1.
Definition is_int (z : Z) : Prop := (int_min <= z <= int_max)%Z.

(** [fmt.Sprintf("%d", z)] and [strconv.AppendInt(_, z, 10)]: the decimal
    digits of [z], with a leading minus sign when [z] is negative. *)
Definition format_int (z : Z) : string := NilZero.string_of_int (Z.to_int z).

(** [strconv.ParseInt(s, 10, 64)] on a literal the JSON scanner accepted as
    a number (so no plus sign and no leading zeros): it fails on a fraction
    or an exponent, and on a value outside 64 bits. *)
Definition strconv_ParseInt (s : string) : option Z :=
  match NilZero.int_of_string s with
  | Some d =>
      let z := Z.of_int d in
      if ((int_min <=? z) && (z <=? int_max))%Z then Some z else None
  | None => None
  end.

(** ** Package json: values and text *)

(** The double quote, and a way to write JSON text in this file with
    apostrophes standing for double quotes. *)
Definition dquote : ascii := "034"%char.

Fixpoint json_text (s : string) : string :=
  match s with
  | EmptyString => EmptyString
  | String c rest =>
      String (if Ascii.eqb c "'"%char then dquote else c) (json_text rest)
  end.

#[local] Set Warnings "-register-all".

(** A JSON document as the decoder sees it: numbers keep their literal,
    strings and object keys are unquoted, object members keep their order
    and their duplicates. *)
Inductive json : Type :=
  | JNull
  | JBool (b : bool)
  | JNumber (lit : string)
  | JString (s : string)
  | JArray (elems : list json)
  | JObject (members : list (string * json)).

(** [htmlSafeSet]: the ASCII bytes [appendString] copies unchanged when HTML
    escaping is on, as it is in [json.Marshal]. *)
Definition htmlSafe (c : ascii) : bool :=
  in_range 32 127 c
  && negb (Ascii.eqb c dquote) && negb (Ascii.eqb c "\"%char)
  && negb (Ascii.eqb c "<"%char) && negb (Ascii.eqb c ">"%char)
  && negb (Ascii.eqb c "&"%char).

(** The escape [appendString] writes for an ASCII byte that is not safe:
    a backslash form for the quote, the backslash and the five control
    bytes that have one (as Go has written them since 1.22), else
    [\u00XX]. *)
Definition escape_ascii (c : ascii) : string :=
  if Ascii.eqb c "\"%char || Ascii.eqb c dquote then String "\"%char (String c EmptyString)
  else if (byte_code c =? 8)%N then "\b"
  else if (byte_code c =? 12)%N then "\f"
  else if (byte_code c =? 10)%N then "\n"
  else if (byte_code c =? 13)%N then "\r"
  else if (byte_code c =? 9)%N then "\t"
  else "\u00" ++ String (hex_digit (N.shiftr (byte_code c) 4))
                   (String (hex_digit (N.land (byte_code c) 15)) EmptyString).

(** The loop of [appendString]; [src] is what is left from index [i] on. *)
Fixpoint appendString_loop (fuel : nat) (src : string) : string :=
  match fuel, src with
  | S fuel', String b rest =>
      if (byte_code b <? 128)%N then
        (if htmlSafe b then String b EmptyString else escape_ascii b)
        ++ appendString_loop fuel' rest
      else
        let '(c, size) := utf8_DecodeRune (string_take 4 src) in
        if (c =? RuneError)%N && Nat.eqb size 1 then
          "\u" ++ "fffd" ++ appendString_loop fuel' rest
        else if (c =? 8232)%N || (c =? 8233)%N then
          "\u202" ++ String (hex_digit (N.land c 15))
                       (appendString_loop fuel' (string_drop size src))
        else
          string_take size src ++ appendString_loop fuel' (string_drop size src)
  | _, _ => EmptyString
  end.

(** [appendString(dst, src, true)]: [src] as a JSON string literal. *)
Definition appendString (src : string) : string :=
  String dquote (appendString_loop (String.length src) src
                 ++ String dquote EmptyString).

(** The compact text the encoder writes for a value. *)
Fixpoint json_encode (j : json) : string :=
  match j with
  | JNull => "null"
  | JBool true => "true"
  | JBool false => "false"
  | JNumber lit => lit
  | JString s => appendString s
  | JArray elems =>
      "[" ++ (fix go (l : list json) : string :=
                match l with
                | [] => EmptyString
                | [x] => json_encode x
                | x :: tl => json_encode x ++ "," ++ go tl
                end) elems ++ "]"
  | JObject members =>
      "{" ++ (fix go (l : list (string * json)) : string :=
                match l with
                | [] => EmptyString
                | [(k, x)] => appendString k ++ ":" ++ json_encode x
                | (k, x) :: tl =>
                    appendString k ++ ":" ++ json_encode x ++ "," ++ go tl
                end) members ++ "}"
  end.

(** ** Package json: the scanner and [unquote] *)

(** Outcome of reading a prefix of the input: what was read and the rest
    of the input, a syntax error, or a loop bound that was too small (which
    the bounds chosen below exclude). *)
Inductive scan (A : Type) : Type :=
  | Scanned (a : A) (rest : string)
  | SyntaxErr
  | NoFuel.
Arguments Scanned {A} a rest.
Arguments SyntaxErr {A}.
Arguments NoFuel {A}.

Definition scan_bind {A B} (x : scan A) (f : A -> string -> scan B) : scan B :=
  match x with
  | Scanned a rest => f a rest
  | SyntaxErr => SyntaxErr
  | NoFuel => NoFuel
  end.

Definition scan_map {A B} (f : A -> B) (x : scan A) : scan B :=
  scan_bind x (fun a rest => Scanned (f a) rest).

Definition isSpace (c : ascii) : bool :=
  Ascii.eqb c " "%char || (byte_code c =? 9)%N
  || (byte_code c =? 13)%N || (byte_code c =? 10)%N.

Fixpoint skip_space (s : string) : string :=
  match s with
  | String c rest => if isSpace c then skip_space rest else s
  | EmptyString => s
  end.

Definition is_digit (c : ascii) : bool := in_range 48 57 c.

Fixpoint take_digits (s : string) : string * string :=
  match s with
  | String c rest =>
      if is_digit c then
        let '(ds, r) := take_digits rest in (String c ds, r)
      else (EmptyString, s)
  | EmptyString => (EmptyString, s)
  end.

(** Four hexadecimal digits as a rune. *)
Definition hex4 (s : string) : option N :=
  match s with
  | String a (String b (String c (String d _))) =>
      if ishex a && ishex b && ishex c && ishex d then
        Some (hex_value a * 4096 + hex_value b * 256
              + hex_value c * 16 + hex_value d)%N
      else None
  | _ => None
  end.

(** [getu4]: the rune of a leading [\uXXXX], if there is one. *)
Definition getu4 (s : string) : option N :=
  match s with
  | String e (String u rest) =>
      if Ascii.eqb e "\"%char && Ascii.eqb u "u"%char then hex4 rest else None
  | _ => None
  end.

Definition utf16_IsSurrogate (r : N) : bool := (55296 <=? r)%N && (r <? 57344)%N.

Definition utf16_DecodeRune (r1 r2 : N) : N :=
  if (55296 <=? r1)%N && (r1 <? 56320)%N && (56320 <=? r2)%N && (r2 <? 57344)%N
  then (N.lor (N.shiftl (r1 - 55296) 10) (r2 - 56320) + 65536)%N
  else RuneError.

Definition unescape_simple (c : ascii) : option ascii :=
  if Ascii.eqb c dquote || Ascii.eqb c "\"%char || Ascii.eqb c "/"%char then Some c
  else if Ascii.eqb c "b"%char then Some (byte_of_code 8)
  else if Ascii.eqb c "f"%char then Some (byte_of_code 12)
  else if Ascii.eqb c "n"%char then Some (byte_of_code 10)
  else if Ascii.eqb c "r"%char then Some (byte_of_code 13)
  else if Ascii.eqb c "t"%char then Some (byte_of_code 9)
  else None.

Definition scan_prepend (p : string) (x : scan string) : scan string :=
  scan_map (fun t => p ++ t) x.

(** A string literal after its opening quote: the scanner's check and
    [unquote] in one pass.  Control bytes and unknown escapes are syntax
    errors; a lone surrogate escape and a byte sequence that is not UTF-8
    are read as U+FFFD. *)
Fixpoint unquote_loop (fuel : nat) (s : string) : scan string :=
  match fuel with
  | O => NoFuel
  | S fuel' =>
      match s with
      | EmptyString => SyntaxErr
      | String c rest =>
          if Ascii.eqb c dquote then Scanned EmptyString rest
          else if Ascii.eqb c "\"%char then
            match rest with
            | EmptyString => SyntaxErr
            | String e rest' =>
                if Ascii.eqb e "u"%char then
                  match hex4 rest' with
                  | None => SyntaxErr
                  | Some rr =>
                      let after := string_drop 4 rest' in
                      if utf16_IsSurrogate rr then
                        let dec := match getu4 after with
                                   | Some rr1 => utf16_DecodeRune rr rr1
                                   | None => RuneError
                                   end in
                        if (dec =? RuneError)%N then
                          scan_prepend (utf8_EncodeRune RuneError)
                            (unquote_loop fuel' after)
                        else
                          scan_prepend (utf8_EncodeRune dec)
                            (unquote_loop fuel' (string_drop 6 after))
                      else
                        scan_prepend (utf8_EncodeRune rr) (unquote_loop fuel' after)
                  end
                else
                  match unescape_simple e with
                  | Some ch =>
                      scan_prepend (String ch EmptyString) (unquote_loop fuel' rest')
                  | None => SyntaxErr
                  end
            end
          else if (byte_code c <? 32)%N then SyntaxErr
          else if (byte_code c <? 128)%N then
            scan_prepend (String c EmptyString) (unquote_loop fuel' rest)
          else
            let '(r, size) := utf8_DecodeRune s in
            if (r =? RuneError)%N && Nat.eqb size 1 then
              scan_prepend (utf8_EncodeRune RuneError) (unquote_loop fuel' rest)
            else
              scan_prepend (string_take size s)
                (unquote_loop fuel' (string_drop size s))
      end
  end.

Definition scan_string (s : string) : scan string :=
  unquote_loop (S (String.length s)) s.

(** A number literal: an optional minus sign; a zero, or a non-zero digit
    and more digits; an optional fraction (a point and one digit or more);
    an optional exponent (e or E, an optional sign, one digit or more). *)
Definition scan_exponent (lit s : string) : scan string :=
  match s with
  | String e rest =>
      if Ascii.eqb e "e"%char || Ascii.eqb e "E"%char then
        let '(sign, rest1) :=
          match rest with
          | String g rest' =>
              if Ascii.eqb g "+"%char || Ascii.eqb g "-"%char
              then (String g EmptyString, rest') else (EmptyString, rest)
          | EmptyString => (EmptyString, rest)
          end in
        let '(ds, rest2) := take_digits rest1 in
        match ds with
        | EmptyString => SyntaxErr
        | _ => Scanned (lit ++ String e sign ++ ds) rest2
        end
      else Scanned lit s
  | EmptyString => Scanned lit s
  end.

Definition scan_fraction (lit s : string) : scan string :=
  match s with
  | String d rest =>
      if Ascii.eqb d "."%char then
        let '(ds, rest1) := take_digits rest in
        match ds with
        | EmptyString => SyntaxErr
        | _ => scan_exponent (lit ++ String d ds) rest1
        end
      else scan_exponent lit s
  | EmptyString => Scanned lit s
  end.

Definition scan_number (s : string) : scan string :=
  let '(sign, s1) :=
    match s with
    | String m rest =>
        if Ascii.eqb m "-"%char then (String m EmptyString, rest) else (EmptyString, s)
    | EmptyString => (EmptyString, s)
    end in
  match s1 with
  | String c rest =>
      if Ascii.eqb c "0"%char then scan_fraction (sign ++ String c EmptyString) rest
      else if is_digit c then
        let '(ds, rest1) := take_digits rest in
        scan_fraction (sign ++ String c ds) rest1
      else SyntaxErr
  | EmptyString => SyntaxErr
  end.

Definition scan_literal (word : string) (v : json) (s : string) : scan json :=
  if String.eqb (string_take (String.length word) s) word
  then Scanned v (string_drop (String.length word) s)
  else SyntaxErr.

(** [maxNestingDepth] of the scanner. *)
Definition maxNestingDepth : N := 10000.

(** One JSON value at the head of the input, after optional white space.
    [depth] counts the arrays and objects that are open around it. *)
Fixpoint parse_value (fuel : nat) (depth : N) (s : string) : scan json :=
  match fuel with
  | O => NoFuel
  | S fuel' =>
      match skip_space s with
      | EmptyString => SyntaxErr
      | String c rest =>
          if Ascii.eqb c "{"%char then
            if (maxNestingDepth <? depth + 1)%N then SyntaxErr
            else
              match skip_space rest with
              | String c' rest' =>
                  if Ascii.eqb c' "}"%char then Scanned (JObject []) rest'
                  else scan_map JObject (parse_members fuel' (depth + 1)%N rest)
              | EmptyString => SyntaxErr
              end
          else if Ascii.eqb c "["%char then
            if (maxNestingDepth <? depth + 1)%N then SyntaxErr
            else
              match skip_space rest with
              | String c' rest' =>
                  if Ascii.eqb c' "]"%char then Scanned (JArray []) rest'
                  else scan_map JArray (parse_elements fuel' (depth + 1)%N rest)
              | EmptyString => SyntaxErr
              end
          else if Ascii.eqb c dquote then scan_map JString (scan_string rest)
          else if Ascii.eqb c "-"%char || is_digit c then
            scan_map JNumber (scan_number (String c rest))
          else if Ascii.eqb c "t"%char then
            scan_literal "true" (JBool true) (String c rest)
          else if Ascii.eqb c "f"%char then
            scan_literal "false" (JBool false) (String c rest)
          else if Ascii.eqb c "n"%char then
            scan_literal "null" JNull (String c rest)
          else SyntaxErr
      end
  end

(** The elements of an array after its bracket or after a comma. *)
with parse_elements (fuel : nat) (depth : N) (s : string) : scan (list json) :=
  match fuel with
  | O => NoFuel
  | S fuel' =>
      scan_bind (parse_value fuel' depth s) (fun v rest =>
        match skip_space rest with
        | String c rest' =>
            if Ascii.eqb c ","%char then
              scan_map (cons v) (parse_elements fuel' depth rest')
            else if Ascii.eqb c "]"%char then Scanned [v] rest'
            else SyntaxErr
        | EmptyString => SyntaxErr
        end)
  end

(** The members of an object after its brace or after a comma. *)
with parse_members (fuel : nat) (depth : N) (s : string)
  : scan (list (string * json)) :=
  match fuel with
  | O => NoFuel
  | S fuel' =>
      match skip_space s with
      | String q rest =>
          if Ascii.eqb q dquote then
            scan_bind (scan_string rest) (fun key rest1 =>
              match skip_space rest1 with
              | String c rest2 =>
                  if Ascii.eqb c ":"%char then
                    scan_bind (parse_value fuel' depth rest2) (fun v rest3 =>
                      match skip_space rest3 with
                      | String c' rest4 =>
                          if Ascii.eqb c' ","%char then
                            scan_map (cons (key, v))
                              (parse_members fuel' depth rest4)
                          else if Ascii.eqb c' "}"%char then
                            Scanned [(key, v)] rest4
                          else SyntaxErr
                      | EmptyString => SyntaxErr
                      end)
                  else SyntaxErr
              | EmptyString => SyntaxErr
              end)
          else SyntaxErr
      | EmptyString => SyntaxErr
      end
  end.

Definition parse_fuel (data : string) : nat := S (2 * String.length data).

(** The document in [data], or nothing when [checkValid] rejects it: the
    input has to be one value, with white space only around it. *)
Definition json_parse (data : string) : option json :=
  match parse_value (parse_fuel data) 0 data with
  | Scanned v rest =>
      match skip_space rest with
      | EmptyString => Some v
      | String _ _ => None
      end
  | SyntaxErr => None
  | NoFuel => None
  end.

(** ** Errors *)

(** The [error] values that reach this package.  Each keeps what this
    development needs to tell it from the others. *)
Inductive error : Type :=
  | errorString (msg : string)           (* fmt.Errorf and errors.New *)
  | MarshalError (msg : string)          (* json.Marshal *)
  | SyntaxError                          (* json: the body is not JSON *)
  | UnmarshalTypeError (value type_name : string)
  | NilContextError                      (* net/http: nil Context *)
  | InvalidMethodError (method : string) (* net/http: invalid method *)
  | EscapeError (s : string)             (* url.EscapeError *)
  | UrlError (op url : string) (err : error) (* *url.Error *)
  | TransportError (msg : string)        (* http.DefaultClient.Do *)
  | ReadError (msg : string).            (* io.ReadAll *)

(** The text of [e.Error()], for the errors whose text is fixed by this
    package or by its environment; the texts the libraries compose are not
    modelled. *)
Definition Error (e : error) : option string :=
  match e with
  | errorString msg => Some msg
  | TransportError msg => Some msg
  | ReadError msg => Some msg
  | NilContextError => Some "net/http: nil Context"
  | _ => None
  end.

Inductive result (A : Type) : Type :=
  | Ok (a : A)
  | Err (e : error).
Arguments Ok {A} a.
Arguments Err {A} e.

(** ** Package json: encoding and decoding Go values *)

(** The zero value of a Go type. *)
Class Zero (A : Type) := zero : A.

(** What [json.Marshal] writes for a value of the type. *)
Class Marshaler (A : Type) := encode_value : A -> result json.

(** What the decoder stores into a variable of the type when it meets a
    JSON value: the new content of the variable and the error to save, if
    any (a mismatch is saved and decoding goes on). *)
Class Unmarshaler (A : Type) := decode_into : json -> A -> A * option error.

(** [d.saveError]: only the first error is kept. *)
Definition saveError (saved new : option error) : option error :=
  match saved with
  | Some _ => saved
  | None => new
  end.

Definition json_kind (j : json) : string :=
  match j with
  | JNull => "null"
  | JBool _ => "bool"
  | JNumber _ => "number"
  | JString _ => "string"
  | JArray _ => "array"
  | JObject _ => "object"
  end.

Definition type_error {A} (j : json) (type_name : string) (v : A)
  : A * option error :=
  (v, Some (UnmarshalTypeError (json_kind j) type_name)).

#[global] Instance Zero_int : Zero Z := 0%Z.
#[global] Instance Zero_string : Zero string := EmptyString.
#[global] Instance Zero_bool : Zero bool := false.
#[global] Instance Zero_pointer {A} : Zero (option A) := None.

#[global] Instance Marshaler_int : Marshaler Z :=
  fun z => Ok (JNumber (format_int z)).
#[global] Instance Marshaler_string : Marshaler string :=
  fun s => Ok (JString s).
#[global] Instance Marshaler_bool : Marshaler bool :=
  fun b => Ok (JBool b).
#[global] Instance Marshaler_pointer {A} `{Marshaler A} : Marshaler (option A) :=
  fun p => match p with
           | Some v => encode_value v
           | None => Ok JNull
           end.

(** [null] leaves a variable that is not a pointer as it is. *)
#[global] Instance Unmarshaler_int : Unmarshaler Z :=
  fun j z =>
    match j with
    | JNull => (z, None)
    | JNumber lit =>
        match strconv_ParseInt lit with
        | Some n => (n, None)
        | None => (z, Some (UnmarshalTypeError ("number " ++ lit) "int"))
        end
    | _ => type_error j "int" z
    end.

#[global] Instance Unmarshaler_string : Unmarshaler string :=
  fun j s =>
    match j with
    | JNull => (s, None)
    | JString t => (t, None)
    | _ => type_error j "string" s
    end.

#[global] Instance Unmarshaler_bool : Unmarshaler bool :=
  fun j b =>
    match j with
    | JNull => (b, None)
    | JBool t => (t, None)
    | _ => type_error j "bool" b
    end.

(** [indirect]: [null] sets a pointer to nil; for any other value a nil
    pointer is first made to point to a new zero value, and the value is
    decoded into what the pointer points to. *)
#[global] Instance Unmarshaler_pointer {A} `{Zero A} `{Unmarshaler A}
  : Unmarshaler (option A) :=
  fun j p =>
    match j with
    | JNull => (None, None)
    | _ =>
        let target := match p with Some v => v | None => zero end in
        let '(v, e) := decode_into j target in (Some v, e)
    end.

(** [foldName]: the key with every rune replaced by the least rune of its
    case orbit.  The names of this package's fields are ASCII, so what
    matters is which runes reach ASCII: the lower-case letters, U+017F
    (to S) and U+212A (to K).  Other runes outside ASCII are kept as they
    are, and bytes that are not UTF-8 become U+FFFD. *)
Fixpoint foldName_loop (fuel : nat) (s : string) : string :=
  match fuel, s with
  | S fuel', String c rest =>
      if (byte_code c <? 128)%N then
        String (if in_range 97 122 c then byte_of_code (byte_code c - 32) else c)
          (foldName_loop fuel' rest)
      else
        let '(r, size) := utf8_DecodeRune s in
        if (r =? 383)%N then String "S"%char (foldName_loop fuel' (string_drop size s))
        else if (r =? 8490)%N then String "K"%char (foldName_loop fuel' (string_drop size s))
        else utf8_EncodeRune r ++ foldName_loop fuel' (string_drop size s)
  | _, _ => EmptyString
  end.

Definition foldName (s : string) : string := foldName_loop (String.length s) s.

(** A field of a struct of type [T] that the decoder can reach: its JSON
    name (the tag, or the Go name when there is no tag) and how a value is
    stored into it. *)
Record field (T : Type) : Type := Field {
  field_name : string;
  field_store : json -> T -> T * option error
}.
Arguments Field {T} field_name field_store.
Arguments field_name {T} f.
Arguments field_store {T} f.

Definition mk_field {T A} `{Unmarshaler A}
    (name : string) (get : T -> A) (set : A -> T -> T) : field T :=
  Field name (fun j t => let '(a, e) := decode_into j (get t) in (set a t, e)).

(** The field a key selects: one with exactly that name, else one with the
    same folded name. *)
Definition find_field {T} (fields : list (field T)) (key : string)
  : option (field T) :=
  match List.find (fun f => String.eqb (field_name f) key) fields with
  | Some f => Some f
  | None =>
      List.find (fun f => String.eqb (foldName (field_name f)) (foldName key)) fields
  end.

(** [d.object] on a struct: the members are stored one after the other,
    a later member overwriting or completing what an earlier one stored;
    members with no field are skipped. *)
Fixpoint decode_members {T} (fields : list (field T))
    (members : list (string * json)) (st : T * option error)
  : T * option error :=
  match members with
  | [] => st
  | (key, v) :: tl =>
      decode_members fields tl
        (match find_field fields key with
         | Some f =>
             let '(t, e) := field_store f v (fst st) in (t, saveError (snd st) e)
         | None => st
         end)
  end.

Definition decode_struct {T} (type_name : string) (fields : list (field T))
  : Unmarshaler T :=
  fun j t =>
    match j with
    | JObject members => decode_members fields members (t, None)
    | JNull => (t, None)
    | _ => type_error j type_name t
    end.

(** [json.Marshal(v)]: the bytes of the compact encoding. *)
Definition json_Marshal {A} `{Marshaler A} (v : A) : result string :=
  match encode_value v with
  | Ok j => Ok (json_encode j)
  | Err e => Err e
  end.

(** [json.Unmarshal(data, &v)]: the input is checked as a whole first; then
    it is decoded into [v], and the first saved error is returned. *)
Definition json_Unmarshal {A} `{Unmarshaler A} (data : string) (v : A)
  : A * option error :=
  match json_parse data with
  | None => (v, Some SyntaxError)
  | Some j => decode_into j v
  end.

(** The fields of a struct are written in the order of their declaration;
    the first field that cannot be encoded stops the encoder. *)
Fixpoint encode_fields (fs : list (string * result json))
  : result (list (string * json)) :=
  match fs with
  | [] => Ok []
  | (k, Ok j) :: tl =>
      match encode_fields tl with
      | Ok m => Ok ((k, j) :: m)
      | Err e => Err e
      end
  | (_, Err e) :: _ => Err e
  end.

Definition encode_struct (fs : list (string * result json)) : result json :=
  match encode_fields fs with
  | Ok m => Ok (JObject m)
  | Err e => Err e
  end.

(** ** The data shapes of [paystack.go]

    A Go [int] is a [Z], a pointer to a struct is an [option] (nil is
    [None]).  Every field of a struct [T] is named [T_Field]; each struct
    comes with its zero value, one setter per field, and its encoder and
    decoder, which list the fields with their [json] tags.  No tag has
    [omitempty], so the encoder writes every field. *)

(** The shape [Customer]. *)
Record Customer : Type := Build_Customer {
  Customer_Id : Z;
  Customer_Email : string;
  Customer_CustomerCode : string
}.

#[global] Instance Zero_Customer : Zero Customer :=
  Build_Customer zero zero zero.

Definition set_Customer_Id (v : Z) (t : Customer) : Customer :=
  Build_Customer v (Customer_Email t) (Customer_CustomerCode t).

Definition set_Customer_Email (v : string) (t : Customer) : Customer :=
  Build_Customer (Customer_Id t) v (Customer_CustomerCode t).

Definition set_Customer_CustomerCode (v : string) (t : Customer) : Customer :=
  Build_Customer (Customer_Id t) (Customer_Email t) v.

#[global] Instance Marshaler_Customer : Marshaler Customer :=
  fun v => encode_struct
    [("id", encode_value (Customer_Id v));
     ("email", encode_value (Customer_Email v));
     ("customer_code", encode_value (Customer_CustomerCode v))].

Definition fields_Customer : list (field Customer) :=
  [mk_field "id" Customer_Id set_Customer_Id;
   mk_field "email" Customer_Email set_Customer_Email;
   mk_field "customer_code" Customer_CustomerCode set_Customer_CustomerCode].

#[global] Instance Unmarshaler_Customer : Unmarshaler Customer :=
  decode_struct "Customer" fields_Customer.

(** The shape [InitializedTransaction]. *)
Record InitializedTransaction : Type := Build_InitializedTransaction {
  InitializedTransaction_Reference : string;
  InitializedTransaction_AuthorizationUrl : string;
  InitializedTransaction_AccessCode : string
}.

#[global] Instance Zero_InitializedTransaction : Zero InitializedTransaction :=
  Build_InitializedTransaction zero zero zero.

Definition set_InitializedTransaction_Reference (v : string) (t : InitializedTransaction) : InitializedTransaction :=
  Build_InitializedTransaction v (InitializedTransaction_AuthorizationUrl t) (InitializedTransaction_AccessCode t).

Definition set_InitializedTransaction_AuthorizationUrl (v : string) (t : InitializedTransaction) : InitializedTransaction :=
  Build_InitializedTransaction (InitializedTransaction_Reference t) v (InitializedTransaction_AccessCode t).

Definition set_InitializedTransaction_AccessCode (v : string) (t : InitializedTransaction) : InitializedTransaction :=
  Build_InitializedTransaction (InitializedTransaction_Reference t) (InitializedTransaction_AuthorizationUrl t) v.

#[global] Instance Marshaler_InitializedTransaction : Marshaler InitializedTransaction :=
  fun v => encode_struct
    [("reference", encode_value (InitializedTransaction_Reference v));
     ("authorization_url", encode_value (InitializedTransaction_AuthorizationUrl v));
     ("access_code", encode_value (InitializedTransaction_AccessCode v))].

Definition fields_InitializedTransaction : list (field InitializedTransaction) :=
  [mk_field "reference" InitializedTransaction_Reference set_InitializedTransaction_Reference;
   mk_field "authorization_url" InitializedTransaction_AuthorizationUrl set_InitializedTransaction_AuthorizationUrl;
   mk_field "access_code" InitializedTransaction_AccessCode set_InitializedTransaction_AccessCode].

#[global] Instance Unmarshaler_InitializedTransaction : Unmarshaler InitializedTransaction :=
  decode_struct "InitializedTransaction" fields_InitializedTransaction.

(** The shape [Authorization]. *)
Record Authorization : Type := Build_Authorization {
  Authorization_AuthorizationCode : string;
  Authorization_Bin : string;
  Authorization_Last4 : string;
  Authorization_ExpMonth : string;
  Authorization_ExpYear : string;
  Authorization_Channel : string;
  Authorization_CardType : string;
  Authorization_Bank : string;
  Authorization_CountryCode : string;
  Authorization_Brand : string;
  Authorization_Reusable : bool;
  Authorization_Signature : string;
  Authorization_AccountName : string
}.

#[global] Instance Zero_Authorization : Zero Authorization :=
  Build_Authorization zero zero zero zero zero zero zero zero zero zero zero zero zero.

Definition set_Authorization_AuthorizationCode (v : string) (t : Authorization) : Authorization :=
  Build_Authorization v (Authorization_Bin t) (Authorization_Last4 t) (Authorization_ExpMonth t) (Authorization_ExpYear t) (Authorization_Channel t) (Authorization_CardType t) (Authorization_Bank t) (Authorization_CountryCode t) (Authorization_Brand t) (Authorization_Reusable t) (Authorization_Signature t) (Authorization_AccountName t).

Definition set_Authorization_Bin (v : string) (t : Authorization) : Authorization :=
  Build_Authorization (Authorization_AuthorizationCode t) v (Authorization_Last4 t) (Authorization_ExpMonth t) (Authorization_ExpYear t) (Authorization_Channel t) (Authorization_CardType t) (Authorization_Bank t) (Authorization_CountryCode t) (Authorization_Brand t) (Authorization_Reusable t) (Authorization_Signature t) (Authorization_AccountName t).

Definition set_Authorization_Last4 (v : string) (t : Authorization) : Authorization :=
  Build_Authorization (Authorization_AuthorizationCode t) (Authorization_Bin t) v (Authorization_ExpMonth t) (Authorization_ExpYear t) (Authorization_Channel t) (Authorization_CardType t) (Authorization_Bank t) (Authorization_CountryCode t) (Authorization_Brand t) (Authorization_Reusable t) (Authorization_Signature t) (Authorization_AccountName t).

Definition set_Authorization_ExpMonth (v : string) (t : Authorization) : Authorization :=
  Build_Authorization (Authorization_AuthorizationCode t) (Authorization_Bin t) (Authorization_Last4 t) v (Authorization_ExpYear t) (Authorization_Channel t) (Authorization_CardType t) (Authorization_Bank t) (Authorization_CountryCode t) (Authorization_Brand t) (Authorization_Reusable t) (Authorization_Signature t) (Authorization_AccountName t).

Definition set_Authorization_ExpYear (v : string) (t : Authorization) : Authorization :=
  Build_Authorization (Authorization_AuthorizationCode t) (Authorization_Bin t) (Authorization_Last4 t) (Authorization_ExpMonth t) v (Authorization_Channel t) (Authorization_CardType t) (Authorization_Bank t) (Authorization_CountryCode t) (Authorization_Brand t) (Authorization_Reusable t) (Authorization_Signature t) (Authorization_AccountName t).

Definition set_Authorization_Channel (v : string) (t : Authorization) : Authorization :=
  Build_Authorization (Authorization_AuthorizationCode t) (Authorization_Bin t) (Authorization_Last4 t) (Authorization_ExpMonth t) (Authorization_ExpYear t) v (Authorization_CardType t) (Authorization_Bank t) (Authorization_CountryCode t) (Authorization_Brand t) (Authorization_Reusable t) (Authorization_Signature t) (Authorization_AccountName t).

Definition set_Authorization_CardType (v : string) (t : Authorization) : Authorization :=
  Build_Authorization (Authorization_AuthorizationCode t) (Authorization_Bin t) (Authorization_Last4 t) (Authorization_ExpMonth t) (Authorization_ExpYear t) (Authorization_Channel t) v (Authorization_Bank t) (Authorization_CountryCode t) (Authorization_Brand t) (Authorization_Reusable t) (Authorization_Signature t) (Authorization_AccountName t).

Definition set_Authorization_Bank (v : string) (t : Authorization) : Authorization :=
  Build_Authorization (Authorization_AuthorizationCode t) (Authorization_Bin t) (Authorization_Last4 t) (Authorization_ExpMonth t) (Authorization_ExpYear t) (Authorization_Channel t) (Authorization_CardType t) v (Authorization_CountryCode t) (Authorization_Brand t) (Authorization_Reusable t) (Authorization_Signature t) (Authorization_AccountName t).

Definition set_Authorization_CountryCode (v : string) (t : Authorization) : Authorization :=
  Build_Authorization (Authorization_AuthorizationCode t) (Authorization_Bin t) (Authorization_Last4 t) (Authorization_ExpMonth t) (Authorization_ExpYear t) (Authorization_Channel t) (Authorization_CardType t) (Authorization_Bank t) v (Authorization_Brand t) (Authorization_Reusable t) (Authorization_Signature t) (Authorization_AccountName t).

Definition set_Authorization_Brand (v : string) (t : Authorization) : Authorization :=
  Build_Authorization (Authorization_AuthorizationCode t) (Authorization_Bin t) (Authorization_Last4 t) (Authorization_ExpMonth t) (Authorization_ExpYear t) (Authorization_Channel t) (Authorization_CardType t) (Authorization_Bank t) (Authorization_CountryCode t) v (Authorization_Reusable t) (Authorization_Signature t) (Authorization_AccountName t).

Definition set_Authorization_Reusable (v : bool) (t : Authorization) : Authorization :=
  Build_Authorization (Authorization_AuthorizationCode t) (Authorization_Bin t) (Authorization_Last4 t) (Authorization_ExpMonth t) (Authorization_ExpYear t) (Authorization_Channel t) (Authorization_CardType t) (Authorization_Bank t) (Authorization_CountryCode t) (Authorization_Brand t) v (Authorization_Signature t) (Authorization_AccountName t).

Definition set_Authorization_Signature (v : string) (t : Authorization) : Authorization :=
  Build_Authorization (Authorization_AuthorizationCode t) (Authorization_Bin t) (Authorization_Last4 t) (Authorization_ExpMonth t) (Authorization_ExpYear t) (Authorization_Channel t) (Authorization_CardType t) (Authorization_Bank t) (Authorization_CountryCode t) (Authorization_Brand t) (Authorization_Reusable t) v (Authorization_AccountName t).

Definition set_Authorization_AccountName (v : string) (t : Authorization) : Authorization :=
  Build_Authorization (Authorization_AuthorizationCode t) (Authorization_Bin t) (Authorization_Last4 t) (Authorization_ExpMonth t) (Authorization_ExpYear t) (Authorization_Channel t) (Authorization_CardType t) (Authorization_Bank t) (Authorization_CountryCode t) (Authorization_Brand t) (Authorization_Reusable t) (Authorization_Signature t) v.

#[global] Instance Marshaler_Authorization : Marshaler Authorization :=
  fun v => encode_struct
    [("authorization_code", encode_value (Authorization_AuthorizationCode v));
     ("bin", encode_value (Authorization_Bin v));
     ("last4", encode_value (Authorization_Last4 v));
     ("exp_month", encode_value (Authorization_ExpMonth v));
     ("exp_year", encode_value (Authorization_ExpYear v));
     ("channel", encode_value (Authorization_Channel v));
     ("card_type", encode_value (Authorization_CardType v));
     ("bank", encode_value (Authorization_Bank v));
     ("country_code", encode_value (Authorization_CountryCode v));
     ("brand", encode_value (Authorization_Brand v));
     ("reusable", encode_value (Authorization_Reusable v));
     ("signature", encode_value (Authorization_Signature v));
     ("account_name", encode_value (Authorization_AccountName v))].

Definition fields_Authorization : list (field Authorization) :=
  [mk_field "authorization_code" Authorization_AuthorizationCode set_Authorization_AuthorizationCode;
   mk_field "bin" Authorization_Bin set_Authorization_Bin;
   mk_field "last4" Authorization_Last4 set_Authorization_Last4;
   mk_field "exp_month" Authorization_ExpMonth set_Authorization_ExpMonth;
   mk_field "exp_year" Authorization_ExpYear set_Authorization_ExpYear;
   mk_field "channel" Authorization_Channel set_Authorization_Channel;
   mk_field "card_type" Authorization_CardType set_Authorization_CardType;
   mk_field "bank" Authorization_Bank set_Authorization_Bank;
   mk_field "country_code" Authorization_CountryCode set_Authorization_CountryCode;
   mk_field "brand" Authorization_Brand set_Authorization_Brand;
   mk_field "reusable" Authorization_Reusable set_Authorization_Reusable;
   mk_field "signature" Authorization_Signature set_Authorization_Signature;
   mk_field "account_name" Authorization_AccountName set_Authorization_AccountName].

#[global] Instance Unmarshaler_Authorization : Unmarshaler Authorization :=
  decode_struct "Authorization" fields_Authorization.

(** The shape [VerifiedTransaction]. *)
Record VerifiedTransaction : Type := Build_VerifiedTransaction {
  VerifiedTransaction_Id : Z;
  VerifiedTransaction_Reference : string;
  VerifiedTransaction_Status : string;
  VerifiedTransaction_Authorization : option Authorization
}.

#[global] Instance Zero_VerifiedTransaction : Zero VerifiedTransaction :=
  Build_VerifiedTransaction zero zero zero zero.

Definition set_VerifiedTransaction_Id (v : Z) (t : VerifiedTransaction) : VerifiedTransaction :=
  Build_VerifiedTransaction v (VerifiedTransaction_Reference t) (VerifiedTransaction_Status t) (VerifiedTransaction_Authorization t).

Definition set_VerifiedTransaction_Reference (v : string) (t : VerifiedTransaction) : VerifiedTransaction :=
  Build_VerifiedTransaction (VerifiedTransaction_Id t) v (VerifiedTransaction_Status t) (VerifiedTransaction_Authorization t).

Definition set_VerifiedTransaction_Status (v : string) (t : VerifiedTransaction) : VerifiedTransaction :=
  Build_VerifiedTransaction (VerifiedTransaction_Id t) (VerifiedTransaction_Reference t) v (VerifiedTransaction_Authorization t).

Definition set_VerifiedTransaction_Authorization (v : option Authorization) (t : VerifiedTransaction) : VerifiedTransaction :=
  Build_VerifiedTransaction (VerifiedTransaction_Id t) (VerifiedTransaction_Reference t) (VerifiedTransaction_Status t) v.

#[global] Instance Marshaler_VerifiedTransaction : Marshaler VerifiedTransaction :=
  fun v => encode_struct
    [("id", encode_value (VerifiedTransaction_Id v));
     ("reference", encode_value (VerifiedTransaction_Reference v));
     ("status", encode_value (VerifiedTransaction_Status v));
     ("authorization", encode_value (VerifiedTransaction_Authorization v))].

Definition fields_VerifiedTransaction : list (field VerifiedTransaction) :=
  [mk_field "id" VerifiedTransaction_Id set_VerifiedTransaction_Id;
   mk_field "reference" VerifiedTransaction_Reference set_VerifiedTransaction_Reference;
   mk_field "status" VerifiedTransaction_Status set_VerifiedTransaction_Status;
   mk_field "authorization" VerifiedTransaction_Authorization set_VerifiedTransaction_Authorization].

#[global] Instance Unmarshaler_VerifiedTransaction : Unmarshaler VerifiedTransaction :=
  decode_struct "VerifiedTransaction" fields_VerifiedTransaction.

(** The type [CreateCustomerResp] local to [CreateCustomer]. *)
Record CreateCustomerResp : Type := Build_CreateCustomerResp {
  CreateCustomerResp_Data : option Customer
}.

#[global] Instance Zero_CreateCustomerResp : Zero CreateCustomerResp :=
  Build_CreateCustomerResp zero.

Definition set_CreateCustomerResp_Data (v : option Customer) (t : CreateCustomerResp) : CreateCustomerResp :=
  Build_CreateCustomerResp v.

Definition fields_CreateCustomerResp : list (field CreateCustomerResp) :=
  [mk_field "data" CreateCustomerResp_Data set_CreateCustomerResp_Data].

#[global] Instance Unmarshaler_CreateCustomerResp : Unmarshaler CreateCustomerResp :=
  decode_struct "CreateCustomerResp" fields_CreateCustomerResp.

(** The type [InitTransactionReq] local to [InitializeTransaction]. *)
Record InitTransactionReq : Type := Build_InitTransactionReq {
  InitTransactionReq_Email : string;
  InitTransactionReq_Amount : string
}.

#[global] Instance Zero_InitTransactionReq : Zero InitTransactionReq :=
  Build_InitTransactionReq zero zero.

#[global] Instance Marshaler_InitTransactionReq : Marshaler InitTransactionReq :=
  fun v => encode_struct
    [("email", encode_value (InitTransactionReq_Email v));
     ("amount", encode_value (InitTransactionReq_Amount v))].

(** The type [InitTransactionResp] local to [InitializeTransaction]; its field has no tag, so its JSON name is the Go name. *)
Record InitTransactionResp : Type := Build_InitTransactionResp {
  InitTransactionResp_Data : option InitializedTransaction
}.

#[global] Instance Zero_InitTransactionResp : Zero InitTransactionResp :=
  Build_InitTransactionResp zero.

Definition set_InitTransactionResp_Data (v : option InitializedTransaction) (t : InitTransactionResp) : InitTransactionResp :=
  Build_InitTransactionResp v.

Definition fields_InitTransactionResp : list (field InitTransactionResp) :=
  [mk_field "Data" InitTransactionResp_Data set_InitTransactionResp_Data].

#[global] Instance Unmarshaler_InitTransactionResp : Unmarshaler InitTransactionResp :=
  decode_struct "InitTransactionResp" fields_InitTransactionResp.

(** The type [ChargeTransactionReq] local to [ChargeAuthorization]. *)
Record ChargeTransactionReq : Type := Build_ChargeTransactionReq {
  ChargeTransactionReq_Email : string;
  ChargeTransactionReq_Amount : string;
  ChargeTransactionReq_AuthorizationCode : string
}.

#[global] Instance Zero_ChargeTransactionReq : Zero ChargeTransactionReq :=
  Build_ChargeTransactionReq zero zero zero.

#[global] Instance Marshaler_ChargeTransactionReq : Marshaler ChargeTransactionReq :=
  fun v => encode_struct
    [("email", encode_value (ChargeTransactionReq_Email v));
     ("amount", encode_value (ChargeTransactionReq_Amount v));
     ("authorization_code", encode_value (ChargeTransactionReq_AuthorizationCode v))].

(** The type [ChargeTransactionResp] local to [ChargeAuthorization]. *)
Record ChargeTransactionResp : Type := Build_ChargeTransactionResp {
  ChargeTransactionResp_Data : option InitializedTransaction
}.

#[global] Instance Zero_ChargeTransactionResp : Zero ChargeTransactionResp :=
  Build_ChargeTransactionResp zero.

Definition set_ChargeTransactionResp_Data (v : option InitializedTransaction) (t : ChargeTransactionResp) : ChargeTransactionResp :=
  Build_ChargeTransactionResp v.

Definition fields_ChargeTransactionResp : list (field ChargeTransactionResp) :=
  [mk_field "Data" ChargeTransactionResp_Data set_ChargeTransactionResp_Data].

#[global] Instance Unmarshaler_ChargeTransactionResp : Unmarshaler ChargeTransactionResp :=
  decode_struct "ChargeTransactionResp" fields_ChargeTransactionResp.

(** The type [VerifiedTransactionResp] local to [VerifyTransaction]. *)
Record VerifiedTransactionResp : Type := Build_VerifiedTransactionResp {
  VerifiedTransactionResp_Data : option VerifiedTransaction
}.

#[global] Instance Zero_VerifiedTransactionResp : Zero VerifiedTransactionResp :=
  Build_VerifiedTransactionResp zero.

Definition set_VerifiedTransactionResp_Data (v : option VerifiedTransaction) (t : VerifiedTransactionResp) : VerifiedTransactionResp :=
  Build_VerifiedTransactionResp v.

Definition fields_VerifiedTransactionResp : list (field VerifiedTransactionResp) :=
  [mk_field "Data" VerifiedTransactionResp_Data set_VerifiedTransactionResp_Data].

#[global] Instance Unmarshaler_VerifiedTransactionResp : Unmarshaler VerifiedTransactionResp :=
  decode_struct "VerifiedTransactionResp" fields_VerifiedTransactionResp.

(** The nil interface value passed where no body is sent or expected. *)
#[global] Instance Marshaler_nil : Marshaler Empty_set :=
  fun v => match v with end.
#[global] Instance Unmarshaler_nil : Unmarshaler Empty_set :=
  fun _ v => match v with end.

(** ** Package url *)

(** The modes of escaping that parsing and printing the URLs of this
    package go through. *)
Inductive encoding : Type :=
  | encodePath
  | encodeHost
  | encodeFragment.

(** A parsed URL.  The fields [Opaque], [User] and [OmitHost] of the Go
    struct keep their zero values for every URL of the form
    [scheme://host/path?query#fragment] and are left out. *)
Record URL : Type := Build_URL {
  URL_Scheme : string;
  URL_Host : string;
  URL_Path : string;
  URL_RawPath : string;
  URL_ForceQuery : bool;
  URL_RawQuery : string;
  URL_Fragment : string;
  URL_RawFragment : string
}.

Definition byte_in (c : ascii) (set : string) : bool :=
  match string_index c set with
  | Some _ => true
  | None => false
  end.

Definition isCTL (c : ascii) : bool :=
  (byte_code c <? 32)%N || (byte_code c =? 127)%N.

Definition stringContainsCTLByte (s : string) : bool :=
  negb (string_forallb (fun c => negb (isCTL c)) s).

(** [shouldEscape(c, mode)]: letters and digits never; the marks
    [-_.~] never; the reserved bytes according to the mode; everything else
    always, but for what a host and a fragment let through. *)
Definition shouldEscape (c : ascii) (mode : encoding) : bool :=
  if in_range 97 122 c || in_range 65 90 c || in_range 48 57 c then false
  else if match mode with
          | encodeHost => byte_in c ("!$&'()*+,;=:[]<>" ++ String dquote EmptyString)
          | _ => false
          end
  then false
  else if byte_in c "-_.~" then false
  else if byte_in c "$&+,/:;=?@" then
    match mode with
    | encodePath => Ascii.eqb c "?"%char
    | encodeFragment => false
    | encodeHost => true
    end
  else if match mode with
          | encodeFragment => byte_in c "!()*"
          | _ => false
          end
  then false
  else true.

(** The table [upperhex = "0123456789ABCDEF"]. *)
Definition upperhex (n : N) : ascii :=
  if (n <? 10)%N then byte_of_code (48 + n) else byte_of_code (55 + n).

(** [escape(s, mode)]: every byte that should be escaped is written as a
    percent sign and two upper-case hexadecimal digits. *)
Fixpoint escape (s : string) (mode : encoding) : string :=
  match s with
  | EmptyString => EmptyString
  | String c rest =>
      if shouldEscape c mode then
        String "%"%char
          (String (upperhex (N.shiftr (byte_code c) 4))
             (String (upperhex (N.land (byte_code c) 15)) (escape rest mode)))
      else String c (escape rest mode)
  end.

Definition unhex (c : ascii) : N :=
  if in_range 48 57 c then byte_code c - 48
  else if in_range 97 102 c then byte_code c - 97 + 10
  else byte_code c - 65 + 10.

(** [unescape(s, mode)] for a path or a fragment: a percent sign and two
    hexadecimal digits stand for one byte, every other byte for itself; a
    percent sign followed by anything else is an [EscapeError] that holds
    the percent sign and up to two bytes after it. *)
Fixpoint unescape (s : string) : result string :=
  match s with
  | EmptyString => Ok EmptyString
  | String c rest =>
      if Ascii.eqb c "%"%char then
        match rest with
        | String a (String b rest') =>
            if ishex a && ishex b then
              match unescape rest' with
              | Ok t =>
                  Ok (String (byte_of_code (N.lor (N.shiftl (unhex a) 4) (unhex b))) t)
              | Err e => Err e
              end
            else Err (EscapeError (string_take 3 s))
        | _ => Err (EscapeError (string_take 3 s))
        end
      else
        match unescape rest with
        | Ok t => Ok (String c t)
        | Err e => Err e
        end
  end.

(** [validEncoded(s, mode)]. *)
Definition validEncoded (s : string) (mode : encoding) : bool :=
  string_forallb
    (fun c => byte_in c "!$&'()*+,;=:@[]%" || negb (shouldEscape c mode)) s.

(** [strings.ToLower] on the ASCII bytes a scheme is made of. *)
Fixpoint strings_ToLower (s : string) : string :=
  match s with
  | EmptyString => EmptyString
  | String c rest =>
      String (if in_range 65 90 c then byte_of_code (byte_code c + 32) else c)
        (strings_ToLower rest)
  end.

(** What [setPath] and [setFragment] keep of the text they were given: the
    text itself when escaping the decoded form does not give it back. *)
Definition raw_hint (text decoded : string) (mode : encoding) : string :=
  if String.eqb text (escape decoded mode) then EmptyString else text.

(** [parse(rawURL, false)] on an absolute URL [scheme://host/path?query]
    whose scheme and host are well formed and whose host has neither user
    information nor escapes, which holds for every URL this package
    builds (they all start with [https://api.paystack.co/]).  What is left
    to fail: a control byte, and a malformed percent escape in the path.
    The query is not checked; the text ends in its only question mark
    exactly when the cut finds one with nothing after it. *)
Definition url_parse (rawURL : string) : result URL :=
  if stringContainsCTLByte rawURL then
    Err (errorString "net/url: invalid control character in URL")
  else
    let '(scheme, rest, _) := strings_Cut rawURL ":"%char in
    let '(rest, query, found) := strings_Cut rest "?"%char in
    let authority := string_drop 2 rest in
    let '(host, rest) :=
      match string_index "/"%char authority with
      | Some i => (string_take i authority, string_drop i authority)
      | None => (authority, EmptyString)
      end in
    match unescape rest with
    | Err e => Err e
    | Ok path =>
        Ok (Build_URL (strings_ToLower scheme) host
              path (raw_hint rest path encodePath)
              (found && String.eqb query EmptyString) query
              EmptyString EmptyString)
    end.

(** [u.setFragment(f)]. *)
Definition setFragment (f : string) (u : URL) : result URL :=
  match unescape f with
  | Err e => Err e
  | Ok frag =>
      Ok (Build_URL (URL_Scheme u) (URL_Host u) (URL_Path u) (URL_RawPath u)
            (URL_ForceQuery u) (URL_RawQuery u)
            frag (raw_hint f frag encodeFragment))
  end.

(** [url.Parse]: the fragment is cut off first and set last; an error is
    wrapped with the text that was being parsed. *)
Definition url_Parse (rawURL : string) : result URL :=
  let '(u, frag, _) := strings_Cut rawURL "#"%char in
  match url_parse u with
  | Err e => Err (UrlError "parse" u e)
  | Ok url =>
      if String.eqb frag EmptyString then Ok url
      else
        match setFragment frag url with
        | Err e => Err (UrlError "parse" rawURL e)
        | Ok url => Ok url
        end
  end.

(** [u.EscapedPath()] and [u.EscapedFragment()]: the raw text when it is a
    valid encoding of the decoded one, else the decoded one escaped. *)
Definition EscapedPath (u : URL) : string :=
  if negb (String.eqb (URL_RawPath u) EmptyString)
     && validEncoded (URL_RawPath u) encodePath
     && match unescape (URL_RawPath u) with
        | Ok p => String.eqb p (URL_Path u)
        | Err _ => false
        end
  then URL_RawPath u
  else if String.eqb (URL_Path u) "*" then "*"
  else escape (URL_Path u) encodePath.

Definition EscapedFragment (u : URL) : string :=
  if negb (String.eqb (URL_RawFragment u) EmptyString)
     && validEncoded (URL_RawFragment u) encodeFragment
     && match unescape (URL_RawFragment u) with
        | Ok f => String.eqb f (URL_Fragment u)
        | Err _ => false
        end
  then URL_RawFragment u
  else escape (URL_Fragment u) encodeFragment.


(** [u.String()]. *)
Definition URL_String (u : URL) : string :=
  let nonempty s := negb (String.eqb s EmptyString) in
  let buf := if nonempty (URL_Scheme u) then URL_Scheme u ++ ":" else EmptyString in
  let buf :=
    if nonempty (URL_Scheme u) || nonempty (URL_Host u) then
      (buf ++ (if nonempty (URL_Host u) || nonempty (URL_Path u)
               then "//" else EmptyString))
      ++ escape (URL_Host u) encodeHost
    else buf in
  let path := EscapedPath u in
  let buf :=
    if nonempty path
       && negb (String.eqb (string_take 1 path) "/")
       && nonempty (URL_Host u)
    then buf ++ "/" else buf in
  let buf :=
    if String.eqb buf EmptyString
       && byte_in ":"%char (fst (fst (strings_Cut path "/"%char)))
    then buf ++ "./" else buf in
  let buf := buf ++ path in
  let buf :=
    if URL_ForceQuery u || nonempty (URL_RawQuery u)
    then buf ++ "?" ++ URL_RawQuery u else buf in
  if nonempty (URL_Fragment u) then buf ++ "#" ++ EscapedFragment u else buf.

(** The URL of an endpoint of the API that has neither query nor
    fragment and whose path needs no escaping. *)
Definition api_URL (path : string) : URL :=
  Build_URL "https" "api.paystack.co" path EmptyString false EmptyString
    EmptyString EmptyString.

(** ** Package http *)

(** A [context.Context]; the interface value can be nil. *)
Inductive Context : Type :=
  | NilContext
  | LiveContext (name : string).

(** The request handed to the client.  [req_URL] is the parsed URL;
    [req_Header] maps a canonical header name to its values. *)
Record Request : Type := Build_Request {
  req_ctx : Context;
  req_Method : string;
  req_URL : URL;
  req_Header : gmap string (list string);
  req_Body : string
}.

(** The response: its status code, and what [io.ReadAll] gets from its
    body. *)
Record Response : Type := Build_Response {
  StatusCode : Z;
  resp_Body : result string
}.

Definition StatusOK : Z := 200.

(** [httpguts.IsTokenRune]. *)
Definition isToken (c : ascii) : bool :=
  in_range 48 57 c || in_range 65 90 c || in_range 97 122 c
  || match string_index c "!#$%&'*+-.^_`|~" with Some _ => true | None => false end.

Definition validMethod (method : string) : bool :=
  negb (String.eqb method EmptyString) && string_forallb isToken method.

(** [strings.LastIndex] for a one-byte separator, -1 when there is none. *)
Fixpoint strings_LastIndex (s : string) (sep : ascii) : Z :=
  match s with
  | EmptyString => -1
  | String c rest =>
      let i := strings_LastIndex rest sep in
      if (0 <=? i)%Z then i + 1
      else if Ascii.eqb c sep then 0 else -1
  end.

Definition hasPort (s : string) : bool :=
  (strings_LastIndex s "]"%char <? strings_LastIndex s ":"%char)%Z.

(** [strings.TrimSuffix(s, ":")]. *)
Fixpoint trim_colon (s : string) : string :=
  match s with
  | EmptyString => EmptyString
  | String c rest =>
      if Ascii.eqb c ":"%char && String.eqb rest EmptyString then EmptyString
      else String c (trim_colon rest)
  end.

Definition removeEmptyPort (host : string) : string :=
  if hasPort host then trim_colon host else host.

(** [http.NewRequestWithContext]: the request holds the URL that
    [url.Parse] made of the text, its host without an empty port; the new
    request has no header. *)
Definition http_NewRequestWithContext
    (ctx : Context) (method url body : string) : result Request :=
  let method := if String.eqb method EmptyString then "GET" else method in
  if negb (validMethod method) then Err (InvalidMethodError method)
  else
    match ctx with
    | NilContext => Err NilContextError
    | LiveContext _ =>
        match url_Parse url with
        | Err e => Err e
        | Ok u =>
            let u := Build_URL (URL_Scheme u) (removeEmptyPort (URL_Host u))
                       (URL_Path u) (URL_RawPath u) (URL_ForceQuery u)
                       (URL_RawQuery u) (URL_Fragment u) (URL_RawFragment u) in
            Ok (Build_Request ctx method u ∅ body)
        end
    end.

(** [req.Header.Set(key, value)] for a key in canonical form. *)
Definition Header_Set (key value : string) (req : Request) : Request :=
  Build_Request (req_ctx req) (req_Method req) (req_URL req)
    (<[key := [value]]> (req_Header req)) (req_Body req).

(** [req.Header.Get(key)]: the first value of the key, if any. *)
Definition Header_Get (key : string) (req : Request) : option string :=
  match req_Header req !! key with
  | Some (v :: _) => Some v
  | _ => None
  end.

(** ** Effects

    What a call does to the outside is recorded in a log: the requests
    handed to [http.DefaultClient.Do], the bodies given to
    [json.Unmarshal], and the response bodies closed. *)
Inductive Event : Type :=
  | Sent (req : Request)
  | Unmarshalled (data : string)
  | Closed.

(** The network: the answer of [http.DefaultClient.Do] to a request, which
    may depend on everything that happened before. *)
Definition Transport : Type := list Event -> Request -> result Response.

(** A computation that reads and extends the log. *)
Definition IO (A : Type) : Type := list Event -> A * list Event.

Definition ret {A} (a : A) : IO A := fun log => (a, log).

Definition bind {A B} (m : IO A) (f : A -> IO B) : IO B :=
  fun log => let '(a, log') := m log in f a log'.

Definition emit (ev : Event) : IO unit := fun log => (tt, (log ++ [ev])%list).

Notation "x <- m ;; k" := (bind m (fun x => k))
  (at level 100, m at next level, right associativity).
Notation "m ;;; k" := (bind m (fun _ => k))
  (at level 100, right associativity).

Definition http_Do (transport : Transport) (req : Request) : IO (result Response) :=
  fun log => (transport log req, (log ++ [Sent req])%list).

(** ** The client *)

Record Client : Type := Build_Client { secret : string }.

(** How a constructor ends: it returns, or the process is stopped. *)
Inductive startup (A : Type) : Type :=
  | Returned (a : A)
  | Fatal (msg : string).
Arguments Returned {A} a.
Arguments Fatal {A} msg.

(** [NewClient]; [getenv] is [os.Getenv], which reads an unset variable as
    the empty string.  [alog.Fatal] logs and exits. *)
Definition NewClient (getenv : string -> string) : startup Client :=
  let secret := getenv "PAYSTACK_SECRET" in
  if String.eqb secret EmptyString then Fatal "PAYSTACK_SECRET env var not set"
  else Returned (Build_Client secret).

Section Operations.

(** [http.DefaultClient]. *)
Variable transport : Transport.

(** [request].  [req_body] and [resp_body] are the two [any] arguments,
    [None] for nil; [resp_body] holds what the pointer points to, and the
    first component of the result is what it points to after the call. *)
Definition request {Req Resp : Type} `{Marshaler Req} `{Unmarshaler Resp}
    (c : Client) (ctx : Context) (url method : string)
    (req_body : option Req) (resp_body : option Resp)
  : IO (option Resp * option error) :=
  match (match req_body with
         | Some v => json_Marshal v
         | None => Ok EmptyString
         end) with
  | Err err => ret (resp_body, Some err)
  | Ok body =>
      match http_NewRequestWithContext ctx method url body with
      | Err err => ret (resp_body, Some err)
      | Ok req =>
          let req := Header_Set "Authorization" ("Bearer " ++ secret c) req in
          resp <- http_Do transport req ;;
          match resp with
          | Err err => ret (resp_body, Some err)
          | Ok resp =>
              out <- match resp_Body resp with
                     | Err err => ret (resp_body, Some err)
                     | Ok resBody =>
                         if negb (StatusCode resp =? StatusOK)%Z then
                           ret (resp_body, Some (errorString resBody))
                         else
                           match resp_body with
                           | Some target =>
                               emit (Unmarshalled resBody) ;;;
                               let '(v, err) := json_Unmarshal resBody target in
                               ret (Some v, err)
                           | None => ret (None, None)
                           end
                     end ;;
              emit Closed ;;;
              ret out
          end
      end
  end.

(** What a variable holds after its address was passed to [request]. *)
Definition pointee {A} (after : option A) (before : A) : A :=
  match after with
  | Some v => v
  | None => before
  end.

(** The five operations.  Each returns what the Go method returns: a
    pointer ([None] for nil) and an error ([None] for nil).  An [int32]
    amount is a [Z] in the range [is_int32]. *)
Definition ValidateCredentials (c : Client) (ctx : Context) : IO (option error) :=
  let url := "https://api.paystack.co/customer" in
  out <- request (Req := Empty_set) (Resp := Empty_set) c ctx url "GET" None None ;;
  ret (snd out).

Definition CreateCustomer (c : Client) (ctx : Context) (email : string)
  : IO (option Customer * option error) :=
  let url := "https://api.paystack.co/customer" in
  let reqBody := Build_Customer zero email zero in
  let respBody := Build_CreateCustomerResp None in
  out <- request c ctx url "POST" (Some reqBody) (Some respBody) ;;
  match snd out with
  | Some err => ret (None, Some err)
  | None => ret (CreateCustomerResp_Data (pointee (fst out) respBody), None)
  end.

Definition InitializeTransaction (c : Client) (ctx : Context)
    (email : string) (amount : Z)
  : IO (option InitializedTransaction * option error) :=
  let url := "https://api.paystack.co/transaction/initialize" in
  let reqBody := Build_InitTransactionReq email (format_int amount) in
  let respBody := Build_InitTransactionResp None in
  out <- request c ctx url "POST" (Some reqBody) (Some respBody) ;;
  match snd out with
  | Some err => ret (None, Some err)
  | None => ret (InitTransactionResp_Data (pointee (fst out) respBody), None)
  end.

Definition ChargeAuthorization (c : Client) (ctx : Context)
    (email : string) (amount : Z) (authCode : string)
  : IO (option InitializedTransaction * option error) :=
  let url := "https://api.paystack.co/transaction/charge_authorization" in
  let reqBody := Build_ChargeTransactionReq email (format_int amount) authCode in
  let respBody := Build_ChargeTransactionResp None in
  out <- request c ctx url "POST" (Some reqBody) (Some respBody) ;;
  match snd out with
  | Some err => ret (None, Some err)
  | None => ret (ChargeTransactionResp_Data (pointee (fst out) respBody), None)
  end.

Definition VerifyTransaction (c : Client) (ctx : Context) (ref : string)
  : IO (option VerifiedTransaction * option error) :=
  let url := "https://api.paystack.co/transaction/verify/" ++ ref in
  let resp := Build_VerifiedTransactionResp None in
  out <- request (Req := Empty_set) c ctx url "GET" None (Some resp) ;;
  match snd out with
  | Some err => ret (None, Some err)
  | None => ret (VerifiedTransactionResp_Data (pointee (fst out) resp), None)
  end.

End Operations.

(** ** The five operations as one family *)

Inductive Operation : Type :=
  | OpValidateCredentials
  | OpCreateCustomer (email : string)
  | OpInitializeTransaction (email : string) (amount : Z)
  | OpChargeAuthorization (email : string) (amount : Z) (authCode : string)
  | OpVerifyTransaction (ref : string).

(** The type an operation returns a pointer to; [ValidateCredentials]
    returns an error only. *)
Definition data_type (op : Operation) : Type :=
  match op with
  | OpValidateCredentials => Empty_set
  | OpCreateCustomer _ => Customer
  | OpInitializeTransaction _ _ => InitializedTransaction
  | OpChargeAuthorization _ _ _ => InitializedTransaction
  | OpVerifyTransaction _ => VerifiedTransaction
  end.

Definition returns_data (op : Operation) : bool :=
  match op with
  | OpValidateCredentials => false
  | _ => true
  end.

Definition op_url (op : Operation) : string :=
  match op with
  | OpValidateCredentials => "https://api.paystack.co/customer"
  | OpCreateCustomer _ => "https://api.paystack.co/customer"
  | OpInitializeTransaction _ _ => "https://api.paystack.co/transaction/initialize"
  | OpChargeAuthorization _ _ _ =>
      "https://api.paystack.co/transaction/charge_authorization"
  | OpVerifyTransaction ref => "https://api.paystack.co/transaction/verify/" ++ ref
  end.

(** A call of the operation: the pointer and the error it returns. *)
Definition run (transport : Transport) (c : Client) (ctx : Context)
    (op : Operation) : IO (option (data_type op) * option error) :=
  match op return IO (option (data_type op) * option error) with
  | OpValidateCredentials =>
      err <- ValidateCredentials transport c ctx ;; ret (None, err)
  | OpCreateCustomer email => CreateCustomer transport c ctx email
  | OpInitializeTransaction email amount =>
      InitializeTransaction transport c ctx email amount
  | OpChargeAuthorization email amount authCode =>
      ChargeAuthorization transport c ctx email amount authCode
  | OpVerifyTransaction ref => VerifyTransaction transport c ctx ref
  end.

(** Calls made one after the other on the same client. *)
Fixpoint run_all (transport : Transport) (c : Client)
    (calls : list (Context * Operation)) : IO unit :=
  match calls with
  | [] => ret tt
  | (ctx, op) :: tl => run transport c ctx op ;;; run_all transport c tl
  end.

(** The requests in a log. *)
Fixpoint sent_requests (log : list Event) : list Request :=
  match log with
  | [] => []
  | Sent req :: tl => req :: sent_requests tl
  | _ :: tl => sent_requests tl
  end.

(** The names of the members of the object a text holds, if it holds one. *)
Definition body_fields (body : string) : option (list string) :=
  match json_parse body with
  | Some (JObject members) => Some (map fst members)
  | _ => None
  end.

(** A transport that gives every request the same answer. *)
Definition stub (status : Z) (body : string) : Transport :=
  fun _ _ => Ok (Build_Response status (Ok body)).

(** The request an operation of client [c] makes with a non-nil context. *)
Definition authorized (c : Client) (name method : string) (url : URL)
    (body : string) : Request :=
  Build_Request (LiveContext name) method url
    {[ "Authorization" := ["Bearer " ++ secret c] ]} body.

(** A key that selects the one field of a response envelope, whether the
    field is named [data] or [Data]. *)
Definition selects_data (key : string) : bool := String.eqb (foldName key) "DATA".

(** A response document with no data: [null], or an object whose members
    named data (in any case) are all [null]. *)
Definition without_data (j : json) : Prop :=
  match j with
  | JNull => True
  | JObject members =>
      Forall (fun kv => selects_data (fst kv) = true -> snd kv = JNull) members
  | _ => False
  end.

(** An envelope around [data]: an object with one member named [data] and
    any other members of other names. *)
Definition envelope (data : json) (j : json) : Prop :=
  exists front back,
    j = JObject (front ++ ("data", data) :: back)
    /\ Forall (fun kv => selects_data (fst kv) = false) (front ++ back).

Definition op_method (op : Operation) : string :=
  match op with
  | OpValidateCredentials => "GET"
  | OpVerifyTransaction _ => "GET"
  | _ => "POST"
  end.

(** The document an operation encodes as its request body, if it has one. *)
Definition op_payload (op : Operation) : option json :=
  match op with
  | OpValidateCredentials => None
  | OpCreateCustomer email =>
      Some (JObject [("id", JNumber "0"); ("email", JString email);
                     ("customer_code", JString EmptyString)])
  | OpInitializeTransaction email amount =>
      Some (JObject [("email", JString email);
                     ("amount", JString (format_int amount))])
  | OpChargeAuthorization email amount authCode =>
      Some (JObject [("email", JString email);
                     ("amount", JString (format_int amount));
                     ("authorization_code", JString authCode)])
  | OpVerifyTransaction _ => None
  end.

Definition op_body (op : Operation) : string :=
  match op_payload op with
  | Some j => json_encode j
  | None => EmptyString
  end.

(** What an operation returns once [json.Unmarshal] has filled its
    response variable. *)
Definition returned {R D} (data : R -> option D) (out : R * option error)
  : option D * option error :=
  match snd out with
  | Some err => (None, Some err)
  | None => (data (fst out), None)
  end.

(** What an operation returns on a response with status 200 and body
    [resBody]. *)
Definition op_decode (op : Operation) (resBody : string)
  : option (data_type op) * option error :=
  match op return option (data_type op) * option error with
  | OpValidateCredentials => (None, None)
  | OpCreateCustomer _ =>
      returned CreateCustomerResp_Data
        (json_Unmarshal resBody (Build_CreateCustomerResp None))
  | OpInitializeTransaction _ _ =>
      returned InitTransactionResp_Data
        (json_Unmarshal resBody (Build_InitTransactionResp None))
  | OpChargeAuthorization _ _ _ =>
      returned ChargeTransactionResp_Data
        (json_Unmarshal resBody (Build_ChargeTransactionResp None))
  | OpVerifyTransaction _ =>
      returned VerifiedTransactionResp_Data
        (json_Unmarshal resBody (Build_VerifiedTransactionResp None))
  end.

(** The events of an exchange that went as far as reading the body. *)
Definition exchange_events (op : Operation) (req : Request)
    (status : Z) (resBody : string) : list Event :=
  if (status =? StatusOK)%Z && returns_data op
  then [Sent req; Unmarshalled resBody; Closed]
  else [Sent req; Closed].

(** The document [json.Marshal] writes for the data an operation returns. *)
Definition op_encode_data (op : Operation) : data_type op -> result json :=
  match op return data_type op -> result json with
  | OpValidateCredentials => fun v => match v with end
  | OpCreateCustomer _ => fun v => encode_value v
  | OpInitializeTransaction _ _ => fun v => encode_value v
  | OpChargeAuthorization _ _ _ => fun v => encode_value v
  | OpVerifyTransaction _ => fun v => encode_value v
  end.

(** The [int] fields of the data hold values of Go's [int]. *)
Definition data_in_range (op : Operation) : data_type op -> Prop :=
  match op return data_type op -> Prop with
  | OpValidateCredentials => fun _ => True
  | OpCreateCustomer _ => fun v => is_int (Customer_Id v)
  | OpInitializeTransaction _ _ => fun _ => True
  | OpChargeAuthorization _ _ _ => fun _ => True
  | OpVerifyTransaction _ => fun v => is_int (VerifiedTransaction_Id v)
  end.

(** ** Further vocabulary for the properties *)

(** What an operation keeps of a freshly decoded value: the value when no
    error was saved, else the error alone. *)
Definition kept {D} (out : D * option error) : option D * option error :=
  match snd out with
  | Some err => (None, Some err)
  | None => (Some (fst out), None)
  end.

(** What a data operation returns when the member data of the envelope is
    [data], not [null]: [data] decoded into a new value of the shape. *)
Definition op_decode_data (op : Operation) (data : json)
  : option (data_type op) * option error :=
  match op return option (data_type op) * option error with
  | OpValidateCredentials => (None, None)
  | OpCreateCustomer _ => kept (decode_into data (zero : Customer))
  | OpInitializeTransaction _ _ =>
      kept (decode_into data (zero : InitializedTransaction))
  | OpChargeAuthorization _ _ _ =>
      kept (decode_into data (zero : InitializedTransaction))
  | OpVerifyTransaction _ => kept (decode_into data (zero : VerifiedTransaction))
  end.

(** The name of the shape an operation decodes the member data into, and
    of the response type it decodes the whole body into. *)
Definition data_type_name (op : Operation) : string :=
  match op with
  | OpValidateCredentials => EmptyString
  | OpCreateCustomer _ => "Customer"
  | OpInitializeTransaction _ _ => "InitializedTransaction"
  | OpChargeAuthorization _ _ _ => "InitializedTransaction"
  | OpVerifyTransaction _ => "VerifiedTransaction"
  end.

Definition resp_type_name (op : Operation) : string :=
  match op with
  | OpValidateCredentials => EmptyString
  | OpCreateCustomer _ => "CreateCustomerResp"
  | OpInitializeTransaction _ _ => "InitTransactionResp"
  | OpChargeAuthorization _ _ _ => "ChargeTransactionResp"
  | OpVerifyTransaction _ => "VerifiedTransactionResp"
  end.

(** A JSON value that is neither [null] nor an object. *)
Definition not_a_struct (j : json) : bool :=
  match j with
  | JNull => false
  | JObject _ => false
  | _ => true
  end.

(** Whether a key selects a field of a struct. *)
Definition knows {T} (fields : list (field T)) (key : string) : bool :=
  match find_field fields key with
  | Some _ => true
  | None => false
  end.

(** Whether a key selects a field of the shape an operation returns. *)
Definition op_knows (op : Operation) (key : string) : bool :=
  match op with
  | OpValidateCredentials => false
  | OpCreateCustomer _ => knows fields_Customer key
  | OpInitializeTransaction _ _ => knows fields_InitializedTransaction key
  | OpChargeAuthorization _ _ _ => knows fields_InitializedTransaction key
  | OpVerifyTransaction _ => knows fields_VerifiedTransaction key
  end.

(** The responses closed in a log. *)
Fixpoint closed_count (log : list Event) : nat :=
  match log with
  | [] => O
  | Closed :: tl => S (closed_count tl)
  | _ :: tl => closed_count tl
  end.

(** A byte that is neither a control byte nor a percent sign. *)
Definition plain_url_byte (c : ascii) : bool :=
  negb (isCTL c) && negb (Ascii.eqb c "%"%char).

(** The parts a reference falls into at the end of a URL: what is taken
    for the fragment, after its first hash sign; what is taken for the
    query, after the first question mark before that; and what goes on in
    the path. *)
Definition ref_fragment (ref : string) : string :=
  snd (fst (strings_Cut ref "#"%char)).

Definition ref_query (ref : string) : string :=
  snd (fst (strings_Cut (fst (fst (strings_Cut ref "#"%char))) "?"%char)).

Definition ref_path (ref : string) : string :=
  fst (fst (strings_Cut (fst (fst (strings_Cut ref "#"%char))) "?"%char)).

(** An envelope whose member data may be named in any case of the letters:
    an object with one member that selects the field, and any other
    members that do not. *)
Definition envelope_named (key : string) (data : json) (j : json) : Prop :=
  selects_data key = true
  /\ exists front back,
       j = JObject (front ++ (key, data) :: back)
       /\ Forall (fun kv => selects_data (fst kv) = false) (front ++ back).

(** The members of an object as the encoder writes them, between the
    braces. *)
Fixpoint encode_members (members : list (string * json)) : string :=
  match members with
  | [] => EmptyString
  | [(k, x)] => appendString k ++ ":" ++ json_encode x
  | (k, x) :: tl => appendString k ++ ":" ++ json_encode x ++ "," ++ encode_members tl
  end.

(** A number literal that is the decimal form of an integer. *)
Definition plain_number (lit : string) : bool :=
  match NilZero.int_of_string lit with
  | Some d => String.eqb (format_int (Z.of_int d)) lit
  | None => false
  end.

(** A document the encoder writes without any escape: no arrays, every
    string and key made of bytes of [htmlSafeSet], every number the
    decimal form of an integer. *)
Fixpoint plain_json (j : json) : bool :=
  match j with
  | JNull => true
  | JBool _ => true
  | JNumber lit => plain_number lit
  | JString s => string_forallb htmlSafe s
  | JArray _ => false
  | JObject members =>
      (fix all (l : list (string * json)) : bool :=
         match l with
         | [] => true
         | (k, x) :: tl => string_forallb htmlSafe k && plain_json x && all tl
         end) members
  end.

(** How deep the objects and arrays of a document are nested. *)
Fixpoint json_height (j : json) : N :=
  match j with
  | JArray elems =>
      1 + (fix most (l : list json) : N :=
             match l with
             | [] => 0
             | x :: tl => N.max (json_height x) (most tl)
             end) elems
  | JObject members =>
      1 + (fix most (l : list (string * json)) : N :=
             match l with
             | [] => 0
             | (_, x) :: tl => N.max (json_height x) (most tl)
             end) members
  | _ => 0
  end%N.

(** What may follow a value in a text: nothing, a comma, or a closing
    brace or bracket. *)
Definition closes_value (rest : string) : bool :=
  match rest with
  | EmptyString => true
  | String c _ =>
      Ascii.eqb c ","%char || Ascii.eqb c "}"%char || Ascii.eqb c "]"%char
  end.

(** The scan of a value of the document reads back what the encoder
    wrote, with any fuel from some bound on. *)
Definition reads_back (j : json) : Prop :=
  plain_json j = true ->
  forall d rest,
    (d + json_height j <= maxNestingDepth)%N ->
    closes_value rest = true ->
    exists bound, forall fuel,
      (bound <= fuel)%nat ->
      parse_value fuel d (json_encode j ++ rest) = Scanned j rest.

(** Whether the strings an operation puts in its request body are made of
    bytes the encoder writes as they are. *)
Definition op_inputs_safe (op : Operation) : bool :=
  match op with
  | OpValidateCredentials => true
  | OpCreateCustomer email => string_forallb htmlSafe email
  | OpInitializeTransaction email _ => string_forallb htmlSafe email
  | OpChargeAuthorization email _ authCode =>
      string_forallb htmlSafe email && string_forallb htmlSafe authCode
  | OpVerifyTransaction _ => true
  end.

(** * Properties *)

(** ** The loop bounds of the scanner are enough *)

Ltac break_goal_match :=
  match goal with
  | |- context [match ?x with _ => _ end] => destruct x eqn:?
  end.

Ltac break_hyp_match :=
  match goal with
  | H : context [match ?x with _ => _ end] |- _ => destruct x eqn:?
  end.


Lemma scan_map_Scanned {A B} (f : A -> B) x v r :
  scan_map f x = Scanned v r -> exists a, x = Scanned a r /\ v = f a.
Proof.
  destruct x as [a rest| |]; cbn; try discriminate.
  intros [= <- <-]. eauto.
Qed.

Lemma scan_bind_Scanned {A B} x (f : A -> string -> scan B) v r :
  scan_bind x f = Scanned v r ->
  exists a r0, x = Scanned a r0 /\ f a r0 = Scanned v r.
Proof. destruct x as [a rest| |]; cbn; try discriminate. eauto. Qed.

Lemma scan_map_NoFuel {A B} (f : A -> B) x :
  scan_map f x = NoFuel -> x = NoFuel.
Proof. destruct x; cbn; congruence. Qed.

Lemma string_drop_length n : forall s,
  (String.length (string_drop n s) <= String.length s)%nat.
Proof.
  induction n as [|n IH]; intros [|c s]; cbn; try lia.
  specialize (IH s). lia.
Qed.

Lemma skip_space_length s :
  (String.length (skip_space s) <= String.length s)%nat.
Proof.
  induction s as [|c s IH]; cbn; [lia|]. destruct (isSpace c); cbn; lia.
Qed.

Lemma take_digits_length s :
  (String.length (snd (take_digits s)) <= String.length s)%nat.
Proof.
  induction s as [|c s IH]; cbn; [lia|].
  destruct (is_digit c); cbn; [|lia].
  destruct (take_digits s); cbn in *. lia.
Qed.

Ltac note_digits :=
  repeat match goal with
         | Ht : take_digits ?x = _ |- _ =>
             let Hlen := fresh "Hlen" in
             pose proof (take_digits_length x) as Hlen; rewrite Ht in Hlen;
             clear Ht
         | Hp : (_, _) = (_, _) |- _ => injection Hp as ? ?; subst
         end.

Lemma DecodeRune_size c s :
  (1 <= snd (utf8_DecodeRune (String c s)))%nat.
Proof.
  unfold utf8_DecodeRune. repeat break_goal_match; cbn; lia.
Qed.

Lemma unquote_loop_length fuel : forall s v r,
  unquote_loop fuel s = Scanned v r ->
  (String.length r < String.length s)%nat.
Proof.
  induction fuel as [|fuel IH]; intros s v r; [discriminate|].
  cbn [unquote_loop]. unfold scan_prepend.
  repeat break_goal_match; try discriminate; intros Hs;
    try (injection Hs as <- <-; cbn; lia);
    apply scan_map_Scanned in Hs as [t [Ht _]]; apply IH in Ht;
    repeat match goal with
           | _ : context [string_drop ?n ?x] |- _ =>
               lazymatch goal with
               | _ : (String.length (string_drop n x) <= _)%nat |- _ => fail
               | _ => pose proof (string_drop_length n x)
               end
           end;
    cbn [String.length] in *; lia.
Qed.

Lemma unquote_loop_fuel fuel : forall s,
  (String.length s < fuel)%nat -> unquote_loop fuel s <> NoFuel.
Proof.
  induction fuel as [|fuel IH]; intros s Hfuel; [lia|].
  cbn [unquote_loop]. unfold scan_prepend.
  repeat break_goal_match; try discriminate;
    intros Hs; apply scan_map_NoFuel in Hs; revert Hs; apply IH;
    subst.
  all: repeat match goal with
           | |- context [string_drop ?n ?x] =>
               lazymatch goal with
               | _ : (String.length (string_drop n x) <= _)%nat |- _ => fail
               | _ => pose proof (string_drop_length n x)
               end
           end.
  all: cbn [String.length] in *; try lia.
  match goal with
  | Hd : utf8_DecodeRune (String ?c ?t) = (_, ?n) |- _ =>
      pose proof (DecodeRune_size c t) as Hsize; rewrite Hd in Hsize;
      cbn [snd] in Hsize; destruct n as [|n]; [lia|];
      cbn [string_drop]; pose proof (string_drop_length n t); lia
  end.
Qed.

Lemma scan_string_length s v r :
  scan_string s = Scanned v r -> (String.length r < String.length s)%nat.
Proof. apply unquote_loop_length. Qed.

Lemma scan_string_fuel s : scan_string s <> NoFuel.
Proof. apply unquote_loop_fuel. lia. Qed.

Lemma scan_exponent_length lit s v r :
  scan_exponent lit s = Scanned v r -> (String.length r <= String.length s)%nat.
Proof.
  unfold scan_exponent.
  repeat break_goal_match; try discriminate; intros [= <- <-]; subst;
    repeat break_hyp_match; note_digits;
    cbn [String.length snd] in *; lia.
Qed.

Lemma scan_fraction_length lit s v r :
  scan_fraction lit s = Scanned v r -> (String.length r <= String.length s)%nat.
Proof.
  unfold scan_fraction.
  repeat break_goal_match; try discriminate; intros Hs;
    try (injection Hs as <- <-; cbn; lia);
    apply scan_exponent_length in Hs; note_digits;
    cbn [String.length snd] in *; lia.
Qed.

Lemma scan_number_length s v r :
  scan_number s = Scanned v r -> (String.length r <= String.length s)%nat.
Proof.
  unfold scan_number.
  repeat break_goal_match; try discriminate; intros Hs;
    apply scan_fraction_length in Hs;
    repeat break_hyp_match; note_digits; try discriminate;
    cbn [String.length snd] in *; lia.
Qed.

Lemma scan_literal_length word j s v r :
  scan_literal word j s = Scanned v r -> (String.length r <= String.length s)%nat.
Proof.
  unfold scan_literal. destruct (String.eqb _ _); [|discriminate].
  intros [= <- <-]. apply string_drop_length.
Qed.

Lemma scan_fuel_free :
  (forall s, scan_number s <> NoFuel)
  /\ (forall word j s, scan_literal word j s <> NoFuel).
Proof.
  split.
  - intros s. unfold scan_number, scan_fraction, scan_exponent.
    repeat break_goal_match; discriminate.
  - intros word j s. unfold scan_literal. destruct (String.eqb _ _); discriminate.
Qed.

Lemma scan_bind_NoFuel {A B} x (f : A -> string -> scan B) :
  scan_bind x f = NoFuel ->
  x = NoFuel \/ exists a r0, x = Scanned a r0 /\ f a r0 = NoFuel.
Proof. destruct x as [a rest| |]; cbn; try discriminate; eauto. Qed.

Ltac note_skips :=
  repeat match goal with
         | Hk : skip_space ?x = _ |- _ =>
             let Hlen := fresh "Hlen" in
             pose proof (skip_space_length x) as Hlen; rewrite Hk in Hlen;
             clear Hk
         end.

Ltac invert_scan :=
  repeat first
    [ break_hyp_match
    | match goal with
      | H : scan_bind _ _ = Scanned _ _ |- _ =>
          apply scan_bind_Scanned in H as (? & ? & ? & H)
      | H : scan_map _ _ = Scanned _ _ |- _ =>
          apply scan_map_Scanned in H as (? & H & _)
      | H : Scanned _ _ = Scanned _ _ |- _ => injection H as ? ?; subst
      | H : SyntaxErr = _ |- _ => discriminate H
      | H : NoFuel = Scanned _ _ |- _ => discriminate H
      end ].

Ltac note_scans :=
  repeat match goal with
         | H : scan_string _ = Scanned _ _ |- _ => apply scan_string_length in H
         | H : scan_number _ = Scanned _ _ |- _ => apply scan_number_length in H
         | H : scan_literal _ _ _ = Scanned _ _ |- _ =>
             apply scan_literal_length in H
         end.

(** What a scan leaves is never longer than what it was given. *)
Lemma parse_length fuel :
  (forall d s v r, parse_value fuel d s = Scanned v r ->
                   (String.length r <= String.length s)%nat)
  /\ (forall d s v r, parse_elements fuel d s = Scanned v r ->
                      (String.length r <= String.length s)%nat)
  /\ (forall d s v r, parse_members fuel d s = Scanned v r ->
                      (String.length r <= String.length s)%nat).
Proof.
  induction fuel as [|fuel [IHv [IHe IHm]]];
    [repeat split; intros; discriminate|].
  repeat split; intros d s v r Hs;
    cbn [parse_value parse_elements parse_members] in Hs;
    invert_scan;
    repeat match goal with
           | H : parse_value fuel _ _ = Scanned _ _ |- _ => apply IHv in H
           | H : parse_elements fuel _ _ = Scanned _ _ |- _ => apply IHe in H
           | H : parse_members fuel _ _ = Scanned _ _ |- _ => apply IHm in H
           end;
    note_scans; note_skips; cbn [String.length] in *; lia.
Qed.

Ltac invert_fuel :=
  repeat first
    [ break_hyp_match
    | match goal with
      | H : scan_bind _ _ = NoFuel |- _ =>
          apply scan_bind_NoFuel in H as [H | (? & ? & ? & H)]
      | H : scan_map _ _ = NoFuel |- _ => apply scan_map_NoFuel in H
      | H : Scanned _ _ = NoFuel |- _ => discriminate H
      | H : SyntaxErr = NoFuel |- _ => discriminate H
      end ].

(** The bounds are enough: no scan of a value stops for lack of fuel. *)
Lemma parse_fuel_enough fuel :
  (forall d s, (2 * String.length s < fuel)%nat -> parse_value fuel d s <> NoFuel)
  /\ (forall d s, (2 * String.length s + 1 < fuel)%nat ->
                  parse_elements fuel d s <> NoFuel)
  /\ (forall d s, (2 * String.length s + 1 < fuel)%nat ->
                  parse_members fuel d s <> NoFuel).
Proof.
  induction fuel as [|fuel [IHv [IHe IHm]]]; [repeat split; intros; lia|].
  pose proof (parse_length fuel) as [Lv [Le Lm]].
  repeat split; intros d s Hfuel Hs;
    cbn [parse_value parse_elements parse_members] in Hs;
    invert_fuel;
    repeat match goal with
           | H : parse_value fuel _ _ = Scanned _ _ |- _ => apply Lv in H
           | H : scan_string _ = NoFuel |- _ => now apply scan_string_fuel in H
           | H : scan_number _ = NoFuel |- _ =>
               now apply (proj1 scan_fuel_free) in H
           | H : scan_literal _ _ _ = NoFuel |- _ =>
               now apply (proj2 scan_fuel_free) in H
           end;
    note_scans; note_skips;
    match goal with
    | H : parse_value fuel _ _ = NoFuel |- _ => revert H; apply IHv
    | H : parse_elements fuel _ _ = NoFuel |- _ => revert H; apply IHe
    | H : parse_members fuel _ _ = NoFuel |- _ => revert H; apply IHm
    end;
    cbn [String.length] in *; lia.
Qed.

(** [json_parse] answers on every input: it never stops for lack of fuel,
    so [None] always stands for a syntax error. *)
Lemma json_parse_decides data :
  parse_value (parse_fuel data) 0 data <> NoFuel.
Proof. apply parse_fuel_enough. unfold parse_fuel. lia. Qed.

(** The encoder's loop and the folding loop run on the length of their
    input: any bound at least that long gives the same result. *)
Lemma appendString_loop_bound f1 : forall f2 s,
  (String.length s <= f1)%nat -> (String.length s <= f2)%nat ->
  appendString_loop f1 s = appendString_loop f2 s.
Proof.
  induction f1 as [|f1 IH]; intros f2 s H1 H2.
  - destruct s; [|cbn in H1; lia]. destruct f2; reflexivity.
  - destruct s as [|b rest]; [destruct f2; reflexivity|].
    destruct f2 as [|f2]; [cbn in H2; lia|].
    cbn [String.length] in H1, H2. cbn [appendString_loop].
    pose proof (DecodeRune_size b (string_take 3 rest)) as Hsize.
    change (string_take 4 (String b rest)) with (String b (string_take 3 rest)).
    destruct (utf8_DecodeRune (String b (string_take 3 rest))) as [r [|size]];
      [cbn in Hsize; lia|].
    cbn [string_drop]. pose proof (string_drop_length size rest).
    rewrite (IH f2 rest) by lia.
    rewrite (IH f2 (string_drop size rest)) by lia. reflexivity.
Qed.

Lemma foldName_loop_bound f1 : forall f2 s,
  (String.length s <= f1)%nat -> (String.length s <= f2)%nat ->
  foldName_loop f1 s = foldName_loop f2 s.
Proof.
  induction f1 as [|f1 IH]; intros f2 s H1 H2.
  - destruct s; [|cbn in H1; lia]. destruct f2; reflexivity.
  - destruct s as [|b rest]; [destruct f2; reflexivity|].
    destruct f2 as [|f2]; [cbn in H2; lia|].
    cbn [String.length] in H1, H2. cbn [foldName_loop].
    pose proof (DecodeRune_size b rest) as Hsize.
    destruct (utf8_DecodeRune (String b rest)) as [r [|size]];
      [cbn in Hsize; lia|].
    cbn [string_drop]. pose proof (string_drop_length size rest).
    rewrite (IH f2 rest) by lia.
    rewrite (IH f2 (string_drop size rest)) by lia. reflexivity.
Qed.

(** ** URLs *)

Lemma forallb_append p s t :
  string_forallb p (s ++ t) = string_forallb p s && string_forallb p t.
Proof.
  induction s as [|c s IH]; [reflexivity|].
  change (String c s ++ t) with (String c (s ++ t)).
  cbn [string_forallb]. rewrite IH, andb_assoc. reflexivity.
Qed.

Lemma forallb_drop p n : forall s,
  string_forallb p s = true -> string_forallb p (string_drop n s) = true.
Proof.
  induction n as [|n IH]; intros [|c s] Hs; try exact Hs; try reflexivity.
  cbn [string_forallb] in Hs. apply andb_true_iff in Hs as [_ Hs].
  cbn [string_drop]. apply IH, Hs.
Qed.

Lemma forallb_take p n : forall s,
  string_forallb p s = true -> string_forallb p (string_take n s) = true.
Proof.
  induction n as [|n IH]; intros [|c s] Hs; try reflexivity.
  cbn [string_forallb] in Hs. apply andb_true_iff in Hs as [Hc Hs].
  cbn [string_take string_forallb]. rewrite Hc. apply IH, Hs.
Qed.

Lemma forallb_Cut p s sep :
  string_forallb p s = true ->
  string_forallb p (fst (fst (strings_Cut s sep))) = true
  /\ string_forallb p (snd (fst (strings_Cut s sep))) = true.
Proof.
  intros Hs. unfold strings_Cut. destruct (string_index sep s) as [i|]; cbn [fst snd].
  - split; [apply forallb_take | apply forallb_drop]; exact Hs.
  - split; [exact Hs | reflexivity].
Qed.

Lemma append_nil_r (s : string) : s ++ EmptyString = s.
Proof.
  induction s as [|c s IH]; [reflexivity|].
  change (String c (s ++ EmptyString) = String c s). rewrite IH. reflexivity.
Qed.


(** A byte that a string has none of is not found in it. *)
Lemma string_index_absent p sep s :
  p sep = false -> string_forallb p s = true -> string_index sep s = None.
Proof.
  intros Hsep. induction s as [|c s IH]; [reflexivity|].
  cbn [string_forallb string_index]. intros Hs.
  apply andb_true_iff in Hs as [Hc Hs].
  destruct (Ascii.eqb sep c) eqn:Heq.
  - apply Ascii.eqb_eq in Heq. subst c. congruence.
  - rewrite (IH Hs). reflexivity.
Qed.


Lemma string_index_append sep s t :
  string_index sep (s ++ t)
  = match string_index sep s with
    | Some i => Some i
    | None => option_map (Nat.add (String.length s)) (string_index sep t)
    end.
Proof.
  induction s as [|c s IH].
  - change (EmptyString ++ t) with t. cbn. destruct (string_index sep t); reflexivity.
  - change (String c s ++ t) with (String c (s ++ t)).
    cbn [string_index String.length]. destruct (Ascii.eqb sep c); [reflexivity|].
    rewrite IH. destruct (string_index sep s); [reflexivity|].
    destruct (string_index sep t); reflexivity.
Qed.

Lemma string_index_bound sep s : forall i,
  string_index sep s = Some i -> (i < String.length s)%nat.
Proof.
  induction s as [|c s IH]; intros i; [discriminate|].
  cbn [string_index String.length]. destruct (Ascii.eqb sep c).
  - intros [= <-]. lia.
  - destruct (string_index sep s) as [j|]; [|discriminate].
    intros [= <-]. specialize (IH j eq_refl). lia.
Qed.

Lemma string_take_append s t n :
  string_take (String.length s + n) (s ++ t) = s ++ string_take n t.
Proof.
  induction s as [|c s IH]; [reflexivity|].
  change (String c s ++ t) with (String c (s ++ t)).
  cbn [String.length Nat.add string_take]. rewrite IH. reflexivity.
Qed.

Lemma string_drop_append s t n :
  string_drop (String.length s + n) (s ++ t) = string_drop n t.
Proof.
  induction s as [|c s IH]; [reflexivity|].
  change (String c s ++ t) with (String c (s ++ t)).
  cbn [String.length Nat.add string_drop]. exact IH.
Qed.

Lemma string_take_within t : forall n s,
  (n <= String.length s)%nat -> string_take n (s ++ t) = string_take n s.
Proof.
  induction n as [|n IH]; intros s Hn.
  - reflexivity.
  - destruct s as [|c s]; [cbn in Hn; lia|].
    change (String c s ++ t) with (String c (s ++ t)).
    cbn [string_take]. rewrite IH; [reflexivity|]. cbn in Hn. lia.
Qed.

Lemma string_drop_within t : forall n s,
  (n <= String.length s)%nat -> string_drop n (s ++ t) = string_drop n s ++ t.
Proof.
  induction n as [|n IH]; intros s Hn; [reflexivity|].
  destruct s as [|c s]; [cbn in Hn; lia|].
  change (String c s ++ t) with (String c (s ++ t)).
  cbn [string_drop]. apply IH. cbn in Hn. lia.
Qed.

(** A cut at a byte that a prefix has none of is a cut of what follows
    the prefix; a cut at a byte of the prefix is a cut of the prefix. *)
Lemma strings_Cut_past sep s t :
  string_index sep s = None ->
  strings_Cut (s ++ t) sep
  = (s ++ fst (fst (strings_Cut t sep)), snd (fst (strings_Cut t sep)),
     snd (strings_Cut t sep)).
Proof.
  intros Hs. unfold strings_Cut. rewrite string_index_append, Hs.
  destruct (string_index sep t) as [i|]; cbn [option_map fst snd]; [|reflexivity].
  rewrite string_take_append.
  replace (S (String.length s + i)) with (String.length s + S i)%nat by lia.
  rewrite string_drop_append. reflexivity.
Qed.

Lemma strings_Cut_within sep s t i :
  string_index sep s = Some i ->
  strings_Cut (s ++ t) sep = (string_take i s, string_drop (S i) s ++ t, true).
Proof.
  intros Hs. unfold strings_Cut. rewrite string_index_append, Hs.
  pose proof (string_index_bound sep s i Hs).
  rewrite string_take_within, string_drop_within by lia. reflexivity.
Qed.

Lemma eqb_append_prefix s a b : String.eqb (s ++ a) (s ++ b) = String.eqb a b.
Proof.
  induction s as [|c s IH]; [reflexivity|].
  change (String c s ++ ?x) with (String c (s ++ x)).
  cbn [String.eqb]. rewrite Ascii.eqb_refl. exact IH.
Qed.

Lemma escape_append mode s t :
  escape (s ++ t) mode = escape s mode ++ escape t mode.
Proof.
  induction s as [|c s IH]; [reflexivity|].
  change (String c s ++ t) with (String c (s ++ t)).
  cbn [escape]. rewrite IH. destruct (shouldEscape c mode); reflexivity.
Qed.


(** Decoding goes through a prefix without percent signs, and leaves a
    text without percent signs as it is. *)
Lemma unescape_append s t :
  string_index "%"%char s = None ->
  unescape (s ++ t)
  = match unescape t with
    | Ok t' => Ok (s ++ t')
    | Err e => Err e
    end.
Proof.
  induction s as [|c s IH]; intros Hs.
  - change (EmptyString ++ t) with t. destruct (unescape t); reflexivity.
  - change (String c s ++ t) with (String c (s ++ t)).
    cbn [string_index] in Hs. cbn [unescape].
    rewrite Ascii.eqb_sym. destruct (Ascii.eqb "%"%char c); [discriminate|].
    rewrite IH by (destruct (string_index "%"%char s); [discriminate|reflexivity]).
    destruct (unescape t); reflexivity.
Qed.

Lemma unescape_nothing s : string_index "%"%char s = None -> unescape s = Ok s.
Proof.
  intros Hs. pose proof (unescape_append s EmptyString Hs) as Happ.
  rewrite append_nil_r in Happ. cbn [unescape] in Happ.
  rewrite append_nil_r in Happ. exact Happ.
Qed.

Lemma CTL_append s t :
  stringContainsCTLByte (s ++ t)
  = stringContainsCTLByte s || stringContainsCTLByte t.
Proof.
  unfold stringContainsCTLByte. rewrite forallb_append. apply negb_andb.
Qed.

(** What [url.Parse] makes of the URL of [VerifyTransaction]: scheme and
    host are those of the API whatever the reference holds; the reference
    is cut at its first hash sign and before that at its first question
    mark, and what is left of it goes on in the path. *)
Lemma verify_url_Parse ref :
  url_Parse ("https://api.paystack.co/transaction/verify/" ++ ref)
  = let '(before, frag, _) := strings_Cut ref "#"%char in
    if stringContainsCTLByte before then
      Err (UrlError "parse" ("https://api.paystack.co/transaction/verify/" ++ before)
             (errorString "net/url: invalid control character in URL"))
    else
      let '(p, query, found) := strings_Cut before "?"%char in
      match unescape p with
      | Err e =>
          Err (UrlError "parse"
                 ("https://api.paystack.co/transaction/verify/" ++ before) e)
      | Ok path =>
          let url :=
            Build_URL "https" "api.paystack.co" ("/transaction/verify/" ++ path)
              (raw_hint ("/transaction/verify/" ++ p) ("/transaction/verify/" ++ path)
                 encodePath)
              (found && String.eqb query EmptyString) query
              EmptyString EmptyString in
          if String.eqb frag EmptyString then Ok url
          else
            match setFragment frag url with
            | Err e =>
                Err (UrlError "parse"
                       ("https://api.paystack.co/transaction/verify/" ++ ref) e)
            | Ok url => Ok url
            end
      end.
Proof.
  unfold url_Parse.
  rewrite (strings_Cut_past "#"%char "https://api.paystack.co/transaction/verify/" ref)
    by reflexivity.
  destruct (strings_Cut ref "#"%char) as [[before frag] cut]. cbn [fst snd].
  unfold url_parse. rewrite CTL_append.
  change (stringContainsCTLByte "https://api.paystack.co/transaction/verify/")
    with false.
  cbn [orb]. destruct (stringContainsCTLByte before); [reflexivity|].
  rewrite (strings_Cut_within ":"%char "https://api.paystack.co/transaction/verify/"
             before 5 eq_refl).
  change (string_take 5 "https://api.paystack.co/transaction/verify/") with "https".
  change (string_drop 6 "https://api.paystack.co/transaction/verify/")
    with "//api.paystack.co/transaction/verify/".
  rewrite (strings_Cut_past "?"%char "//api.paystack.co/transaction/verify/" before)
    by reflexivity.
  destruct (strings_Cut before "?"%char) as [[p query] found]. cbn [fst snd].
  rewrite (string_drop_within p 2 "//api.paystack.co/transaction/verify/")
    by (cbn; lia).
  change (string_drop 2 "//api.paystack.co/transaction/verify/")
    with "api.paystack.co/transaction/verify/".
  rewrite (string_index_append "/"%char "api.paystack.co/transaction/verify/" p).
  change (string_index "/"%char "api.paystack.co/transaction/verify/")
    with (Some 15%nat).
  cbv iota.
  rewrite (string_take_within p 15 "api.paystack.co/transaction/verify/")
    by (cbn; lia).
  rewrite (string_drop_within p 15 "api.paystack.co/transaction/verify/")
    by (cbn; lia).
  change (string_take 15 "api.paystack.co/transaction/verify/")
    with "api.paystack.co".
  change (string_drop 15 "api.paystack.co/transaction/verify/")
    with "/transaction/verify/".
  rewrite (unescape_append "/transaction/verify/" p) by reflexivity.
  destruct (unescape p) as [path|e]; reflexivity.
Qed.

(** ** The dispatcher, path by path *)

Lemma Header_Set_new name method url body key value :
  Header_Set key value (Build_Request (LiveContext name) method url ∅ body)
  = Build_Request (LiveContext name) method url {[ key := [value] ]} body.
Proof. reflexivity. Qed.

(** Once the body is encoded and the request is made, [request] hands the
    request with its header to the transport, and what follows depends on
    the answer only. *)
Lemma request_exchange {Req Resp : Type} `{Marshaler Req} `{Unmarshaler Resp}
    transport c ctx url method (req_body : option Req) (resp_body : option Resp)
    body req0 log :
  match req_body with Some v => json_Marshal v | None => Ok EmptyString end = Ok body ->
  http_NewRequestWithContext ctx method url body = Ok req0 ->
  request transport c ctx url method req_body resp_body log =
  let req := Header_Set "Authorization" ("Bearer " ++ secret c) req0 in
  match transport log req with
  | Err err => ((resp_body, Some err), (log ++ [Sent req])%list)
  | Ok resp =>
      match resp_Body resp with
      | Err err => ((resp_body, Some err), (log ++ [Sent req; Closed])%list)
      | Ok resBody =>
          if (StatusCode resp =? StatusOK)%Z then
            match resp_body with
            | Some target =>
                ((Some (fst (json_Unmarshal resBody target)),
                  snd (json_Unmarshal resBody target)),
                 (log ++ [Sent req; Unmarshalled resBody; Closed])%list)
            | None => ((None, None), (log ++ [Sent req; Closed])%list)
            end
          else
            ((resp_body, Some (errorString resBody)),
             (log ++ [Sent req; Closed])%list)
      end
  end.
Proof.
  intros Hbody Hreq. unfold request. rewrite Hbody, Hreq.
  unfold bind, http_Do, emit, ret. cbv zeta.
  destruct (transport log _) as [resp|err]; [|reflexivity].
  destruct (resp_Body resp) as [resBody|err].
  - destruct (StatusCode resp =? StatusOK)%Z; cbn [negb].
    + destruct resp_body as [target|].
      * destruct (json_Unmarshal resBody target) as [v e]. cbn.
        rewrite <- !app_assoc. reflexivity.
      * rewrite <- app_assoc. reflexivity.
    + rewrite <- app_assoc. reflexivity.
  - rewrite <- app_assoc. reflexivity.
Qed.

(** When the request cannot be made, nothing is sent. *)
Lemma request_not_made {Req Resp : Type} `{Marshaler Req} `{Unmarshaler Resp}
    transport c ctx url method (req_body : option Req) (resp_body : option Resp)
    body err log :
  match req_body with Some v => json_Marshal v | None => Ok EmptyString end = Ok body ->
  http_NewRequestWithContext ctx method url body = Err err ->
  request transport c ctx url method req_body resp_body log
  = ((resp_body, Some err), log).
Proof. intros Hbody Hreq. unfold request. rewrite Hbody, Hreq. reflexivity. Qed.

(** ** The operations, path by path *)

Lemma api_url_parses :
  url_Parse "https://api.paystack.co/customer" = Ok (api_URL "/customer")
  /\ url_Parse "https://api.paystack.co/transaction/initialize"
     = Ok (api_URL "/transaction/initialize")
  /\ url_Parse "https://api.paystack.co/transaction/charge_authorization"
     = Ok (api_URL "/transaction/charge_authorization").
Proof. repeat split; vm_compute; reflexivity. Qed.

Lemma op_method_valid op : validMethod (op_method op) = true.
Proof. destruct op; reflexivity. Qed.

(** Whatever the reference holds, the URL of an operation is one of the
    API: its scheme is https, its host api.paystack.co, and its path starts
    at the root. *)
Lemma op_URL_host op u :
  url_Parse (op_url op) = Ok u ->
  URL_Scheme u = "https" /\ URL_Host u = "api.paystack.co"
  /\ String.prefix "/" (URL_Path u) = true.
Proof.
  destruct api_url_parses as [Hcustomer [Hinit Hcharge]].
  destruct op; cbn [op_url];
    try (rewrite ?Hcustomer, ?Hinit, ?Hcharge; intros [= <-];
         repeat split; reflexivity).
  rewrite verify_url_Parse.
  destruct (strings_Cut ref "#"%char) as [[before frag] cut].
  destruct (stringContainsCTLByte before); [discriminate|].
  destruct (strings_Cut before "?"%char) as [[p query] found].
  destruct (unescape p) as [path|e]; [|discriminate]. cbv zeta.
  destruct (String.eqb frag EmptyString); [intros [= <-]; repeat split; reflexivity|].
  unfold setFragment. destruct (unescape frag); [|discriminate].
  intros [= <-]. repeat split; reflexivity.
Qed.

(** With a non-nil context, the request of an operation holds the URL
    that [url.Parse] returned, as it is: the host has no port to remove. *)
Lemma NewRequest_live name op u body :
  url_Parse (op_url op) = Ok u ->
  http_NewRequestWithContext (LiveContext name) (op_method op) (op_url op) body
  = Ok (Build_Request (LiveContext name) (op_method op) u ∅ body).
Proof.
  intros Hurl. unfold http_NewRequestWithContext.
  replace (String.eqb (op_method op) EmptyString) with false
    by (destruct op; reflexivity).
  cbv zeta. rewrite op_method_valid. cbn [negb]. rewrite Hurl.
  destruct (op_URL_host op u Hurl) as [_ [Hhost _]]. rewrite Hhost.
  change (removeEmptyPort "api.paystack.co") with "api.paystack.co".
  rewrite <- Hhost. destruct u; reflexivity.
Qed.



Ltac open_operation :=
  unfold run, ValidateCredentials, CreateCustomer, InitializeTransaction,
    ChargeAuthorization, VerifyTransaction, bind, ret; cbv zeta.

(** Every operation called with a non-nil context and a URL that parses
    hands one request to the transport, and returns according to the
    answer. *)
Lemma run_exchange transport c name op log u :
  url_Parse (op_url op) = Ok u ->
  let req := authorized c name (op_method op) u (op_body op) in
  run transport c (LiveContext name) op log =
  match transport log req with
  | Err err => ((None, Some err), (log ++ [Sent req])%list)
  | Ok resp =>
      match resp_Body resp with
      | Err err => ((None, Some err), (log ++ [Sent req; Closed])%list)
      | Ok resBody =>
          (if (StatusCode resp =? StatusOK)%Z then op_decode op resBody
           else (None, Some (errorString resBody)),
           (log ++ exchange_events op req (StatusCode resp) resBody)%list)
      end
  end.
Proof.
  intros Hurl req. subst req. unfold authorized, exchange_events.
  pose proof (NewRequest_live name op u (op_body op) Hurl) as Hnew.
  destruct op; open_operation;
    (erewrite request_exchange; [| reflexivity | exact Hnew]);
    rewrite Header_Set_new; cbv zeta;
    (destruct (transport log _) as [resp|err]; [|reflexivity]);
    (destruct (resp_Body resp) as [resBody|err]; [|reflexivity]);
    destruct (StatusCode resp =? StatusOK)%Z; try reflexivity.
  all: cbn [andb returns_data op_decode returned fst snd pointee];
    destruct (json_Unmarshal resBody _) as [v [e|]]; reflexivity.
Qed.

(** When the request cannot be made, the operation returns the error and
    sends nothing. *)
Lemma run_not_made transport c ctx op log err :
  http_NewRequestWithContext ctx (op_method op) (op_url op) (op_body op) = Err err ->
  run transport c ctx op log = ((None, Some err), log).
Proof.
  intros Hnew.
  destruct op; open_operation;
    (erewrite request_not_made; [reflexivity | reflexivity | exact Hnew]).
Qed.

(** A request is made exactly when the context is not nil and the URL
    parses. *)
Lemma NewRequest_cases ctx op :
  (exists err,
      http_NewRequestWithContext ctx (op_method op) (op_url op) (op_body op) = Err err)
  \/ (exists name u, ctx = LiveContext name /\ url_Parse (op_url op) = Ok u).
Proof.
  destruct ctx as [|name].
  - left. exists NilContextError. unfold http_NewRequestWithContext.
    destruct op; reflexivity.
  - destruct (url_Parse (op_url op)) as [u|e] eqn:Hurl.
    + right. exists name, u. split; reflexivity.
    + left. exists e. unfold http_NewRequestWithContext.
      replace (String.eqb (op_method op) EmptyString) with false
        by (destruct op; reflexivity).
      cbv zeta. rewrite op_method_valid. cbn [negb]. rewrite Hurl. reflexivity.
Qed.

Lemma sent_requests_app log1 log2 :
  sent_requests (log1 ++ log2) = (sent_requests log1 ++ sent_requests log2)%list.
Proof.
  induction log1 as [|ev log1 IH]; [reflexivity|].
  destruct ev; cbn; rewrite IH; reflexivity.
Qed.

Lemma sent_requests_exchange op req status resBody :
  sent_requests (exchange_events op req status resBody) = [req].
Proof. unfold exchange_events. destruct (_ && _); reflexivity. Qed.

(** What an operation adds to the log holds at most one request, and that
    request is the authorized one. *)
Lemma run_log transport c ctx op log :
  exists new,
    snd (run transport c ctx op log) = (log ++ new)%list
    /\ (sent_requests new = []
        \/ exists name u,
            ctx = LiveContext name
            /\ url_Parse (op_url op) = Ok u
            /\ sent_requests new
               = [authorized c name (op_method op) u (op_body op)]).
Proof.
  destruct (NewRequest_cases ctx op) as [[err Herr]|[name [u [-> Hurl]]]].
  - exists []. rewrite (run_not_made _ _ _ _ _ _ Herr). cbn.
    rewrite app_nil_r. auto.
  - rewrite (run_exchange transport c name op log u Hurl). cbv zeta.
    destruct (transport log _) as [resp|err].
    + destruct (resp_Body resp) as [resBody|err];
        eexists; (split; [reflexivity|]); right; exists name, u;
        (split; [reflexivity|]); (split; [exact Hurl|]);
        [apply sent_requests_exchange | reflexivity].
    + eexists; split; [reflexivity|]. right. exists name, u.
      split; [reflexivity|]. split; [exact Hurl | reflexivity].
Qed.

(** With a non-nil context and a URL that parses, an operation hands
    exactly one request to the transport. *)
Lemma run_sends transport c name op log u :
  url_Parse (op_url op) = Ok u ->
  exists new,
    snd (run transport c (LiveContext name) op log) = (log ++ new)%list
    /\ sent_requests new
       = [authorized c name (op_method op) u (op_body op)].
Proof.
  intros Hurl. rewrite (run_exchange transport c name op log u Hurl). cbv zeta.
  destruct (transport log _) as [resp|err];
    [|eexists; split; reflexivity].
  destruct (resp_Body resp) as [resBody|err];
    [|eexists; split; reflexivity].
  eexists; split; [reflexivity | apply sent_requests_exchange].
Qed.

Lemma returned_error_no_data {R D} (data : R -> option D) out :
  snd (returned data out) <> None -> fst (returned data out) = None.
Proof.
  unfold returned. destruct (snd out); [reflexivity|]. intros Hne. now elim Hne.
Qed.

Lemma op_decode_error_no_data op resBody :
  snd (op_decode op resBody) <> None -> fst (op_decode op resBody) = None.
Proof. destruct op; cbn [op_decode]; try apply returned_error_no_data. reflexivity. Qed.

Lemma Unmarshal_invalid {A} `{Unmarshaler A} (data : string) (v : A) :
  json_parse data = None -> json_Unmarshal data v = (v, Some SyntaxError).
Proof. intros Hp. unfold json_Unmarshal. rewrite Hp. reflexivity. Qed.

Lemma NewClient_secret getenv c :
  NewClient getenv = Returned c -> secret c = getenv "PAYSTACK_SECRET".
Proof.
  unfold NewClient. destruct (String.eqb _ _); [discriminate|].
  intros Hc. injection Hc as <-. reflexivity.
Qed.

Lemma run_all_log transport c calls : forall log,
  exists new,
    snd (run_all transport c calls log) = (log ++ new)%list
    /\ Forall (fun req =>
                 req_Header req !! "Authorization" = Some ["Bearer " ++ secret c])
         (sent_requests new).
Proof.
  induction calls as [|[ctx op] tl IH]; intros log.
  - exists []. cbn. rewrite app_nil_r. split; [reflexivity | constructor].
  - cbn [run_all]. unfold bind.
    destruct (run_log transport c ctx op log) as [new1 [Hlog1 Hsent1]].
    destruct (run transport c ctx op log) as [out log1]. cbn [snd] in Hlog1.
    subst log1. destruct (IH (log ++ new1)%list) as [new2 [Hlog2 Hsent2]].
    exists (new1 ++ new2)%list. split.
    + rewrite Hlog2, app_assoc. reflexivity.
    + rewrite sent_requests_app. apply Forall_app. split; [|exact Hsent2].
      destruct Hsent1 as [->|[name [u [_ [_ ->]]]]]; [constructor|].
      constructor; [|constructor]. unfold authorized. cbn [req_Header].
      apply lookup_singleton_eq.
Qed.

(** ** Decimal digits in JSON text *)

Lemma htmlSafe_facts c :
  htmlSafe c = true ->
  (byte_code c <? 128)%N = true /\ (byte_code c <? 32)%N = false
  /\ Ascii.eqb c dquote = false /\ Ascii.eqb c "\"%char = false.
Proof.
  unfold htmlSafe, in_range. intros Hsafe.
  apply andb_true_iff in Hsafe as [Hsafe _].
  apply andb_true_iff in Hsafe as [Hsafe _].
  apply andb_true_iff in Hsafe as [Hsafe _].
  apply andb_true_iff in Hsafe as [Hsafe Hb].
  apply andb_true_iff in Hsafe as [Hsafe Hq].
  apply andb_true_iff in Hsafe as [Hlo Hhi].
  apply negb_true_iff in Hb, Hq. apply N.leb_le in Hlo, Hhi.
  repeat split; try assumption.
  - apply N.ltb_lt. lia.
  - apply N.ltb_ge. exact Hlo.
Qed.

Lemma appendString_loop_safe s : forall fuel,
  string_forallb htmlSafe s = true ->
  (String.length s <= fuel)%nat ->
  appendString_loop fuel s = s.
Proof.
  induction s as [|c s IH]; intros fuel Hsafe Hfuel.
  - destruct fuel; reflexivity.
  - cbn [string_forallb] in Hsafe. apply andb_true_iff in Hsafe.
    destruct Hsafe as [Hc Hs]. destruct fuel as [|fuel]; [cbn in Hfuel; lia|].
    cbn [appendString_loop].
    destruct (htmlSafe_facts c Hc) as [Hlt _]. rewrite Hlt, Hc.
    cbn [String.append]. rewrite IH; [reflexivity | exact Hs |].
    cbn [String.length] in Hfuel. lia.
Qed.

Lemma appendString_safe s :
  string_forallb htmlSafe s = true ->
  appendString s = String dquote (s ++ String dquote EmptyString).
Proof.
  intros Hsafe. unfold appendString.
  rewrite appendString_loop_safe; [reflexivity | exact Hsafe | lia].
Qed.

Lemma unquote_loop_safe s rest : forall fuel,
  string_forallb htmlSafe s = true ->
  (String.length s < fuel)%nat ->
  unquote_loop fuel (s ++ String dquote rest) = Scanned s rest.
Proof.
  induction s as [|c s IH]; intros fuel Hsafe Hfuel.
  - destruct fuel as [|fuel]; [lia|]. reflexivity.
  - cbn [string_forallb] in Hsafe. apply andb_true_iff in Hsafe.
    destruct Hsafe as [Hc Hs]. destruct fuel as [|fuel]; [lia|].
    change (String c s ++ String dquote rest)
      with (String c (s ++ String dquote rest)).
    cbn [unquote_loop].
    destruct (htmlSafe_facts c Hc) as [Hlt [Hge [Hq Hb]]].
    rewrite Hq, Hb, Hge, Hlt. rewrite IH; [reflexivity | exact Hs |].
    cbn [String.length] in Hfuel. lia.
Qed.

Lemma append_assoc (s t u : string) : (s ++ t) ++ u = s ++ (t ++ u).
Proof.
  induction s as [|c s IH]; [reflexivity|].
  change (String c ((s ++ t) ++ u) = String c (s ++ (t ++ u))).
  rewrite IH. reflexivity.
Qed.

Lemma length_append (s t : string) :
  String.length (s ++ t) = (String.length s + String.length t)%nat.
Proof.
  induction s as [|c s IH]; [reflexivity|].
  change (S (String.length (s ++ t)) = S (String.length s + String.length t)).
  rewrite IH. reflexivity.
Qed.

(** A string of safe bytes, written by the encoder, is read back by the
    scanner as a JSON string with the same content. *)
Lemma parse_safe_string s :
  string_forallb htmlSafe s = true ->
  json_parse (appendString s) = Some (JString s).
Proof.
  intros Hsafe. rewrite (appendString_safe s Hsafe).
  unfold json_parse, parse_fuel.
  change (parse_value (S ?f) 0 (String dquote ?r))
    with (scan_map JString (scan_string r)).
  unfold scan_string. rewrite unquote_loop_safe; [reflexivity | exact Hsafe |].
  rewrite length_append. cbn. lia.
Qed.

Lemma uint_digits_safe u :
  string_forallb htmlSafe (NilEmpty.string_of_uint u) = true.
Proof.
  induction u; cbn [NilEmpty.string_of_uint string_forallb];
    try rewrite IHu; reflexivity.
Qed.

Lemma format_int_safe z : string_forallb htmlSafe (format_int z) = true.
Proof.
  unfold format_int.
  destruct (Z.to_int z) as [u|u]; cbn [NilZero.string_of_int];
    destruct u; try reflexivity;
    cbn [string_forallb NilZero.string_of_uint];
    rewrite ?uint_digits_safe; try reflexivity;
    cbn [NilEmpty.string_of_uint string_forallb];
    rewrite uint_digits_safe; reflexivity.
Qed.

(** The digits [format_int] writes are read back as the same integer. *)
Lemma ParseInt_format_int z : is_int z -> strconv_ParseInt (format_int z) = Some z.
Proof.
  intros [Hlo Hhi]. unfold strconv_ParseInt, format_int.
  rewrite NilZero.isi.
  - rewrite DecimalZ.of_to.
    apply Z.leb_le in Hlo. apply Z.leb_le in Hhi. rewrite Hlo, Hhi. reflexivity.
  - destruct z; cbn; try discriminate;
      intros Heq; injection Heq; apply Unsigned.to_uint_nonnil.
  - destruct z; cbn; try discriminate;
      intros Heq; injection Heq; apply Unsigned.to_uint_nonnil.
Qed.

Lemma int32_is_int z : is_int32 z -> is_int z.
Proof.
  unfold is_int32, is_int, int32_min, int32_max, int_min, int_max. lia.
Qed.

(** ** Decoding a response envelope *)

Lemma saveError_None e : saveError e None = e.
Proof. destruct e; reflexivity. Qed.

(** In a struct whose only field folds to DATA, a key selects that field
    exactly when the key folds to DATA. *)
Lemma find_field_single {T} (f : field T) key :
  foldName (field_name f) = "DATA" ->
  find_field [f] key = if selects_data key then Some f else None.
Proof.
  intros Hname. unfold find_field, selects_data. cbn [List.find].
  destruct (String.eqb (field_name f) key) eqn:Hexact.
  - apply String.eqb_eq in Hexact. subst key. rewrite Hname. reflexivity.
  - rewrite Hname, String.eqb_sym.
    destruct (String.eqb (foldName key) "DATA"); reflexivity.
Qed.

Section Envelope.

Context {T A : Type} `{Zero A} `{Unmarshaler A}.
Variables (name : string) (get : T -> option A) (set : option A -> T -> T).
Hypothesis name_folds : foldName name = "DATA".
Hypothesis set_get : forall t, set (get t) t = t.

(** Members that do not select the field leave the struct as it is. *)
Lemma decode_members_skips members st :
  Forall (fun kv => selects_data (fst kv) = false) members ->
  decode_members [mk_field name get set] members st = st.
Proof.
  induction 1 as [|[key v] tl Hkey _ IH]; [reflexivity|].
  cbn [decode_members].
  rewrite (find_field_single (mk_field name get set) key name_folds).
  cbn [fst] in Hkey. rewrite Hkey. exact IH.
Qed.

(** Members that select the field with [null] only keep a nil pointer
    nil. *)
Lemma decode_members_null members : forall t e,
  get t = None ->
  Forall (fun kv => selects_data (fst kv) = true -> snd kv = JNull) members ->
  decode_members [mk_field name get set] members (t, e) = (t, e).
Proof.
  induction members as [|[key v] tl IH]; intros t e Hnil Hall; [reflexivity|].
  inversion Hall as [|kv tl' Hkey Htl]; subst.
  cbn [decode_members].
  rewrite (find_field_single (mk_field name get set) key name_folds).
  cbn [fst snd] in *. destruct (selects_data key).
  - rewrite (Hkey eq_refl).
    change (field_store (mk_field name get set) JNull t)
      with (let '(a, e) := decode_into JNull (get t) in (set a t, e)).
    change (decode_into JNull (get t)) with (@None A, @None error).
    cbv iota beta. rewrite <- Hnil, set_get, saveError_None.
    apply IH; assumption.
  - apply IH; assumption.
Qed.

(** One member named data that holds an object, among members that do
    not select the field: the pointer is set to a new struct decoded
    from the object. *)
Lemma decode_members_envelope front back members v t :
  Forall (fun kv => selects_data (fst kv) = false) (front ++ back) ->
  get t = None ->
  decode_into (JObject members) (zero : A) = (v, None) ->
  decode_members [mk_field name get set]
    (front ++ ("data", JObject members) :: back) (t, None)
  = (set (Some v) t, None).
Proof.
  intros Hothers Hnil Hdec. apply Forall_app in Hothers as [Hfront Hback].
  assert (Happ : forall l1 l2 st,
             decode_members [mk_field name get set] (l1 ++ l2) st
             = decode_members [mk_field name get set] l2
                 (decode_members [mk_field name get set] l1 st)).
  { induction l1 as [|[k x] l1 IHl]; intros l2 st; [reflexivity|].
    cbn [decode_members app]. apply IHl. }
  rewrite Happ, (decode_members_skips front _ Hfront).
  cbn [decode_members].
  rewrite (find_field_single (mk_field name get set) "data" name_folds).
  change (selects_data "data") with true. cbn [fst snd].
  change (field_store (mk_field name get set) (JObject members) t)
    with (let '(a, e) := decode_into (JObject members) (get t) in (set a t, e)).
  rewrite Hnil.
  change (decode_into (JObject members) (@None A))
    with (let '(x, e) := decode_into (JObject members) (zero : A) in (Some x, e)).
  rewrite Hdec. cbv iota beta. cbn [saveError].
  apply decode_members_skips. exact Hback.
Qed.

End Envelope.

(** ** What the encoder writes for a data shape, the decoder reads back *)

Ltac decode_written :=
  unfold decode_into, decode_struct;
  cbn -[format_int strconv_ParseInt];
  rewrite ?ParseInt_format_int by assumption;
  reflexivity.

Lemma Customer_roundtrip (v : Customer) :
  is_int (Customer_Id v) ->
  exists members,
    encode_value v = Ok (JObject members)
    /\ decode_into (JObject members) (zero : Customer) = (v, None).
Proof.
  destruct v as [id email code]. cbn [Customer_Id]. intros Hid.
  eexists. split; [reflexivity|]. decode_written.
Qed.

Lemma InitializedTransaction_roundtrip (v : InitializedTransaction) :
  exists members,
    encode_value v = Ok (JObject members)
    /\ decode_into (JObject members) (zero : InitializedTransaction) = (v, None).
Proof.
  destruct v as [reference url code].
  eexists. split; [reflexivity|]. decode_written.
Qed.

Lemma Authorization_roundtrip (v : Authorization) :
  exists members,
    encode_value v = Ok (JObject members)
    /\ decode_into (JObject members) (zero : Authorization) = (v, None).
Proof.
  destruct v. eexists. split; [reflexivity|]. vm_compute. reflexivity.
Qed.

Lemma VerifiedTransaction_roundtrip (v : VerifiedTransaction) :
  is_int (VerifiedTransaction_Id v) ->
  exists members,
    encode_value v = Ok (JObject members)
    /\ decode_into (JObject members) (zero : VerifiedTransaction) = (v, None).
Proof.
  destruct v as [id reference status [a|]]; cbn [VerifiedTransaction_Id]; intros Hid.
  - destruct (Authorization_roundtrip a) as [ms [Henc Hdec]].
    exists [("id", JNumber (format_int id)); ("reference", JString reference);
            ("status", JString status); ("authorization", JObject ms)].
    split.
    + unfold encode_value at 1, Marshaler_VerifiedTransaction.
      cbn [VerifiedTransaction_Authorization].
      change (encode_value (Some a)) with (encode_value a).
      rewrite Henc. reflexivity.
    + unfold decode_into in Hdec |- *.
      unfold Unmarshaler_VerifiedTransaction, decode_struct.
      cbn -[format_int strconv_ParseInt Unmarshaler_Authorization].
      rewrite ParseInt_format_int by assumption.
      cbn [fst snd set_VerifiedTransaction_Id VerifiedTransaction_Authorization].
      unfold decode_into.
      change (VerifiedTransaction_Authorization (@zero VerifiedTransaction _))
        with (@None Authorization).
      cbv iota. rewrite Hdec. reflexivity.
  - eexists. split; [reflexivity|]. decode_written.
Qed.

(** Every data shape is written as an object, and read back from it, when
    its [int] fields are in range. *)
Lemma data_roundtrip op (v : data_type op) :
  data_in_range op v ->
  exists members,
    op_encode_data op v = Ok (JObject members)
    /\ match op return data_type op -> Prop with
       | OpValidateCredentials => fun _ => True
       | OpCreateCustomer _ => fun v =>
           decode_into (JObject members) (zero : Customer) = (v, None)
       | OpInitializeTransaction _ _ => fun v =>
           decode_into (JObject members) (zero : InitializedTransaction) = (v, None)
       | OpChargeAuthorization _ _ _ => fun v =>
           decode_into (JObject members) (zero : InitializedTransaction) = (v, None)
       | OpVerifyTransaction _ => fun v =>
           decode_into (JObject members) (zero : VerifiedTransaction) = (v, None)
       end v.
Proof.
  destruct op; cbn [data_in_range op_encode_data data_type] in *; intros Hrange.
  - destruct v.
  - apply Customer_roundtrip; assumption.
  - apply InitializedTransaction_roundtrip.
  - apply InitializedTransaction_roundtrip.
  - apply VerifiedTransaction_roundtrip; assumption.
Qed.

(** ** Decoding the body of a response *)

Lemma Resp_set_get :
  (forall t, set_CreateCustomerResp_Data (CreateCustomerResp_Data t) t = t)
  /\ (forall t, set_InitTransactionResp_Data (InitTransactionResp_Data t) t = t)
  /\ (forall t, set_ChargeTransactionResp_Data (ChargeTransactionResp_Data t) t = t)
  /\ (forall t,
         set_VerifiedTransactionResp_Data (VerifiedTransactionResp_Data t) t = t).
Proof. repeat split; intros []; reflexivity. Qed.

Lemma Unmarshal_parsed {A} `{Unmarshaler A} (data : string) (j : json) (v : A) :
  json_parse data = Some j -> json_Unmarshal data v = decode_into j v.
Proof. intros Hp. unfold json_Unmarshal. rewrite Hp. reflexivity. Qed.

Lemma op_decode_envelope op resBody j data (v : data_type op) :
  json_parse resBody = Some j ->
  envelope data j ->
  op_encode_data op v = Ok data ->
  data_in_range op v ->
  op_decode op resBody = (Some v, None).
Proof.
  intros Hparse [front [back [-> Hothers]]] Henc Hrange.
  destruct (data_roundtrip op v Hrange) as [members [Henc' Hdec]].
  rewrite Henc in Henc'. injection Henc' as ->.
  destruct op; [destruct v | | | |];
    cbn [op_decode]; rewrite (Unmarshal_parsed _ _ _ Hparse).
  - change (decode_into ?j' ?t)
      with (decode_members fields_CreateCustomerResp
              (front ++ ("data", JObject members) :: back) (t, None)).
    unfold fields_CreateCustomerResp.
    rewrite (decode_members_envelope "data" CreateCustomerResp_Data
               set_CreateCustomerResp_Data eq_refl
               front back members v (Build_CreateCustomerResp None) Hothers eq_refl Hdec).
    reflexivity.
  - change (decode_into ?j' ?t)
      with (decode_members fields_InitTransactionResp
              (front ++ ("data", JObject members) :: back) (t, None)).
    unfold fields_InitTransactionResp.
    rewrite (decode_members_envelope "Data" InitTransactionResp_Data
               set_InitTransactionResp_Data eq_refl
               front back members v (Build_InitTransactionResp None) Hothers eq_refl Hdec).
    reflexivity.
  - change (decode_into ?j' ?t)
      with (decode_members fields_ChargeTransactionResp
              (front ++ ("data", JObject members) :: back) (t, None)).
    unfold fields_ChargeTransactionResp.
    rewrite (decode_members_envelope "Data" ChargeTransactionResp_Data
               set_ChargeTransactionResp_Data eq_refl
               front back members v (Build_ChargeTransactionResp None) Hothers eq_refl Hdec).
    reflexivity.
  - change (decode_into ?j' ?t)
      with (decode_members fields_VerifiedTransactionResp
              (front ++ ("data", JObject members) :: back) (t, None)).
    unfold fields_VerifiedTransactionResp.
    rewrite (decode_members_envelope "Data" VerifiedTransactionResp_Data
               set_VerifiedTransactionResp_Data eq_refl
               front back members v (Build_VerifiedTransactionResp None) Hothers eq_refl Hdec).
    reflexivity.
Qed.

Lemma op_decode_without_data op resBody j :
  returns_data op = true ->
  json_parse resBody = Some j ->
  without_data j ->
  op_decode op resBody = (None, None).
Proof.
  intros Hdata Hparse Hnone.
  destruct Resp_set_get as [Hcreate [Hinit [Hcharge Hverify]]].
  destruct op; try discriminate Hdata;
    cbn [op_decode]; rewrite (Unmarshal_parsed _ _ _ Hparse);
    (destruct j as [| | | | |members]; try (now elim Hnone); try reflexivity).
  - change (decode_into ?j' ?t)
      with (decode_members fields_CreateCustomerResp members (t, None)).
    unfold fields_CreateCustomerResp.
    rewrite (decode_members_null "data" CreateCustomerResp_Data
               set_CreateCustomerResp_Data eq_refl Hcreate members (Build_CreateCustomerResp None) None
               eq_refl Hnone).
    reflexivity.
  - change (decode_into ?j' ?t)
      with (decode_members fields_InitTransactionResp members (t, None)).
    unfold fields_InitTransactionResp.
    rewrite (decode_members_null "Data" InitTransactionResp_Data
               set_InitTransactionResp_Data eq_refl Hinit members (Build_InitTransactionResp None) None
               eq_refl Hnone).
    reflexivity.
  - change (decode_into ?j' ?t)
      with (decode_members fields_ChargeTransactionResp members (t, None)).
    unfold fields_ChargeTransactionResp.
    rewrite (decode_members_null "Data" ChargeTransactionResp_Data
               set_ChargeTransactionResp_Data eq_refl Hcharge members (Build_ChargeTransactionResp None) None
               eq_refl Hnone).
    reflexivity.
  - change (decode_into ?j' ?t)
      with (decode_members fields_VerifiedTransactionResp members (t, None)).
    unfold fields_VerifiedTransactionResp.
    rewrite (decode_members_null "Data" VerifiedTransactionResp_Data
               set_VerifiedTransactionResp_Data eq_refl Hverify members (Build_VerifiedTransactionResp None) None
               eq_refl Hnone).
    reflexivity.
Qed.

(** ** The claims *)

(** C1, as stated, fails: the body [CreateCustomer] sends is an object with
    three members, named id, email and customer_code, not with the one
    member email. *)
Lemma CreateCustomer_body_is_not_email_only :
  map (fun req => body_fields (req_Body req))
    (sent_requests
       (snd (CreateCustomer (stub StatusOK "{}") (Build_Client "sk_test_123")
               (LiveContext "bg") "a@b.com" [])))
  = [Some ["id"; "email"; "customer_code"]]
  /\ map (fun req => body_fields (req_Body req))
       (sent_requests
          (snd (CreateCustomer (stub StatusOK "{}") (Build_Client "sk_test_123")
                  (LiveContext "bg") "a@b.com" [])))
     <> [Some ["email"]].
Proof. split; [vm_compute; reflexivity | vm_compute; discriminate]. Qed.

(** C1, amended. For every email, [CreateCustomer] hands the transport one
    request: a POST to the customer endpoint whose body is the encoding of
    a whole [Customer], an object with the three members id (the number
    0), email (the given email) and customer_code (the empty string), in
    that order. *)
Theorem CreateCustomer_sends_whole_customer transport c name email log :
  (exists new,
      snd (CreateCustomer transport c (LiveContext name) email log)
      = (log ++ new)%list
      /\ sent_requests new
         = [authorized c name "POST" (api_URL "/customer")
              (json_encode
                 (JObject [("id", JNumber "0"); ("email", JString email);
                           ("customer_code", JString EmptyString)]))])
  /\ json_encode
       (JObject [("id", JNumber "0"); ("email", JString email);
                 ("customer_code", JString EmptyString)])
     = json_text "{'id':0,'email':" ++ appendString email
       ++ json_text ",'customer_code':''}".
Proof.
  split.
  - apply (run_sends transport c name (OpCreateCustomer email) log).
    apply api_url_parses.
  - cbn [json_encode]. rewrite !append_assoc. reflexivity.
Qed.

(** C2. For every operation, a response whose status is not exactly 200
    (201 included) makes the operation return no result and an error whose
    text is the response body, byte for byte; the body is not given to
    [json.Unmarshal]: the operation only sends the request and closes the
    response. *)
Theorem non_200_returns_body_as_error transport c name op log status body u :
  url_Parse (op_url op) = Ok u ->
  transport log (authorized c name (op_method op) u (op_body op))
  = Ok (Build_Response status (Ok body)) ->
  status <> StatusOK ->
  run transport c (LiveContext name) op log
  = ((None, Some (errorString body)),
     (log ++ [Sent (authorized c name (op_method op) u (op_body op));
              Closed])%list)
  /\ Error (errorString body) = Some body.
Proof.
  intros Hurl Hanswer Hstatus. split; [|reflexivity].
  rewrite (run_exchange transport c name op log u Hurl). cbv zeta.
  rewrite Hanswer. cbn [resp_Body StatusCode]. unfold exchange_events.
  apply Z.eqb_neq in Hstatus. rewrite Hstatus. reflexivity.
Qed.

Lemma non_200_returns_body_as_error_witness :
  (run (stub 201 "created") (Build_Client "sk_test_123") (LiveContext "bg")
     (OpCreateCustomer "a@b.com") []
   = ((None, Some (errorString "created")),
      ([] ++ [Sent (authorized (Build_Client "sk_test_123") "bg" "POST"
                      (api_URL "/customer")
                      (op_body (OpCreateCustomer "a@b.com")));
              Closed])%list)
   /\ Error (errorString "created") = Some "created")
  /\ (run (stub 401 (json_text "{'message':'invalid key'}"))
        (Build_Client "sk_test_123") (LiveContext "bg") OpValidateCredentials []
      = ((None, Some (errorString (json_text "{'message':'invalid key'}"))),
         ([] ++ [Sent (authorized (Build_Client "sk_test_123") "bg" "GET"
                         (api_URL "/customer") EmptyString);
                 Closed])%list)
      /\ Error (errorString (json_text "{'message':'invalid key'}"))
         = Some (json_text "{'message':'invalid key'}")).
Proof.
  split.
  - apply (non_200_returns_body_as_error (stub 201 "created")
             (Build_Client "sk_test_123") "bg" (OpCreateCustomer "a@b.com") []
             201 "created").
    + vm_compute. reflexivity.
    + reflexivity.
    + unfold StatusOK. lia.
  - apply (non_200_returns_body_as_error
             (stub 401 (json_text "{'message':'invalid key'}"))
             (Build_Client "sk_test_123") "bg" OpValidateCredentials []
             401 (json_text "{'message':'invalid key'}")).
    + vm_compute. reflexivity.
    + reflexivity.
    + unfold StatusOK. lia.
Defined.

(** C3. For every int32 amount, zero and the negative ones included,
    [InitializeTransaction] and [ChargeAuthorization] send the request (no
    amount is refused) with the member amount holding the decimal digits
    of the amount as a JSON string: its text is the digits between double
    quotes, the scanner reads that text as a string and not as a number,
    and the digits read back as the amount. *)
Theorem amount_is_sent_as_decimal_string
    transport c name email authCode amount log :
  is_int32 amount ->
  (exists new,
      snd (InitializeTransaction transport c (LiveContext name) email amount log)
      = (log ++ new)%list
      /\ sent_requests new
         = [authorized c name "POST" (api_URL "/transaction/initialize")
              (json_encode
                 (JObject [("email", JString email);
                           ("amount", JString (format_int amount))]))])
  /\ (exists new,
         snd (ChargeAuthorization transport c (LiveContext name)
                email amount authCode log)
         = (log ++ new)%list
         /\ sent_requests new
            = [authorized c name "POST"
                 (api_URL "/transaction/charge_authorization")
                 (json_encode
                    (JObject [("email", JString email);
                              ("amount", JString (format_int amount));
                              ("authorization_code", JString authCode)]))])
  /\ json_encode (JString (format_int amount))
     = String dquote (format_int amount ++ String dquote EmptyString)
  /\ json_parse (json_encode (JString (format_int amount)))
     = Some (JString (format_int amount))
  /\ strconv_ParseInt (format_int amount) = Some amount.
Proof.
  intros Hrange. repeat split.
  - apply (run_sends transport c name (OpInitializeTransaction email amount) log).
    apply api_url_parses.
  - apply (run_sends transport c name
             (OpChargeAuthorization email amount authCode) log).
    apply api_url_parses.
  - apply appendString_safe, format_int_safe.
  - apply parse_safe_string, format_int_safe.
  - apply ParseInt_format_int, int32_is_int, Hrange.
Qed.

Lemma amount_is_sent_as_decimal_string_witness :
  json_parse (json_encode (JString (format_int 0))) = Some (JString "0")
  /\ json_parse (json_encode (JString (format_int (-2500)))) = Some (JString "-2500")
  /\ exists new,
       snd (InitializeTransaction (stub StatusOK "{}") (Build_Client "sk_test_123")
              (LiveContext "bg") "a@b.com" (-2500) [])
       = ([] ++ new)%list
       /\ sent_requests new
          = [authorized (Build_Client "sk_test_123") "bg" "POST"
               (api_URL "/transaction/initialize")
               (json_encode
                  (JObject [("email", JString "a@b.com");
                            ("amount", JString (format_int (-2500)))]))].
Proof.
  assert (H0 : is_int32 0) by (unfold is_int32, int32_min, int32_max; lia).
  assert (H1 : is_int32 (-2500)) by (unfold is_int32, int32_min, int32_max; lia).
  split; [|split].
  - exact (proj1 (proj2 (proj2 (proj2
             (amount_is_sent_as_decimal_string (stub StatusOK "{}")
                (Build_Client "sk_test_123") "bg" "a@b.com" "AUTH_x" 0 [] H0))))).
  - exact (proj1 (proj2 (proj2 (proj2
             (amount_is_sent_as_decimal_string (stub StatusOK "{}")
                (Build_Client "sk_test_123") "bg" "a@b.com" "AUTH_x" (-2500) [] H1))))).
  - exact (proj1
             (amount_is_sent_as_decimal_string (stub StatusOK "{}")
                (Build_Client "sk_test_123") "bg" "a@b.com" "AUTH_x" (-2500) [] H1)).
Defined.

(** C4. For every operation that returns data, a response with status 200
    whose body is an envelope (an object with a member named data, and any
    members of other names) around the encoding of a value of the
    operation's shape makes the operation return that value, field for
    field, and no error; [ValidateCredentials] returns no error on any
    response with status 200; and [CreateCustomer], on the body of the
    scenario, returns the customer with Id 1, Email a@b.com and
    CustomerCode CUS_xyz. *)
Theorem well_formed_envelope_is_returned :
  (forall transport c name op log resBody j data (v : data_type op) u,
      url_Parse (op_url op) = Ok u ->
      transport log (authorized c name (op_method op) u (op_body op))
      = Ok (Build_Response StatusOK (Ok resBody)) ->
      json_parse resBody = Some j ->
      envelope data j ->
      op_encode_data op v = Ok data ->
      data_in_range op v ->
      fst (run transport c (LiveContext name) op log) = (Some v, None))
  /\ (forall transport c name log resBody,
         transport log
           (authorized c name "GET" (api_URL "/customer") EmptyString)
         = Ok (Build_Response StatusOK (Ok resBody)) ->
         fst (ValidateCredentials transport c (LiveContext name) log) = None)
  /\ fst (CreateCustomer
            (stub StatusOK
               (json_text
                  "{'data':{'id':1,'email':'a@b.com','customer_code':'CUS_xyz'}}"))
            (Build_Client "sk_test_123") (LiveContext "bg") "a@b.com" [])
     = (Some (Build_Customer 1 "a@b.com" "CUS_xyz"), None).
Proof.
  split; [|split].
  - intros transport c name op log resBody j data v u Hurl Hanswer Hparse Henv
      Henc Hrange.
    rewrite (run_exchange transport c name op log u Hurl). cbv zeta.
    rewrite Hanswer. cbn [resp_Body StatusCode fst]. rewrite Z.eqb_refl.
    exact (op_decode_envelope op resBody j data v Hparse Henv Henc Hrange).
  - intros transport c name log resBody Hanswer.
    pose proof (run_exchange transport c name OpValidateCredentials log
                  (api_URL "/customer") (proj1 api_url_parses)) as Hrun.
    cbv zeta in Hrun. cbn [op_method op_url] in Hrun.
    change (op_body OpValidateCredentials) with EmptyString in Hrun.
    rewrite Hanswer in Hrun. cbn [resp_Body StatusCode] in Hrun.
    unfold run, bind, ret in Hrun.
    destruct (ValidateCredentials transport c (LiveContext name) log) as [err log'].
    rewrite Z.eqb_refl in Hrun. cbn [op_decode] in Hrun.
    injection Hrun as Herr _. exact Herr.
  - vm_compute. reflexivity.
Qed.

Lemma well_formed_envelope_is_returned_witness :
  fst (run
         (stub StatusOK
            (json_text
               "{'status':true,'message':'ok','data':{'reference':'r1','authorization_url':'https://pay/x','access_code':'ac'}}"))
         (Build_Client "sk_test_123") (LiveContext "bg")
         (OpInitializeTransaction "a@b.com" 2500) [])
  = (Some (Build_InitializedTransaction "r1" "https://pay/x" "ac"), None).
Proof.
  apply (proj1 well_formed_envelope_is_returned
           (stub StatusOK
              (json_text
                 "{'status':true,'message':'ok','data':{'reference':'r1','authorization_url':'https://pay/x','access_code':'ac'}}"))
           (Build_Client "sk_test_123") "bg"
           (OpInitializeTransaction "a@b.com" 2500) []
           (json_text
              "{'status':true,'message':'ok','data':{'reference':'r1','authorization_url':'https://pay/x','access_code':'ac'}}")
           (JObject [("status", JBool true); ("message", JString "ok");
                     ("data",
                      JObject [("reference", JString "r1");
                               ("authorization_url", JString "https://pay/x");
                               ("access_code", JString "ac")])])
           (JObject [("reference", JString "r1");
                     ("authorization_url", JString "https://pay/x");
                     ("access_code", JString "ac")])
           (Build_InitializedTransaction "r1" "https://pay/x" "ac")
           (api_URL "/transaction/initialize")).
  - vm_compute. reflexivity.
  - reflexivity.
  - vm_compute. reflexivity.
  - exists [("status", JBool true); ("message", JString "ok")], [].
    split; [reflexivity|]. repeat constructor.
  - reflexivity.
  - exact I.
Defined.

(** C5. When a response shape is given to the dispatcher, a response with
    status 200 whose body is empty or is not JSON makes it return a decode
    error, the shape left as it was; each operation that returns data then
    returns that error and no result. *)
Theorem undecodable_200_body_is_error :
  json_parse EmptyString = None
  /\ (forall (Req Resp : Type) (M : Marshaler Req) (U : Unmarshaler Resp)
        transport c ctx url method (req_body : option Req) (target : Resp)
        body req0 log resBody,
        match req_body with Some v => json_Marshal v | None => Ok EmptyString end
        = Ok body ->
        http_NewRequestWithContext ctx method url body = Ok req0 ->
        transport log (Header_Set "Authorization" ("Bearer " ++ secret c) req0)
        = Ok (Build_Response StatusOK (Ok resBody)) ->
        json_parse resBody = None ->
        fst (request transport c ctx url method req_body (Some target) log)
        = (Some target, Some SyntaxError))
  /\ (forall transport c name op log resBody u,
        returns_data op = true ->
        url_Parse (op_url op) = Ok u ->
        transport log (authorized c name (op_method op) u (op_body op))
        = Ok (Build_Response StatusOK (Ok resBody)) ->
        json_parse resBody = None ->
        fst (run transport c (LiveContext name) op log) = (None, Some SyntaxError)).
Proof.
  split; [reflexivity|]. split.
  - intros Req Resp M U transport c ctx url method req_body target
      body req0 log resBody Hbody Hnew Hanswer Hparse.
    rewrite (request_exchange transport c ctx url method req_body (Some target)
               body req0 log Hbody Hnew).
    cbv zeta. rewrite Hanswer. cbn [resp_Body StatusCode].
    rewrite Z.eqb_refl, (Unmarshal_invalid resBody target Hparse). reflexivity.
  - intros transport c name op log resBody u Hdata Hurl Hanswer Hparse.
    rewrite (run_exchange transport c name op log u Hurl). cbv zeta.
    rewrite Hanswer. cbn [resp_Body StatusCode]. rewrite Z.eqb_refl.
    destruct op; try discriminate Hdata; cbn [fst op_decode];
      rewrite Unmarshal_invalid by exact Hparse; reflexivity.
Qed.

Lemma undecodable_200_body_is_error_witness :
  fst (run (stub StatusOK "<html>") (Build_Client "sk_test_123") (LiveContext "bg")
         (OpVerifyTransaction "ref123") [])
  = (None, Some SyntaxError).
Proof.
  apply (proj2 (proj2 undecodable_200_body_is_error)
           (stub StatusOK "<html>") (Build_Client "sk_test_123") "bg"
           (OpVerifyTransaction "ref123") [] "<html>"
           (api_URL "/transaction/verify/ref123")).
  - reflexivity.
  - vm_compute. reflexivity.
  - reflexivity.
  - vm_compute. reflexivity.
Defined.

(** C6. [NewClient] never returns when the credential is empty: the process
    is stopped; with a credential that is not empty it returns a client
    that holds exactly that credential. *)
Theorem NewClient_needs_secret getenv :
  (getenv "PAYSTACK_SECRET" = EmptyString ->
   NewClient getenv = Fatal "PAYSTACK_SECRET env var not set")
  /\ (getenv "PAYSTACK_SECRET" <> EmptyString ->
      NewClient getenv = Returned (Build_Client (getenv "PAYSTACK_SECRET"))).
Proof.
  unfold NewClient. split.
  - intros ->. reflexivity.
  - intros Hne. apply String.eqb_neq in Hne. rewrite Hne. reflexivity.
Qed.

Lemma NewClient_needs_secret_witness :
  NewClient (fun _ => EmptyString) = Fatal "PAYSTACK_SECRET env var not set"
  /\ NewClient (fun _ => "sk_test_123") = Returned (Build_Client "sk_test_123").
Proof.
  split.
  - apply (proj1 (NewClient_needs_secret (fun _ => EmptyString))). reflexivity.
  - apply (proj2 (NewClient_needs_secret (fun _ => "sk_test_123"))). discriminate.
Defined.

(** C7. Every request that the operations of a constructed client hand to
    the transport, in any sequence of calls, has the header Authorization
    with the single value Bearer followed by the credential read at
    construction; the client is the same value in every call. *)
Theorem every_request_is_authorized transport getenv c calls log :
  NewClient getenv = Returned c ->
  exists new,
    snd (run_all transport c calls log) = (log ++ new)%list
    /\ Forall (fun req =>
                 req_Header req !! "Authorization"
                 = Some ["Bearer " ++ getenv "PAYSTACK_SECRET"]
                 /\ Header_Get "Authorization" req
                    = Some ("Bearer " ++ getenv "PAYSTACK_SECRET"))
         (sent_requests new).
Proof.
  intros Hc. apply NewClient_secret in Hc.
  destruct (run_all_log transport c calls log) as [new [Hlog Hsent]].
  exists new. split; [exact Hlog|]. rewrite <- Hc.
  eapply Forall_impl; [exact Hsent|].
  intros req Hreq. cbn beta in *. unfold Header_Get. rewrite Hreq. auto.
Qed.

Lemma every_request_is_authorized_witness :
  exists new,
    snd (run_all (stub StatusOK "{}") (Build_Client "sk_test_123")
           [(LiveContext "bg", OpValidateCredentials);
            (LiveContext "bg", OpVerifyTransaction "ref123")] [])
    = ([] ++ new)%list
    /\ Forall (fun req =>
                 req_Header req !! "Authorization" = Some ["Bearer " ++ "sk_test_123"]
                 /\ Header_Get "Authorization" req = Some ("Bearer " ++ "sk_test_123"))
         (sent_requests new).
Proof.
  apply (every_request_is_authorized (stub StatusOK "{}") (fun _ => "sk_test_123")).
  reflexivity.
Defined.




(** C9. For every operation: when it returns an error it returns no
    result; and it returns no error only when every step went through, that
    is, the request was made and sent, the transport answered, the body
    was read, the status was 200 and decoding the body left no error. *)
Theorem error_excludes_result transport c ctx op log :
  (snd (fst (run transport c ctx op log)) <> None ->
   fst (fst (run transport c ctx op log)) = None)
  /\ (snd (fst (run transport c ctx op log)) = None ->
      exists name resp resBody u,
        ctx = LiveContext name
        /\ url_Parse (op_url op) = Ok u
        /\ transport log (authorized c name (op_method op) u (op_body op))
           = Ok resp
        /\ StatusCode resp = StatusOK
        /\ resp_Body resp = Ok resBody
        /\ fst (run transport c ctx op log) = op_decode op resBody).
Proof.
  destruct (NewRequest_cases ctx op) as [[err Herr]|[name [u [-> Hurl]]]].
  - rewrite (run_not_made _ _ _ _ _ _ Herr). cbn. split; [reflexivity|discriminate].
  - rewrite (run_exchange transport c name op log u Hurl). cbv zeta.
    destruct (transport log _) as [resp|err] eqn:Hanswer;
      [|cbn; split; [reflexivity|discriminate]].
    destruct (resp_Body resp) as [resBody|err] eqn:Hbody;
      [|cbn; split; [reflexivity|discriminate]].
    destruct (StatusCode resp =? StatusOK)%Z eqn:Hstatus;
      [|cbn; split; [reflexivity|discriminate]].
    cbn [fst snd]. split; [apply op_decode_error_no_data|].
    intros _. exists name, resp, resBody, u. apply Z.eqb_eq in Hstatus.
    repeat split; assumption || reflexivity.
Qed.

Lemma error_excludes_result_witness :
  fst (fst (run (stub 401 (json_text "{'message':'invalid key'}"))
              (Build_Client "sk_test_123") (LiveContext "bg")
              (OpCreateCustomer "a@b.com") []))
  = None.
Proof.
  apply (proj1 (error_excludes_result
                  (stub 401 (json_text "{'message':'invalid key'}"))
                  (Build_Client "sk_test_123") (LiveContext "bg")
                  (OpCreateCustomer "a@b.com") [])).
  vm_compute. discriminate.
Defined.

(** C10, as stated, fails: a body that is valid JSON but neither an object
    nor null has no data field either, and on it the operation returns a
    nil pointer together with a type error, not with a nil error. *)
Lemma valid_json_of_another_kind_is_error :
  json_parse "[]" = Some (JArray [])
  /\ fst (run (stub StatusOK "[]") (Build_Client "sk_test_123") (LiveContext "bg")
            (OpCreateCustomer "a@b.com") [])
     = (None, Some (UnmarshalTypeError "array" "CreateCustomerResp"))
  /\ json_parse "7" = Some (JNumber "7")
  /\ fst (run (stub StatusOK "7") (Build_Client "sk_test_123") (LiveContext "bg")
            (OpVerifyTransaction "ref123") [])
     = (None, Some (UnmarshalTypeError "number" "VerifiedTransactionResp")).
Proof. repeat split; vm_compute; reflexivity. Qed.

(** C10, amended. For every operation that returns data, a response with
    status 200 whose body is the JSON document null, or a JSON object in
    which every member named data, in any case of the letters, is null
    (which includes having no such member), makes the operation return a
    nil pointer together with a nil error. *)
Theorem missing_data_is_nil_without_error transport c name op log resBody j u :
  returns_data op = true ->
  url_Parse (op_url op) = Ok u ->
  transport log (authorized c name (op_method op) u (op_body op))
  = Ok (Build_Response StatusOK (Ok resBody)) ->
  json_parse resBody = Some j ->
  without_data j ->
  fst (run transport c (LiveContext name) op log) = (None, None).
Proof.
  intros Hdata Hurl Hanswer Hparse Hnone.
  rewrite (run_exchange transport c name op log u Hurl). cbv zeta.
  rewrite Hanswer. cbn [resp_Body StatusCode fst]. rewrite Z.eqb_refl.
  exact (op_decode_without_data op resBody j Hdata Hparse Hnone).
Qed.

Lemma missing_data_is_nil_without_error_witness :
  fst (run (stub StatusOK (json_text "{'status':true,'data':null}"))
         (Build_Client "sk_test_123") (LiveContext "bg")
         (OpCreateCustomer "a@b.com") [])
  = (None, None)
  /\ fst (run (stub StatusOK (json_text "{'status':false,'message':'none'}"))
            (Build_Client "sk_test_123") (LiveContext "bg")
            (OpVerifyTransaction "ref123") [])
     = (None, None).
Proof.
  split.
  - apply (missing_data_is_nil_without_error
             (stub StatusOK (json_text "{'status':true,'data':null}"))
             (Build_Client "sk_test_123") "bg" (OpCreateCustomer "a@b.com") []
             (json_text "{'status':true,'data':null}")
             (JObject [("status", JBool true); ("data", JNull)])
             (api_URL "/customer")).
    + reflexivity.
    + vm_compute. reflexivity.
    + reflexivity.
    + vm_compute. reflexivity.
    + repeat constructor; cbn; discriminate.
  - apply (missing_data_is_nil_without_error
             (stub StatusOK (json_text "{'status':false,'message':'none'}"))
             (Build_Client "sk_test_123") "bg" (OpVerifyTransaction "ref123") []
             (json_text "{'status':false,'message':'none'}")
             (JObject [("status", JBool false); ("message", JString "none")])
             (api_URL "/transaction/verify/ref123")).
    + reflexivity.
    + vm_compute. reflexivity.
    + reflexivity.
    + vm_compute. reflexivity.
    + repeat constructor; cbn; discriminate.
Defined.

(** * Further properties of the dispatcher and the operations *)

(** ** Failures of the exchange *)

(** X1. When the transport fails, every operation returns the transport's
    error itself and no result; it has handed over its one request, and
    there is no response to close or to decode. *)
Theorem transport_error_is_returned transport c name op log err u :
  url_Parse (op_url op) = Ok u ->
  transport log (authorized c name (op_method op) u (op_body op))
  = Err err ->
  run transport c (LiveContext name) op log
  = ((None, Some err),
     (log ++ [Sent (authorized c name (op_method op) u (op_body op))])%list).
Proof.
  intros Hurl Hanswer.
  rewrite (run_exchange transport c name op log u Hurl). cbv zeta.
  rewrite Hanswer. reflexivity.
Qed.

Lemma transport_error_is_returned_witness :
  run (fun _ _ => Err (TransportError "dial tcp: timeout"))
    (Build_Client "sk_test_123") (LiveContext "bg")
    (OpChargeAuthorization "a@b.com" 2500 "AUTH_x") []
  = ((None, Some (TransportError "dial tcp: timeout")),
     ([] ++ [Sent (authorized (Build_Client "sk_test_123") "bg" "POST"
                     (api_URL "/transaction/charge_authorization")
                     (op_body (OpChargeAuthorization "a@b.com" 2500 "AUTH_x")))])%list).
Proof.
  apply (transport_error_is_returned
           (fun _ _ => Err (TransportError "dial tcp: timeout"))
           (Build_Client "sk_test_123") "bg"
           (OpChargeAuthorization "a@b.com" 2500 "AUTH_x") []).
  - vm_compute. reflexivity.
  - reflexivity.
Defined.

(** X2. When reading the response body fails, every operation returns the
    read error and no result, whatever the status, 200 included; the
    response is closed and nothing is decoded. *)
Theorem read_error_is_returned transport c name op log status err u :
  url_Parse (op_url op) = Ok u ->
  transport log (authorized c name (op_method op) u (op_body op))
  = Ok (Build_Response status (Err err)) ->
  run transport c (LiveContext name) op log
  = ((None, Some err),
     (log ++ [Sent (authorized c name (op_method op) u (op_body op));
              Closed])%list).
Proof.
  intros Hurl Hanswer.
  rewrite (run_exchange transport c name op log u Hurl). cbv zeta.
  rewrite Hanswer. reflexivity.
Qed.

Lemma read_error_is_returned_witness :
  run (fun _ _ => Ok (Build_Response StatusOK (Err (ReadError "unexpected EOF"))))
    (Build_Client "sk_test_123") (LiveContext "bg")
    (OpVerifyTransaction "ref123") []
  = ((None, Some (ReadError "unexpected EOF")),
     ([] ++ [Sent (authorized (Build_Client "sk_test_123") "bg" "GET"
                     (api_URL "/transaction/verify/ref123")
                     EmptyString);
             Closed])%list).
Proof.
  apply (read_error_is_returned
           (fun _ _ => Ok (Build_Response StatusOK (Err (ReadError "unexpected EOF"))))
           (Build_Client "sk_test_123") "bg" (OpVerifyTransaction "ref123") []
           StatusOK).
  - vm_compute. reflexivity.
  - reflexivity.
Defined.

(** X3. With a nil context no operation reaches the network: each returns
    the error of [http.NewRequestWithContext] and no result, and the log is
    left as it was. *)
Theorem nil_context_sends_nothing transport c op log :
  run transport c NilContext op log = ((None, Some NilContextError), log).
Proof.
  apply run_not_made. unfold http_NewRequestWithContext.
  destruct op; reflexivity.
Qed.

(** ** One exchange per call *)

Lemma closed_count_app log1 log2 :
  closed_count (log1 ++ log2) = (closed_count log1 + closed_count log2)%nat.
Proof.
  induction log1 as [|ev log1 IH]; [reflexivity|].
  destruct ev; cbn; rewrite IH; reflexivity.
Qed.

(** What one call adds to the log, in full. *)
Lemma run_events transport c ctx op log :
  exists new,
    snd (run transport c ctx op log) = (log ++ new)%list
    /\ (new = []
        \/ exists name u,
            ctx = LiveContext name
            /\ url_Parse (op_url op) = Ok u
            /\ let req := authorized c name (op_method op) u (op_body op) in
               new = [Sent req]
               \/ new = [Sent req; Closed]
               \/ exists resBody, new = [Sent req; Unmarshalled resBody; Closed]).
Proof.
  destruct (NewRequest_cases ctx op) as [[err Herr]|[name [u [-> Hurl]]]].
  - exists []. rewrite (run_not_made _ _ _ _ _ _ Herr). cbn.
    rewrite app_nil_r. auto.
  - rewrite (run_exchange transport c name op log u Hurl). cbv zeta.
    destruct (transport log _) as [resp|err].
    + destruct (resp_Body resp) as [resBody|err].
      * eexists. split; [reflexivity|]. right. exists name, u.
        split; [reflexivity|]. split; [exact Hurl|].
        cbv zeta. unfold exchange_events.
        destruct (_ && _); eauto.
      * eexists. split; [reflexivity|]. right. exists name, u. cbv zeta. auto.
    + eexists. split; [reflexivity|]. right. exists name, u. cbv zeta. auto.
Qed.

(** X4. A call never repeats itself: whatever the transport answers, an
    operation adds to the log nothing, or its one request alone, or the
    request and the close of the response, or the request, one decoding and
    the close, in that order; no request follows a failure. *)
Theorem one_exchange_per_call transport c ctx op log :
  exists new,
    snd (run transport c ctx op log) = (log ++ new)%list
    /\ (new = []
        \/ exists req,
            new = [Sent req]
            \/ new = [Sent req; Closed]
            \/ exists resBody, new = [Sent req; Unmarshalled resBody; Closed]).
Proof.
  destruct (run_events transport c ctx op log) as [new [Hlog Hnew]].
  exists new. split; [exact Hlog|].
  destruct Hnew as [->|[name [u [_ [_ Hshape]]]]]; [auto|].
  cbv zeta in Hshape. eauto.
Qed.

(** X5. Over any sequence of calls on a client, the requests handed to the
    transport are at most as many as the calls, and the responses closed
    at most as many as the requests. *)
Theorem calls_bound_requests transport c calls : forall log,
  exists new,
    snd (run_all transport c calls log) = (log ++ new)%list
    /\ (closed_count new <= length (sent_requests new) <= length calls)%nat.
Proof.
  induction calls as [|[ctx op] tl IH]; intros log.
  - exists []. cbn. rewrite app_nil_r. split; [reflexivity | lia].
  - cbn [run_all]. unfold bind.
    destruct (run_events transport c ctx op log) as [new1 [Hlog1 Hnew1]].
    destruct (run transport c ctx op log) as [out log1]. cbn [snd] in Hlog1.
    subst log1. destruct (IH (log ++ new1)%list) as [new2 [Hlog2 Hcount]].
    exists (new1 ++ new2)%list. split.
    + rewrite Hlog2, app_assoc. reflexivity.
    + rewrite closed_count_app, sent_requests_app, length_app.
      cbn [length].
      destruct Hnew1 as [->|[name [u [_ [_ Hshape]]]]]; [cbn; lia|].
      cbv zeta in Hshape.
      destruct Hshape as [->|[->|[resBody ->]]]; cbn; lia.
Qed.

(** The requests of a sequence of calls are the authorized requests of
    calls of the sequence. *)
Lemma run_all_requests transport c calls : forall log,
  exists new,
    snd (run_all transport c calls log) = (log ++ new)%list
    /\ Forall (fun req =>
                 exists name op u,
                   In (LiveContext name, op) calls
                   /\ url_Parse (op_url op) = Ok u
                   /\ req = authorized c name (op_method op) u (op_body op))
         (sent_requests new).
Proof.
  induction calls as [|[ctx op] tl IH]; intros log.
  - exists []. cbn. rewrite app_nil_r. split; [reflexivity | constructor].
  - cbn [run_all]. unfold bind.
    destruct (run_log transport c ctx op log) as [new1 [Hlog1 Hsent1]].
    destruct (run transport c ctx op log) as [out log1]. cbn [snd] in Hlog1.
    subst log1. destruct (IH (log ++ new1)%list) as [new2 [Hlog2 Hsent2]].
    exists (new1 ++ new2)%list. split.
    + rewrite Hlog2, app_assoc. reflexivity.
    + rewrite sent_requests_app. apply Forall_app. split.
      * destruct Hsent1 as [->|[name [u [-> [Hurl ->]]]]]; [constructor|].
        constructor; [|constructor]. exists name, op, u.
        split; [left; reflexivity|]. split; [exact Hurl | reflexivity].
      * eapply Forall_impl; [exact Hsent2|].
        intros req [name [op' [u [Hin Hreq]]]]. exists name, op', u.
        split; [right; exact Hin | exact Hreq].
Qed.

(** X6. The only header an operation sets is Authorization: every request
    handed to the transport, in any sequence of calls, has that header and
    no other; in particular no Content-Type goes with the JSON bodies. *)
Theorem authorization_is_the_only_header transport c calls log :
  exists new,
    snd (run_all transport c calls log) = (log ++ new)%list
    /\ Forall (fun req =>
                 req_Header req = {[ "Authorization" := ["Bearer " ++ secret c] ]}
                 /\ forall key, key <> "Authorization" -> req_Header req !! key = None)
         (sent_requests new).
Proof.
  destruct (run_all_requests transport c calls log) as [new [Hlog Hsent]].
  exists new. split; [exact Hlog|].
  eapply Forall_impl; [exact Hsent|].
  intros req [name [op [u [_ [_ ->]]]]]. unfold authorized. cbn [req_Header].
  split; [reflexivity|]. intros key Hkey.
  apply lookup_singleton_ne. congruence.
Qed.

Lemma prefix_empty s : String.prefix EmptyString s = true.
Proof. destruct s; reflexivity. Qed.

(** The text of a URL with the scheme and the host of the API and a path
    from the root starts with the address of the API. *)
Lemma api_URL_text u :
  URL_Scheme u = "https" -> URL_Host u = "api.paystack.co" ->
  String.prefix "/" (URL_Path u) = true ->
  String.prefix "https://api.paystack.co/" (URL_String u) = true.
Proof.
  destruct u as [scheme host path rawpath force query frag rawfrag].
  cbn [URL_Scheme URL_Host URL_Path]. intros -> -> Hpath.
  destruct path as [|b path]; [discriminate Hpath|].
  cbn [String.prefix] in Hpath.
  destruct (ascii_dec "/" b) as [<-|]; [clear Hpath|discriminate Hpath].
  assert (Hescaped : exists b' rest,
             EscapedPath (Build_URL "https" "api.paystack.co" (String "/" path)
                            rawpath force query frag rawfrag)
             = String b' rest).
  { unfold EscapedPath. cbn [URL_RawPath URL_Path].
    destruct rawpath as [|b' rest].
    - destruct path; cbn; eauto.
    - destruct (_ && _); [eauto|]. destruct path; cbn; eauto. }
  destruct Hescaped as [b' [rest Hescaped]].
  unfold URL_String. rewrite Hescaped.
  cbn [URL_Scheme URL_Host URL_Path URL_ForceQuery URL_RawQuery URL_Fragment].
  destruct (Ascii.eqb b' "/") eqn:Hb'.
  - apply Ascii.eqb_eq in Hb'. subst b'.
    destruct (force || _), (negb (String.eqb frag EmptyString));
      vm_compute; (reflexivity || exact (prefix_empty _)).
  - change (String.eqb (string_take 1 (String b' rest)) "/")
      with (Ascii.eqb b' "/" && true).
    rewrite Hb'.
    destruct (force || _), (negb (String.eqb frag EmptyString));
      vm_compute; (reflexivity || exact (prefix_empty _)).
Qed.

(** X7. Every request goes to the one host: in any sequence of calls, with
    any email, amount, code or reference, the URL of every request has the
    scheme https and the host api.paystack.co, its text starts with
    https://api.paystack.co/, and the request is a GET with an empty body
    or a POST. *)
Theorem requests_go_to_the_api_host transport c calls log :
  exists new,
    snd (run_all transport c calls log) = (log ++ new)%list
    /\ Forall (fun req =>
                 String.prefix "https://api.paystack.co/" (URL_String (req_URL req))
                 = true
                 /\ URL_Scheme (req_URL req) = "https"
                 /\ URL_Host (req_URL req) = "api.paystack.co"
                 /\ (req_Method req = "GET" /\ req_Body req = EmptyString
                     \/ req_Method req = "POST"))
         (sent_requests new).
Proof.
  destruct (run_all_requests transport c calls log) as [new [Hlog Hsent]].
  exists new. split; [exact Hlog|].
  eapply Forall_impl; [exact Hsent|].
  intros req [name [op [u [_ [Hurl ->]]]]]. unfold authorized.
  cbn [req_URL req_Method req_Body].
  destruct (op_URL_host op u Hurl) as [Hscheme [Hhost Hpath]].
  split; [exact (api_URL_text u Hscheme Hhost Hpath)|].
  split; [exact Hscheme|]. split; [exact Hhost|].
  destruct op; auto.
Qed.

(** ** What the operations make of the member data *)

Lemma decode_members_app {T} (fields : list (field T)) l1 : forall l2 st,
  decode_members fields (l1 ++ l2) st
  = decode_members fields l2 (decode_members fields l1 st).
Proof.
  induction l1 as [|[k x] l1 IH]; intros l2 st; [reflexivity|].
  cbn [decode_members app]. apply IH.
Qed.

(** A pointer that is nil and a value that is not [null]: the decoder makes
    the pointer point to a new value and decodes into it. *)
Lemma decode_into_nil_pointer {A} `{Zero A} `{Unmarshaler A} (data : json) :
  data <> JNull ->
  decode_into data (@None A)
  = (Some (fst (decode_into data (zero : A))), snd (decode_into data (zero : A))).
Proof.
  intros Hdata. unfold decode_into at 1. unfold Unmarshaler_pointer.
  destruct data; try (now elim Hdata);
    destruct (decode_into _ zero); reflexivity.
Qed.

(** One member that selects the only field of a response struct, among
    members that do not: the pointer is set to what the member decodes to,
    and the error the decoding saved is the error of the whole. *)
Lemma decode_members_data {T A} `{Zero A} `{Unmarshaler A}
    (name : string) (get : T -> option A) (set : option A -> T -> T)
    key data front back t :
  foldName name = "DATA" ->
  selects_data key = true ->
  Forall (fun kv => selects_data (fst kv) = false) (front ++ back) ->
  get t = None ->
  data <> JNull ->
  decode_members [mk_field name get set] (front ++ (key, data) :: back) (t, None)
  = (set (Some (fst (decode_into data (zero : A)))) t,
     snd (decode_into data (zero : A))).
Proof.
  intros Hname Hkey Hothers Hnil Hdata.
  apply Forall_app in Hothers as [Hfront Hback].
  rewrite decode_members_app.
  rewrite (decode_members_skips name get set Hname front _ Hfront).
  cbn [decode_members].
  rewrite (find_field_single (mk_field name get set) key Hname), Hkey.
  cbn [fst snd].
  change (field_store (mk_field name get set) data t)
    with (let '(a, e) := decode_into data (get t) in (set a t, e)).
  rewrite Hnil, (decode_into_nil_pointer data Hdata). cbn [saveError].
  apply (decode_members_skips name get set Hname back _ Hback).
Qed.

Lemma op_decode_data_member op resBody j key data :
  returns_data op = true ->
  json_parse resBody = Some j ->
  envelope_named key data j ->
  data <> JNull ->
  op_decode op resBody = op_decode_data op data.
Proof.
  intros Hret Hparse [Hkey [front [back [-> Hothers]]]] Hdata.
  destruct op; try discriminate Hret;
    cbn [op_decode op_decode_data]; rewrite (Unmarshal_parsed _ _ _ Hparse).
  - change (decode_into ?j' (Build_CreateCustomerResp None))
      with (decode_members fields_CreateCustomerResp
              (front ++ (key, data) :: back) (Build_CreateCustomerResp None, None)).
    unfold fields_CreateCustomerResp.
    rewrite (decode_members_data "data" CreateCustomerResp_Data
               set_CreateCustomerResp_Data key data front back
               (Build_CreateCustomerResp None) eq_refl Hkey Hothers eq_refl Hdata).
    reflexivity.
  - change (decode_into ?j' (Build_InitTransactionResp None))
      with (decode_members fields_InitTransactionResp
              (front ++ (key, data) :: back) (Build_InitTransactionResp None, None)).
    unfold fields_InitTransactionResp.
    rewrite (decode_members_data "Data" InitTransactionResp_Data
               set_InitTransactionResp_Data key data front back
               (Build_InitTransactionResp None) eq_refl Hkey Hothers eq_refl Hdata).
    reflexivity.
  - change (decode_into ?j' (Build_ChargeTransactionResp None))
      with (decode_members fields_ChargeTransactionResp
              (front ++ (key, data) :: back) (Build_ChargeTransactionResp None, None)).
    unfold fields_ChargeTransactionResp.
    rewrite (decode_members_data "Data" ChargeTransactionResp_Data
               set_ChargeTransactionResp_Data key data front back
               (Build_ChargeTransactionResp None) eq_refl Hkey Hothers eq_refl Hdata).
    reflexivity.
  - change (decode_into ?j' (Build_VerifiedTransactionResp None))
      with (decode_members fields_VerifiedTransactionResp
              (front ++ (key, data) :: back) (Build_VerifiedTransactionResp None, None)).
    unfold fields_VerifiedTransactionResp.
    rewrite (decode_members_data "Data" VerifiedTransactionResp_Data
               set_VerifiedTransactionResp_Data key data front back
               (Build_VerifiedTransactionResp None) eq_refl Hkey Hothers eq_refl Hdata).
    reflexivity.
Qed.

(** An operation on a response with status 200. *)
Lemma run_on_200 transport c name op log resBody u :
  url_Parse (op_url op) = Ok u ->
  transport log (authorized c name (op_method op) u (op_body op))
  = Ok (Build_Response StatusOK (Ok resBody)) ->
  fst (run transport c (LiveContext name) op log) = op_decode op resBody.
Proof.
  intros Hurl Hanswer.
  rewrite (run_exchange transport c name op log u Hurl). cbv zeta.
  rewrite Hanswer. cbn [resp_Body StatusCode fst]. rewrite Z.eqb_refl.
  reflexivity.
Qed.

(** X8. For every operation that returns data, on a response with status
    200 whose body is an object with one member named data, in any case of
    the letters, that is not [null]: the operation returns what that member
    decodes to in a new value of its shape when the decoder saved no error,
    and the first saved error with no result otherwise; what was decoded
    before or after the error is dropped. *)
Theorem data_member_decides_the_result
    transport c name op log resBody j key data u :
  returns_data op = true ->
  url_Parse (op_url op) = Ok u ->
  transport log (authorized c name (op_method op) u (op_body op))
  = Ok (Build_Response StatusOK (Ok resBody)) ->
  json_parse resBody = Some j ->
  envelope_named key data j ->
  data <> JNull ->
  fst (run transport c (LiveContext name) op log)
  = op_decode_data op data.
Proof.
  intros Hret Hurl Hanswer Hparse Henv Hdata.
  rewrite (run_on_200 transport c name op log resBody u Hurl Hanswer).
  exact (op_decode_data_member op resBody j key data Hret Hparse Henv Hdata).
Qed.

Lemma data_member_decides_the_result_witness :
  fst (run
         (stub StatusOK
            (json_text
               "{'status':true,'DATA':{'id':'seven','email':'a@b.com','customer_code':'CUS_xyz'}}"))
         (Build_Client "sk_test_123") (LiveContext "bg")
         (OpCreateCustomer "a@b.com") [])
  = (None, Some (UnmarshalTypeError "string" "int")).
Proof.
  apply (data_member_decides_the_result
           (stub StatusOK
              (json_text
                 "{'status':true,'DATA':{'id':'seven','email':'a@b.com','customer_code':'CUS_xyz'}}"))
           (Build_Client "sk_test_123") "bg" (OpCreateCustomer "a@b.com") []
           (json_text
              "{'status':true,'DATA':{'id':'seven','email':'a@b.com','customer_code':'CUS_xyz'}}")
           (JObject [("status", JBool true);
                     ("DATA",
                      JObject [("id", JString "seven");
                               ("email", JString "a@b.com");
                               ("customer_code", JString "CUS_xyz")])])
           "DATA"
           (JObject [("id", JString "seven");
                     ("email", JString "a@b.com");
                     ("customer_code", JString "CUS_xyz")])
           (api_URL "/customer")).
  - reflexivity.
  - vm_compute. reflexivity.
  - reflexivity.
  - vm_compute. reflexivity.
  - split; [vm_compute; reflexivity|].
    exists [("status", JBool true)], []. split; [reflexivity|]. repeat constructor.
  - discriminate.
Defined.

(** X9. For every operation that returns data, a response with status 200
    whose member data is a string, a number, a boolean or an array makes
    the operation return a type error that names the kind of the value and
    the shape it was to fill, and no result. *)
Theorem data_of_wrong_kind_is_error
    transport c name op log resBody j key data u :
  returns_data op = true ->
  url_Parse (op_url op) = Ok u ->
  transport log (authorized c name (op_method op) u (op_body op))
  = Ok (Build_Response StatusOK (Ok resBody)) ->
  json_parse resBody = Some j ->
  envelope_named key data j ->
  not_a_struct data = true ->
  fst (run transport c (LiveContext name) op log)
  = (None, Some (UnmarshalTypeError (json_kind data) (data_type_name op))).
Proof.
  intros Hret Hurl Hanswer Hparse Henv Hkind.
  assert (Hdata : data <> JNull) by (intros ->; discriminate Hkind).
  rewrite (run_on_200 transport c name op log resBody u Hurl Hanswer).
  rewrite (op_decode_data_member op resBody j key data Hret Hparse Henv Hdata).
  destruct op; try discriminate Hret;
    destruct data; try discriminate Hkind; reflexivity.
Qed.

Lemma data_of_wrong_kind_is_error_witness :
  fst (run (stub StatusOK (json_text "{'status':false,'data':[]}"))
         (Build_Client "sk_test_123") (LiveContext "bg")
         (OpVerifyTransaction "ref123") [])
  = (None, Some (UnmarshalTypeError "array" "VerifiedTransaction")).
Proof.
  apply (data_of_wrong_kind_is_error
           (stub StatusOK (json_text "{'status':false,'data':[]}"))
           (Build_Client "sk_test_123") "bg" (OpVerifyTransaction "ref123") []
           (json_text "{'status':false,'data':[]}")
           (JObject [("status", JBool false); ("data", JArray [])])
           "data" (JArray []) (api_URL "/transaction/verify/ref123")).
  - reflexivity.
  - vm_compute. reflexivity.
  - reflexivity.
  - vm_compute. reflexivity.
  - split; [vm_compute; reflexivity|].
    exists [("status", JBool false)], []. split; [reflexivity|]. repeat constructor.
  - reflexivity.
Defined.

(** X10. For every operation that returns data, a response with status 200
    whose body is valid JSON but is a string, a number, a boolean or an
    array, not an object, makes the operation return a type error that
    names the response type, and no result. *)
Theorem body_of_wrong_kind_is_error transport c name op log resBody j u :
  returns_data op = true ->
  url_Parse (op_url op) = Ok u ->
  transport log (authorized c name (op_method op) u (op_body op))
  = Ok (Build_Response StatusOK (Ok resBody)) ->
  json_parse resBody = Some j ->
  not_a_struct j = true ->
  fst (run transport c (LiveContext name) op log)
  = (None, Some (UnmarshalTypeError (json_kind j) (resp_type_name op))).
Proof.
  intros Hret Hurl Hanswer Hparse Hkind.
  rewrite (run_on_200 transport c name op log resBody u Hurl Hanswer).
  destruct op; try discriminate Hret;
    cbn [op_decode]; rewrite (Unmarshal_parsed _ _ _ Hparse);
    destruct j; try discriminate Hkind; reflexivity.
Qed.

Lemma body_of_wrong_kind_is_error_witness :
  fst (run (stub StatusOK (json_text "'OK'"))
         (Build_Client "sk_test_123") (LiveContext "bg")
         (OpInitializeTransaction "a@b.com" 2500) [])
  = (None, Some (UnmarshalTypeError "string" "InitTransactionResp")).
Proof.
  apply (body_of_wrong_kind_is_error (stub StatusOK (json_text "'OK'"))
           (Build_Client "sk_test_123") "bg"
           (OpInitializeTransaction "a@b.com" 2500) []
           (json_text "'OK'") (JString "OK")
           (api_URL "/transaction/initialize")).
  - reflexivity.
  - vm_compute. reflexivity.
  - reflexivity.
  - vm_compute. reflexivity.
  - reflexivity.
Defined.

(** ** Members the shapes do not know, and members they refuse *)

Lemma decode_members_unknown {T} (fields : list (field T)) members st :
  Forall (fun kv => knows fields (fst kv) = false) members ->
  decode_members fields members st = st.
Proof.
  induction 1 as [|[key v] tl Hkey _ IH]; [reflexivity|].
  cbn [decode_members]. unfold knows in Hkey. cbn [fst] in Hkey.
  destruct (find_field fields key); [discriminate Hkey | exact IH].
Qed.

Lemma decode_members_among_unknown {T} (fields : list (field T))
    front written back st :
  Forall (fun kv => knows fields (fst kv) = false) (front ++ back) ->
  decode_members fields (front ++ written ++ back) st
  = decode_members fields written st.
Proof.
  intros Hunknown. apply Forall_app in Hunknown as [Hfront Hback].
  rewrite !decode_members_app.
  rewrite (decode_members_unknown fields front st Hfront).
  apply decode_members_unknown. exact Hback.
Qed.

(** Once the decoder has saved an error, it keeps that error. *)
Lemma decode_members_keeps_error {T} (fields : list (field T)) members :
  forall t e,
    snd (decode_members fields members (t, Some e)) = Some e.
Proof.
  induction members as [|[key v] tl IH]; intros t e; [reflexivity|].
  cbn [decode_members]. destruct (find_field fields key) as [f|]; [|apply IH].
  cbn [fst snd]. destruct (field_store f v t) as [t' e']. apply IH.
Qed.

(** A member that a field refuses, whatever the field holds, makes the
    decoding of the struct end with an error. *)
Lemma decode_members_refused {T} (fields : list (field T)) f key v front back st :
  find_field fields key = Some f ->
  (forall t, snd (field_store f v t) <> None) ->
  snd (decode_members fields (front ++ (key, v) :: back) st) <> None.
Proof.
  intros Hfind Hrefuse. rewrite decode_members_app. cbn [decode_members].
  rewrite Hfind. destruct (decode_members fields front st) as [t e].
  cbn [fst snd]. specialize (Hrefuse t).
  destruct (field_store f v t) as [t' [e'|]]; [|now elim Hrefuse].
  destruct e as [e|]; cbn [saveError];
    rewrite decode_members_keeps_error; discriminate.
Qed.

Lemma kept_error {D} (out : D * option error) :
  snd out <> None -> exists err, kept out = (None, Some err).
Proof.
  unfold kept. destruct (snd out) as [err|]; [eauto | intros Hne; now elim Hne].
Qed.

(** X11. Members of the data object that the shape has no field for are
    skipped: for every operation that returns data, a response with status
    200 whose member data holds the encoding of a value of the shape, with
    any members of unknown names before and after, makes the operation
    return that value and no error. *)
Theorem unknown_members_are_skipped
    transport c name op log resBody j key (v : data_type op)
    written front back u :
  url_Parse (op_url op) = Ok u ->
  transport log (authorized c name (op_method op) u (op_body op))
  = Ok (Build_Response StatusOK (Ok resBody)) ->
  json_parse resBody = Some j ->
  envelope_named key (JObject (front ++ written ++ back)) j ->
  op_encode_data op v = Ok (JObject written) ->
  data_in_range op v ->
  Forall (fun kv => op_knows op (fst kv) = false) (front ++ back) ->
  fst (run transport c (LiveContext name) op log) = (Some v, None).
Proof.
  intros Hurl Hanswer Hparse Henv Henc Hrange Hunknown.
  assert (Hret : returns_data op = true) by (destruct op; [destruct v|..]; reflexivity).
  rewrite (run_on_200 transport c name op log resBody u Hurl Hanswer).
  rewrite (op_decode_data_member op resBody j key _ Hret Hparse Henv)
    by discriminate.
  destruct (data_roundtrip op v Hrange) as [members [Henc' Hdec]].
  rewrite Henc in Henc'. injection Henc' as <-.
  destruct op; [destruct v | | | |]; cbn [op_decode_data op_knows] in *.
  - change (decode_into (JObject (front ++ written ++ back)) (zero : Customer))
      with (decode_members fields_Customer (front ++ written ++ back)
              (zero : Customer, None)).
    rewrite (decode_members_among_unknown _ _ _ _ _ Hunknown).
    change (decode_members fields_Customer written (zero : Customer, None))
      with (decode_into (JObject written) (zero : Customer)).
    rewrite Hdec. reflexivity.
  - change (decode_into (JObject (front ++ written ++ back))
              (zero : InitializedTransaction))
      with (decode_members fields_InitializedTransaction (front ++ written ++ back)
              (zero : InitializedTransaction, None)).
    rewrite (decode_members_among_unknown _ _ _ _ _ Hunknown).
    change (decode_members fields_InitializedTransaction written
              (zero : InitializedTransaction, None))
      with (decode_into (JObject written) (zero : InitializedTransaction)).
    rewrite Hdec. reflexivity.
  - change (decode_into (JObject (front ++ written ++ back))
              (zero : InitializedTransaction))
      with (decode_members fields_InitializedTransaction (front ++ written ++ back)
              (zero : InitializedTransaction, None)).
    rewrite (decode_members_among_unknown _ _ _ _ _ Hunknown).
    change (decode_members fields_InitializedTransaction written
              (zero : InitializedTransaction, None))
      with (decode_into (JObject written) (zero : InitializedTransaction)).
    rewrite Hdec. reflexivity.
  - change (decode_into (JObject (front ++ written ++ back))
              (zero : VerifiedTransaction))
      with (decode_members fields_VerifiedTransaction (front ++ written ++ back)
              (zero : VerifiedTransaction, None)).
    rewrite (decode_members_among_unknown _ _ _ _ _ Hunknown).
    change (decode_members fields_VerifiedTransaction written
              (zero : VerifiedTransaction, None))
      with (decode_into (JObject written) (zero : VerifiedTransaction)).
    rewrite Hdec. reflexivity.
Qed.

Lemma unknown_members_are_skipped_witness :
  fst (run
         (stub StatusOK
            (json_text
               "{'status':true,'data':{'domain':'test','id':7,'email':'a@b.com','customer_code':'CUS_xyz','risk_action':'default'}}"))
         (Build_Client "sk_test_123") (LiveContext "bg")
         (OpCreateCustomer "a@b.com") [])
  = (Some (Build_Customer 7 "a@b.com" "CUS_xyz"), None).
Proof.
  apply (unknown_members_are_skipped
           (stub StatusOK
              (json_text
                 "{'status':true,'data':{'domain':'test','id':7,'email':'a@b.com','customer_code':'CUS_xyz','risk_action':'default'}}"))
           (Build_Client "sk_test_123") "bg" (OpCreateCustomer "a@b.com") []
           (json_text
              "{'status':true,'data':{'domain':'test','id':7,'email':'a@b.com','customer_code':'CUS_xyz','risk_action':'default'}}")
           (JObject [("status", JBool true);
                     ("data",
                      JObject ([("domain", JString "test")]
                               ++ [("id", JNumber "7"); ("email", JString "a@b.com");
                                   ("customer_code", JString "CUS_xyz")]
                               ++ [("risk_action", JString "default")]))])
           "data" (Build_Customer 7 "a@b.com" "CUS_xyz")
           [("id", JNumber "7"); ("email", JString "a@b.com");
            ("customer_code", JString "CUS_xyz")]
           [("domain", JString "test")] [("risk_action", JString "default")]
           (api_URL "/customer")).
  - vm_compute. reflexivity.
  - reflexivity.
  - vm_compute. reflexivity.
  - split; [vm_compute; reflexivity|].
    exists [("status", JBool true)], []. split; [reflexivity|]. repeat constructor.
  - reflexivity.
  - unfold data_in_range, is_int, int_min, int_max. cbn. lia.
  - repeat constructor.
Defined.

(** X12. An id the decoder cannot store fails the call: for
    [CreateCustomer] and [VerifyTransaction], a response with status 200
    whose data object has a member id that is a number with a fraction, an
    exponent or a value outside Go's [int] makes the operation return an
    error and no result, whatever the other members hold. *)
Theorem unreadable_id_is_error
    transport c name op log resBody j key lit front back u :
  (exists email, op = OpCreateCustomer email)
  \/ (exists ref, op = OpVerifyTransaction ref) ->
  url_Parse (op_url op) = Ok u ->
  transport log (authorized c name (op_method op) u (op_body op))
  = Ok (Build_Response StatusOK (Ok resBody)) ->
  json_parse resBody = Some j ->
  envelope_named key (JObject (front ++ ("id", JNumber lit) :: back)) j ->
  strconv_ParseInt lit = None ->
  exists err,
    fst (run transport c (LiveContext name) op log) = (None, Some err).
Proof.
  intros Hop Hurl Hanswer Hparse Henv Hlit.
  assert (Hret : returns_data op = true)
    by (destruct Hop as [[x ->]|[x ->]]; reflexivity).
  rewrite (run_on_200 transport c name op log resBody u Hurl Hanswer).
  rewrite (op_decode_data_member op resBody j key _ Hret Hparse Henv)
    by discriminate.
  destruct Hop as [[email ->]|[ref ->]]; cbn [op_decode_data]; apply kept_error.
  - change (decode_into (JObject ?m) (zero : Customer))
      with (decode_members fields_Customer m (zero : Customer, None)).
    eapply decode_members_refused; [reflexivity|].
    intros t. cbn [field_store mk_field]. unfold decode_into, Unmarshaler_int.
    rewrite Hlit. discriminate.
  - change (decode_into (JObject ?m) (zero : VerifiedTransaction))
      with (decode_members fields_VerifiedTransaction m
              (zero : VerifiedTransaction, None)).
    eapply decode_members_refused; [reflexivity|].
    intros t. cbn [field_store mk_field]. unfold decode_into, Unmarshaler_int.
    rewrite Hlit. discriminate.
Qed.

Lemma unreadable_id_is_error_witness :
  exists err,
    fst (run
           (stub StatusOK
              (json_text "{'data':{'email':'a@b.com','id':9223372036854775808}}"))
           (Build_Client "sk_test_123") (LiveContext "bg")
           (OpCreateCustomer "a@b.com") [])
    = (None, Some err).
Proof.
  apply (unreadable_id_is_error
           (stub StatusOK
              (json_text "{'data':{'email':'a@b.com','id':9223372036854775808}}"))
           (Build_Client "sk_test_123") "bg" (OpCreateCustomer "a@b.com") []
           (json_text "{'data':{'email':'a@b.com','id':9223372036854775808}}")
           (JObject [("data",
                      JObject ([("email", JString "a@b.com")]
                               ++ ("id", JNumber "9223372036854775808") :: []))])
           "data" "9223372036854775808" [("email", JString "a@b.com")] []
           (api_URL "/customer")).
  - left. exists "a@b.com". reflexivity.
  - vm_compute. reflexivity.
  - reflexivity.
  - vm_compute. reflexivity.
  - split; [vm_compute; reflexivity|].
    exists [], []. split; [reflexivity|]. constructor.
  - vm_compute. reflexivity.
Defined.

(** ** References that always reach the network *)

Lemma plain_no_CTL s :
  string_forallb plain_url_byte s = true -> stringContainsCTLByte s = false.
Proof.
  intros Hs. unfold stringContainsCTLByte. apply negb_false_iff.
  induction s as [|c s IH]; [reflexivity|].
  cbn [string_forallb] in *. apply andb_true_iff in Hs as [Hc Hs].
  unfold plain_url_byte in Hc. apply andb_true_iff in Hc as [Hc _].
  rewrite Hc. apply IH, Hs.
Qed.

Lemma plain_unescape s :
  string_forallb plain_url_byte s = true -> unescape s = Ok s.
Proof.
  intros Hs. apply unescape_nothing.
  exact (string_index_absent plain_url_byte "%"%char s eq_refl Hs).
Qed.

(** X13. A reference without control bytes and without percent signs
    always reaches the network, but not always as a path: with a non-nil
    context, [VerifyTransaction] hands the transport one GET with an empty
    body whose URL has the scheme and the host of the API; its path is the
    verify path followed by the reference up to the first question mark or
    hash sign, byte for byte; what follows the question mark is taken for
    the query, and what follows the hash sign for the fragment. *)
Theorem plain_reference_is_sent transport c name ref log :
  string_forallb plain_url_byte ref = true ->
  exists new u,
    snd (VerifyTransaction transport c (LiveContext name) ref log)
    = (log ++ new)%list
    /\ sent_requests new = [authorized c name "GET" u EmptyString]
    /\ URL_Scheme u = "https"
    /\ URL_Host u = "api.paystack.co"
    /\ URL_Path u = "/transaction/verify/" ++ ref_path ref
    /\ URL_RawQuery u = ref_query ref
    /\ URL_Fragment u = ref_fragment ref.
Proof.
  intros Href.
  assert (Hurl : exists u,
             url_Parse (op_url (OpVerifyTransaction ref)) = Ok u
             /\ URL_Scheme u = "https"
             /\ URL_Host u = "api.paystack.co"
             /\ URL_Path u = "/transaction/verify/" ++ ref_path ref
             /\ URL_RawQuery u = ref_query ref
             /\ URL_Fragment u = ref_fragment ref).
  { cbn [op_url]. rewrite verify_url_Parse.
    unfold ref_path, ref_query, ref_fragment.
    destruct (forallb_Cut _ ref "#"%char Href) as [Hbefore Hfrag].
    destruct (strings_Cut ref "#"%char) as [[before frag] cut].
    cbn [fst snd] in *.
    rewrite (plain_no_CTL before Hbefore).
    destruct (forallb_Cut _ before "?"%char Hbefore) as [Hp _].
    destruct (strings_Cut before "?"%char) as [[p query] found].
    cbn [fst snd] in *.
    rewrite (plain_unescape p Hp). cbv zeta.
    destruct (String.eqb frag EmptyString) eqn:Hempty.
    - apply String.eqb_eq in Hempty. subst frag.
      eexists. split; [reflexivity|]. repeat split.
    - unfold setFragment. rewrite (plain_unescape frag Hfrag).
      eexists. split; [reflexivity|]. repeat split. }
  destruct Hurl as [u [Hurl Hfields]].
  destruct (run_sends transport c name (OpVerifyTransaction ref) log u Hurl)
    as [new [Hlog Hsent]].
  exists new, u. split; [exact Hlog|]. split; [exact Hsent | exact Hfields].
Qed.

Lemma plain_reference_is_sent_witness :
  exists new u,
    snd (VerifyTransaction (stub StatusOK "{}") (Build_Client "sk_test_123")
           (LiveContext "bg") "T1/a b?x=1#top" [])
    = ([] ++ new)%list
    /\ sent_requests new
       = [authorized (Build_Client "sk_test_123") "bg" "GET" u EmptyString]
    /\ URL_Scheme u = "https"
    /\ URL_Host u = "api.paystack.co"
    /\ URL_Path u = "/transaction/verify/" ++ "T1/a b"
    /\ URL_RawQuery u = "x=1"
    /\ URL_Fragment u = "top".
Proof.
  apply (plain_reference_is_sent (stub StatusOK "{}") (Build_Client "sk_test_123")
           "bg" "T1/a b?x=1#top" []).
  vm_compute. reflexivity.
Defined.

(** ** [ValidateCredentials] *)

Lemma ValidateCredentials_run transport c ctx log :
  ValidateCredentials transport c ctx log
  = (snd (fst (run transport c ctx OpValidateCredentials log)),
     snd (run transport c ctx OpValidateCredentials log)).
Proof.
  unfold run, bind, ret.
  destruct (ValidateCredentials transport c ctx log) as [err log']. reflexivity.
Qed.

(** X14. [ValidateCredentials] returns no error exactly when the request
    could be made and the transport answered it with status 200 and a body
    that could be read; what the body holds plays no part, and the body is
    never decoded. *)
Theorem ValidateCredentials_accepts_exactly_200 transport c ctx log :
  (fst (ValidateCredentials transport c ctx log) = None
   <-> exists name resp resBody,
         ctx = LiveContext name
         /\ transport log
              (authorized c name "GET" (api_URL "/customer") EmptyString)
            = Ok resp
         /\ StatusCode resp = StatusOK
         /\ resp_Body resp = Ok resBody)
  /\ exists new,
       snd (ValidateCredentials transport c ctx log) = (log ++ new)%list
       /\ forall data, ~ In (Unmarshalled data) new.
Proof.
  rewrite ValidateCredentials_run. cbn [fst snd].
  destruct (NewRequest_cases ctx OpValidateCredentials)
    as [[err Herr]|[name [u [-> _]]]].
  - rewrite (run_not_made _ _ _ _ _ _ Herr). cbn [fst snd]. split.
    + split; [discriminate|]. intros [name [resp [resBody [-> _]]]].
      unfold http_NewRequestWithContext in Herr. cbn in Herr. discriminate Herr.
    + exists []. rewrite app_nil_r. split; [reflexivity|]. intros data [].
  - rewrite (run_exchange transport c name OpValidateCredentials log
               (api_URL "/customer") (proj1 api_url_parses)).
    cbv zeta. cbn [op_method op_url].
    change (op_body OpValidateCredentials) with EmptyString.
    destruct (transport log _) as [resp|err] eqn:Hanswer.
    + destruct (resp_Body resp) as [resBody|err] eqn:Hbody.
      * unfold exchange_events. cbn [returns_data]. rewrite andb_false_r.
        split.
        -- destruct (StatusCode resp =? StatusOK)%Z eqn:Hstatus; cbn [fst snd op_decode].
           ++ split; [|reflexivity]. intros _. exists name, resp, resBody.
              apply Z.eqb_eq in Hstatus. auto.
           ++ split; [discriminate|].
              intros [name' [resp' [resBody' [Hname [Hresp [Hst _]]]]]].
              injection Hname as <-. rewrite Hanswer in Hresp.
              injection Hresp as <-. apply Z.eqb_neq in Hstatus. contradiction.
        -- eexists. split; [reflexivity|].
           intros data [Hin|[Hin|[]]]; discriminate Hin.
      * cbn [fst snd]. split.
        -- split; [discriminate|].
           intros [name' [resp' [resBody' [Hname [Hresp [_ Hb]]]]]].
           injection Hname as <-. rewrite Hanswer in Hresp.
           injection Hresp as <-. rewrite Hbody in Hb. discriminate Hb.
        -- eexists. split; [reflexivity|].
           intros data [Hin|[Hin|[]]]; discriminate Hin.
    + cbn [fst snd]. split.
      * split; [discriminate|].
        intros [name' [resp' [resBody' [Hname [Hresp _]]]]].
        injection Hname as <-. rewrite Hanswer in Hresp. discriminate Hresp.
      * eexists. split; [reflexivity|].
        intros data [Hin|[]]; discriminate Hin.
Qed.

Lemma ValidateCredentials_accepts_exactly_200_witness :
  fst (ValidateCredentials (stub StatusOK "<html>not json</html>")
         (Build_Client "sk_test_123") (LiveContext "bg") [])
  = None.
Proof.
  apply (proj1 (ValidateCredentials_accepts_exactly_200
                  (stub StatusOK "<html>not json</html>")
                  (Build_Client "sk_test_123") (LiveContext "bg") [])).
  exists "bg", (Build_Response StatusOK (Ok "<html>not json</html>")),
    "<html>not json</html>".
  repeat split.
Defined.

(** ** More fuel changes nothing *)

Lemma parse_value_step fuel d s :
  parse_value (S fuel) d s =
  match skip_space s with
  | EmptyString => SyntaxErr
  | String c rest =>
      if Ascii.eqb c "{"%char then
        if (maxNestingDepth <? d + 1)%N then SyntaxErr
        else
          match skip_space rest with
          | String c' rest' =>
              if Ascii.eqb c' "}"%char then Scanned (JObject []) rest'
              else scan_map JObject (parse_members fuel (d + 1)%N rest)
          | EmptyString => SyntaxErr
          end
      else if Ascii.eqb c "["%char then
        if (maxNestingDepth <? d + 1)%N then SyntaxErr
        else
          match skip_space rest with
          | String c' rest' =>
              if Ascii.eqb c' "]"%char then Scanned (JArray []) rest'
              else scan_map JArray (parse_elements fuel (d + 1)%N rest)
          | EmptyString => SyntaxErr
          end
      else if Ascii.eqb c dquote then scan_map JString (scan_string rest)
      else if Ascii.eqb c "-"%char || is_digit c then
        scan_map JNumber (scan_number (String c rest))
      else if Ascii.eqb c "t"%char then
        scan_literal "true" (JBool true) (String c rest)
      else if Ascii.eqb c "f"%char then
        scan_literal "false" (JBool false) (String c rest)
      else if Ascii.eqb c "n"%char then
        scan_literal "null" JNull (String c rest)
      else SyntaxErr
  end.
Proof. reflexivity. Qed.

Lemma parse_elements_step fuel d s :
  parse_elements (S fuel) d s =
  scan_bind (parse_value fuel d s) (fun v rest =>
    match skip_space rest with
    | String c rest' =>
        if Ascii.eqb c ","%char then
          scan_map (cons v) (parse_elements fuel d rest')
        else if Ascii.eqb c "]"%char then Scanned [v] rest'
        else SyntaxErr
    | EmptyString => SyntaxErr
    end).
Proof. reflexivity. Qed.

Lemma parse_members_step fuel d s :
  parse_members (S fuel) d s =
  match skip_space s with
  | String q rest =>
      if Ascii.eqb q dquote then
        scan_bind (scan_string rest) (fun key rest1 =>
          match skip_space rest1 with
          | String c rest2 =>
              if Ascii.eqb c ":"%char then
                scan_bind (parse_value fuel d rest2) (fun v rest3 =>
                  match skip_space rest3 with
                  | String c' rest4 =>
                      if Ascii.eqb c' ","%char then
                        scan_map (cons (key, v)) (parse_members fuel d rest4)
                      else if Ascii.eqb c' "}"%char then
                        Scanned [(key, v)] rest4
                      else SyntaxErr
                  | EmptyString => SyntaxErr
                  end)
              else SyntaxErr
          | EmptyString => SyntaxErr
          end)
      else SyntaxErr
  | EmptyString => SyntaxErr
  end.
Proof. reflexivity. Qed.

Lemma scan_map_not_NoFuel {A B} (f : A -> B) x :
  scan_map f x <> NoFuel -> x <> NoFuel.
Proof. intros Hne ->. apply Hne. reflexivity. Qed.

Ltac same_with_more_fuel IHv IHe IHm :=
  repeat first
    [ reflexivity
    | break_goal_match
    | match goal with
      | H : scan_map _ ?x <> NoFuel |- _ => apply scan_map_not_NoFuel in H
      | H : ?x <> NoFuel |- context [parse_value (S ?f) ?d ?s] =>
          rewrite (IHv d s H)
      | H : ?x <> NoFuel |- context [parse_elements (S ?f) ?d ?s] =>
          rewrite (IHe d s H)
      | H : ?x <> NoFuel |- context [parse_members (S ?f) ?d ?s] =>
          rewrite (IHm d s H)
      end ].

(** A scan that did not stop for lack of fuel gives the same with one more
    unit of fuel. *)
Lemma parse_one_more fuel :
  (forall d s, parse_value fuel d s <> NoFuel ->
               parse_value (S fuel) d s = parse_value fuel d s)
  /\ (forall d s, parse_elements fuel d s <> NoFuel ->
                  parse_elements (S fuel) d s = parse_elements fuel d s)
  /\ (forall d s, parse_members fuel d s <> NoFuel ->
                  parse_members (S fuel) d s = parse_members fuel d s).
Proof.
  induction fuel as [|fuel [IHv [IHe IHm]]];
    [repeat split; intros d s Hne; now elim Hne|].
  repeat split; intros d s Hne.
  - rewrite (parse_value_step (S fuel)), (parse_value_step fuel) in *.
    same_with_more_fuel IHv IHe IHm.
  - rewrite (parse_elements_step (S fuel)), (parse_elements_step fuel) in *.
    assert (Hv : parse_value fuel d s <> NoFuel)
      by (intros Hv; rewrite Hv in Hne; now elim Hne).
    rewrite (IHv d s Hv).
    destruct (parse_value fuel d s) as [v rest| |]; try reflexivity.
    cbn [scan_bind] in *. same_with_more_fuel IHv IHe IHm.
  - rewrite (parse_members_step (S fuel)), (parse_members_step fuel) in *.
    destruct (skip_space s) as [|q rest]; [reflexivity|].
    destruct (Ascii.eqb q dquote); [|reflexivity].
    destruct (scan_string rest) as [key rest1| |]; try reflexivity.
    cbn [scan_bind] in *.
    destruct (skip_space rest1) as [|c rest2]; [reflexivity|].
    destruct (Ascii.eqb c ":"%char); [|reflexivity].
    assert (Hv : parse_value fuel d rest2 <> NoFuel)
      by (intros Hv; rewrite Hv in Hne; now elim Hne).
    rewrite (IHv d rest2 Hv).
    destruct (parse_value fuel d rest2) as [v rest3| |]; try reflexivity.
    cbn [scan_bind] in *. same_with_more_fuel IHv IHe IHm.
Qed.

Lemma parse_value_more fuel d s extra :
  parse_value fuel d s <> NoFuel ->
  parse_value (extra + fuel) d s = parse_value fuel d s.
Proof.
  intros Hne. induction extra as [|extra IH]; [reflexivity|].
  cbn [Nat.add]. rewrite <- IH.
  apply (proj1 (parse_one_more (extra + fuel))). rewrite IH. exact Hne.
Qed.

(** Whatever fuel a scan of the whole input succeeded with, [json_parse]
    gives its value. *)
Lemma json_parse_any_fuel fuel data v rest :
  parse_value fuel 0 data = Scanned v rest ->
  skip_space rest = EmptyString ->
  json_parse data = Some v.
Proof.
  intros Hscan Hrest. unfold json_parse.
  assert (Hsame : parse_value (parse_fuel data) 0 data = Scanned v rest).
  { destruct (Nat.le_ge_cases fuel (parse_fuel data)) as [Hle|Hge].
    - replace (parse_fuel data) with ((parse_fuel data - fuel) + fuel)%nat by lia.
      rewrite parse_value_more; [exact Hscan|]. rewrite Hscan. discriminate.
    - pose proof (parse_value_more (parse_fuel data) 0 data
                    (fuel - parse_fuel data) (json_parse_decides data)) as Hmore.
      replace (fuel - parse_fuel data + parse_fuel data)%nat with fuel
        in Hmore by lia.
      rewrite <- Hmore. exact Hscan. }
  rewrite Hsame, Hrest. reflexivity.
Qed.

(** ** What the encoder writes, the scanner reads back *)

Lemma json_nested_ind (P : json -> Prop) :
  P JNull ->
  (forall b, P (JBool b)) ->
  (forall lit, P (JNumber lit)) ->
  (forall s, P (JString s)) ->
  (forall elems, Forall P elems -> P (JArray elems)) ->
  (forall members, Forall (fun kv => P (snd kv)) members -> P (JObject members)) ->
  forall j, P j.
Proof.
  intros Hnull Hbool Hnumber Hstring Harray Hobject.
  fix IH 1. intros [|b|lit|s|elems|members].
  - exact Hnull.
  - apply Hbool.
  - apply Hnumber.
  - apply Hstring.
  - apply Harray. induction elems as [|x tl IHtl]; constructor;
      [apply IH | exact IHtl].
  - apply Hobject. induction members as [|[k x] tl IHtl]; constructor;
      [apply IH | exact IHtl].
Qed.

Lemma encode_object members :
  json_encode (JObject members) = "{" ++ encode_members members ++ "}".
Proof. reflexivity. Qed.

Lemma closes_value_cases rest :
  closes_value rest = true ->
  rest = EmptyString
  \/ exists r, rest = String ","%char r \/ rest = String "}"%char r
               \/ rest = String "]"%char r.
Proof.
  destruct rest as [|c r]; [auto|]. cbn [closes_value]. intros Hc. right. exists r.
  apply orb_true_iff in Hc as [Hc|Hc]; [apply orb_true_iff in Hc as [Hc|Hc]|];
    apply Ascii.eqb_eq in Hc; subst c; auto.
Qed.

Ltac closing rest H :=
  destruct (closes_value_cases rest H) as [->|[? [->|[->| ->]]]].

Lemma scan_fraction_closed lit rest :
  closes_value rest = true -> scan_fraction lit rest = Scanned lit rest.
Proof. intros Hc. closing rest Hc; reflexivity. Qed.

Lemma take_digits_closed rest :
  closes_value rest = true -> take_digits rest = (EmptyString, rest).
Proof. intros Hc. closing rest Hc; reflexivity. Qed.

Lemma take_digits_uint u rest :
  closes_value rest = true ->
  take_digits (NilEmpty.string_of_uint u ++ rest) = (NilEmpty.string_of_uint u, rest).
Proof.
  intros Hc. induction u; cbn [NilEmpty.string_of_uint];
    try (change (String ?c ?s ++ rest) with (String c (s ++ rest));
         cbn [take_digits]; rewrite IHu; reflexivity).
  apply take_digits_closed, Hc.
Qed.

Lemma nzhead_no_zero u v : Decimal.nzhead u <> Decimal.D0 v.
Proof. induction u; cbn; try discriminate. exact IHu. Qed.

(** The digits of a positive number do not start with a zero. *)
Lemma to_uint_no_leading_zero p u : Pos.to_uint p <> Decimal.D0 u.
Proof.
  intros Hp.
  pose proof (DecimalPos.Unsigned.to_of (Pos.to_uint p)) as Hnorm.
  rewrite DecimalPos.Unsigned.of_to in Hnorm. cbn [N.to_uint] in Hnorm.
  rewrite Hp in Hnorm. unfold Decimal.unorm in Hnorm. cbn [Decimal.nzhead] in Hnorm.
  destruct (Decimal.nzhead u) eqn:Hhead;
    try (symmetry in Hnorm; rewrite <- Hhead in Hnorm;
         exact (nzhead_no_zero u _ Hnorm)).
  injection Hnorm as Hu. subst u.
  exact (Unsigned.to_uint_nonzero p Hp).
Qed.

Lemma scan_number_uint sign u rest :
  sign = EmptyString \/ sign = "-" ->
  u <> Decimal.Nil ->
  (forall v, u <> Decimal.D0 v) ->
  closes_value rest = true ->
  scan_number (sign ++ NilEmpty.string_of_uint u ++ rest)
  = Scanned (sign ++ NilEmpty.string_of_uint u) rest.
Proof.
  intros Hsign Hnil Hzero Hc.
  destruct u; try (now elim Hnil); try (now elim (Hzero u));
    destruct Hsign as [-> | ->]; cbn [NilEmpty.string_of_uint];
    change (String ?c ?s ++ rest) with (String c (s ++ rest));
    repeat change (EmptyString ++ ?x) with x;
    repeat change ("-" ++ ?x) with (String "-"%char x);
    unfold scan_number; cbn -[take_digits scan_fraction];
    rewrite (take_digits_uint u rest Hc);
    apply scan_fraction_closed, Hc.
Qed.

(** A decimal integer followed by what closes a value is scanned as that
    number. *)
Lemma scan_number_format_int z rest :
  closes_value rest = true ->
  scan_number (format_int z ++ rest) = Scanned (format_int z) rest.
Proof.
  intros Hc. unfold format_int. destruct z as [|p|p]; cbn [Z.to_int].
  - change (scan_number (String "0" rest) = Scanned "0" rest).
    unfold scan_number. cbn -[scan_fraction]. apply scan_fraction_closed, Hc.
  - pose proof (Unsigned.to_uint_nonnil p) as Hnil.
    pose proof (to_uint_no_leading_zero p) as Hzero.
    cbn [NilZero.string_of_int]. unfold NilZero.string_of_uint.
    destruct (Pos.to_uint p) eqn:Hp; try (now elim Hnil);
      rewrite <- Hp in *;
      apply (scan_number_uint EmptyString (Pos.to_uint p) rest); auto.
  - pose proof (Unsigned.to_uint_nonnil p) as Hnil.
    pose proof (to_uint_no_leading_zero p) as Hzero.
    cbn [NilZero.string_of_int]. unfold NilZero.string_of_uint.
    destruct (Pos.to_uint p) eqn:Hp; try (now elim Hnil);
      rewrite <- Hp in *;
      apply (scan_number_uint "-" (Pos.to_uint p) rest); auto.
Qed.

Lemma scan_string_safe s rest :
  string_forallb htmlSafe s = true ->
  scan_string (s ++ String dquote rest) = Scanned s rest.
Proof.
  intros Hsafe. unfold scan_string. apply unquote_loop_safe; [exact Hsafe|].
  rewrite length_append. cbn [String.length]. lia.
Qed.

Lemma quoted_text s rest :
  string_forallb htmlSafe s = true ->
  appendString s ++ rest = String dquote (s ++ String dquote rest).
Proof.
  intros Hsafe. rewrite (appendString_safe s Hsafe).
  change (String dquote (s ++ String dquote EmptyString) ++ rest)
    with (String dquote ((s ++ String dquote EmptyString) ++ rest)).
  rewrite append_assoc. reflexivity.
Qed.

Lemma parse_value_string fuel d s rest :
  string_forallb htmlSafe s = true ->
  parse_value (S fuel) d (appendString s ++ rest) = Scanned (JString s) rest.
Proof.
  intros Hsafe. rewrite (quoted_text s rest Hsafe).
  change (parse_value (S fuel) d (String dquote ?r))
    with (scan_map JString (scan_string r)).
  rewrite (scan_string_safe s rest Hsafe). reflexivity.
Qed.

Lemma plain_number_format lit :
  plain_number lit = true -> exists z, lit = format_int z.
Proof.
  unfold plain_number. destruct (NilZero.int_of_string lit) as [d|]; [|discriminate].
  intros Heq. apply String.eqb_eq in Heq. eauto.
Qed.

Lemma parse_value_number fuel d z rest :
  closes_value rest = true ->
  parse_value (S fuel) d (format_int z ++ rest) = Scanned (JNumber (format_int z)) rest.
Proof.
  intros Hc.
  assert (Hdispatch : parse_value (S fuel) d (format_int z ++ rest)
                      = scan_map JNumber (scan_number (format_int z ++ rest))).
  { unfold format_int. destruct z as [|p|p]; cbn [Z.to_int NilZero.string_of_int].
    - reflexivity.
    - pose proof (Unsigned.to_uint_nonnil p) as Hnil.
      unfold NilZero.string_of_uint.
      destruct (Pos.to_uint p); try (now elim Hnil); reflexivity.
    - reflexivity. }
  rewrite Hdispatch, (scan_number_format_int z rest Hc). reflexivity.
Qed.

(** A member whose key is safe and whose value is read back. *)
Lemma parse_members_member fuel d k V x T :
  string_forallb htmlSafe k = true ->
  parse_value fuel d (V ++ T) = Scanned x T ->
  parse_members (S fuel) d ((appendString k ++ ":" ++ V) ++ T)
  = match T with
    | String c rest =>
        if Ascii.eqb c ","%char then
          scan_map (cons (k, x)) (parse_members fuel d rest)
        else if Ascii.eqb c "}"%char then Scanned [(k, x)] rest
        else if isSpace c then
          match skip_space T with
          | String c' rest4 =>
              if Ascii.eqb c' ","%char then
                scan_map (cons (k, x)) (parse_members fuel d rest4)
              else if Ascii.eqb c' "}"%char then Scanned [(k, x)] rest4
              else SyntaxErr
          | EmptyString => SyntaxErr
          end
        else SyntaxErr
    | EmptyString => SyntaxErr
    end.
Proof.
  intros Hsafe Hvalue.
  rewrite append_assoc, (quoted_text k _ Hsafe).
  change ((":" ++ V) ++ T) with (String ":"%char (V ++ T)).
  rewrite parse_members_step.
  change (skip_space (String dquote ?r)) with (String dquote r). cbv iota.
  change (Ascii.eqb dquote dquote) with true. cbv iota.
  rewrite (scan_string_safe k _ Hsafe). cbn [scan_bind].
  change (skip_space (String ":"%char ?r)) with (String ":"%char r). cbv iota.
  change (Ascii.eqb ":"%char ":"%char) with true. cbv iota.
  rewrite Hvalue. cbn [scan_bind].
  destruct T as [|c rest]; [reflexivity|].
  cbn [skip_space].
  destruct (Ascii.eqb c ","%char) eqn:Hcomma.
  - apply Ascii.eqb_eq in Hcomma. subst c. reflexivity.
  - destruct (Ascii.eqb c "}"%char) eqn:Hbrace.
    + apply Ascii.eqb_eq in Hbrace. subst c. reflexivity.
    + destruct (isSpace c); [reflexivity|].
      rewrite Hcomma, Hbrace. reflexivity.
Qed.

Lemma plain_object_cons k x tl :
  plain_json (JObject ((k, x) :: tl)) = true ->
  string_forallb htmlSafe k = true /\ plain_json x = true
  /\ plain_json (JObject tl) = true.
Proof.
  change (plain_json (JObject ((k, x) :: tl)))
    with (string_forallb htmlSafe k && plain_json x && plain_json (JObject tl)).
  intros Hp. apply andb_true_iff in Hp as [Hp Htl].
  apply andb_true_iff in Hp as [Hk Hx]. auto.
Qed.

Lemma height_object_cons k x tl :
  (json_height x < json_height (JObject ((k, x) :: tl))
   /\ json_height (JObject tl) <= json_height (JObject ((k, x) :: tl)))%N.
Proof.
  assert (Hm : exists m,
             json_height (JObject tl) = (1 + m)%N
             /\ json_height (JObject ((k, x) :: tl))
                = (1 + N.max (json_height x) m)%N)
    by (eexists; split; reflexivity).
  destruct Hm as [m [-> ->]]. lia.
Qed.

Lemma members_tail_text k x tl rest :
  tl <> [] ->
  encode_members ((k, x) :: tl) ++ String "}"%char rest
  = (appendString k ++ ":" ++ json_encode x)
    ++ String ","%char (encode_members tl ++ String "}"%char rest).
Proof.
  intros Htl. destruct tl as [|kx tl]; [now elim Htl|].
  change (encode_members ((k, x) :: kx :: tl))
    with (appendString k ++ ":" ++ json_encode x ++ "," ++ encode_members (kx :: tl)).
  rewrite !append_assoc. reflexivity.
Qed.

Lemma parse_members_encode members :
  members <> [] ->
  Forall (fun kv => reads_back (snd kv)) members ->
  plain_json (JObject members) = true ->
  forall d rest,
    (d + json_height (JObject members) <= maxNestingDepth + 1)%N ->
    exists bound, forall fuel,
      (bound <= fuel)%nat ->
      parse_members fuel d (encode_members members ++ String "}"%char rest)
      = Scanned members rest.
Proof.
  induction members as [|[k x] tl IH]; intros Hne Hall Hplain d rest Hdepth;
    [now elim Hne|].
  inversion Hall as [|kv tl' Hx Htl]; subst. cbn [snd] in Hx.
  apply plain_object_cons in Hplain as [Hk [Hpx Hptl]].
  destruct (height_object_cons k x tl) as [Hhx Hhtl].
  destruct tl as [|kx tl].
  - destruct (Hx Hpx d (String "}"%char rest)) as [bx Hbx]; [lia | reflexivity|].
    exists (S bx). intros fuel Hfuel.
    destruct fuel as [|fuel]; [lia|].
    change (encode_members [(k, x)]) with (appendString k ++ ":" ++ json_encode x).
    rewrite (parse_members_member fuel d k (json_encode x) x _ Hk);
      [reflexivity | apply Hbx; lia].
  - destruct (Hx Hpx d (String ","%char
                          (encode_members (kx :: tl) ++ String "}"%char rest)))
      as [bx Hbx]; [lia | reflexivity|].
    destruct (IH ltac:(discriminate) Htl Hptl d rest) as [bt Hbt]; [lia|].
    exists (S (Nat.max bx bt)). intros fuel Hfuel.
    destruct fuel as [|fuel]; [lia|].
    rewrite members_tail_text by discriminate.
    rewrite (parse_members_member fuel d k (json_encode x) x _ Hk);
      [|apply Hbx; lia].
    change (Ascii.eqb ","%char ","%char) with true. cbv iota.
    rewrite Hbt by lia. reflexivity.
Qed.

Lemma members_head_text k x tl rest :
  string_forallb htmlSafe k = true ->
  exists text, encode_members ((k, x) :: tl) ++ rest = String dquote text.
Proof.
  intros Hk. destruct tl as [|kx tl].
  - change (encode_members [(k, x)]) with (appendString k ++ ":" ++ json_encode x).
    rewrite append_assoc, (quoted_text k _ Hk). eauto.
  - change (encode_members ((k, x) :: kx :: tl))
      with (appendString k ++ ":" ++ json_encode x ++ "," ++ encode_members (kx :: tl)).
    rewrite append_assoc, (quoted_text k _ Hk). eauto.
Qed.

(** Every plain document is read back from its encoding. *)
Lemma parse_value_encode j : reads_back j.
Proof.
  induction j as [|b|lit|s|elems _|members IH] using json_nested_ind;
    intros Hplain d rest Hdepth Hclose.
  - exists 1%nat. intros [|fuel] Hfuel; [lia | reflexivity].
  - exists 1%nat. intros [|fuel] Hfuel; [lia|]. destruct b; reflexivity.
  - cbn [plain_json] in Hplain.
    destruct (plain_number_format lit Hplain) as [z ->].
    exists 1%nat. intros [|fuel] Hfuel; [lia|].
    apply parse_value_number, Hclose.
  - exists 1%nat. intros [|fuel] Hfuel; [lia|].
    apply parse_value_string, Hplain.
  - discriminate Hplain.
  - destruct members as [|[k x] tl].
    + exists 1%nat. intros [|fuel] Hfuel; [lia|].
      change (json_encode (JObject []) ++ rest)
        with (String "{"%char (String "}"%char rest)).
      rewrite parse_value_step.
      change (skip_space (String "{"%char ?r)) with (String "{"%char r). cbv iota.
      change (Ascii.eqb "{"%char "{"%char) with true. cbv iota.
      replace (maxNestingDepth <? d + 1)%N with false
        by (symmetry; apply N.ltb_ge; cbn [json_height] in Hdepth; lia).
      reflexivity.
    + destruct (parse_members_encode ((k, x) :: tl) ltac:(discriminate) IH Hplain
                  (d + 1)%N rest) as [bound Hbound]; [lia|].
      exists (S bound). intros [|fuel] Hfuel; [lia|].
      rewrite encode_object.
      change (("{" ++ encode_members ((k, x) :: tl) ++ "}") ++ rest)
        with (String "{"%char ((encode_members ((k, x) :: tl) ++ "}") ++ rest)).
      rewrite append_assoc.
      change ("}" ++ rest) with (String "}"%char rest).
      rewrite parse_value_step.
      change (skip_space (String "{"%char ?r)) with (String "{"%char r). cbv iota.
      change (Ascii.eqb "{"%char "{"%char) with true. cbv iota.
      replace (maxNestingDepth <? d + 1)%N with false
        by (symmetry; apply N.ltb_ge;
            pose proof (height_object_cons k x tl); lia).
      rewrite Hbound by lia.
      apply plain_object_cons in Hplain as [Hk _].
      destruct (members_head_text k x tl (String "}"%char rest) Hk) as [text ->].
      reflexivity.
Qed.

(** The encode and decode round trip of the texts: a plain document within
    the nesting limit, written by the encoder, is what [json_parse] reads. *)
Lemma json_parse_encode j :
  plain_json j = true ->
  (json_height j <= maxNestingDepth)%N ->
  json_parse (json_encode j) = Some j.
Proof.
  intros Hplain Hheight.
  destruct (parse_value_encode j Hplain 0%N EmptyString) as [bound Hbound];
    [lia | reflexivity|].
  specialize (Hbound bound (Nat.le_refl _)). rewrite append_nil_r in Hbound.
  exact (json_parse_any_fuel bound (json_encode j) j EmptyString Hbound eq_refl).
Qed.

(** ** Round trips through the wire *)

Lemma plain_number_format_int z : plain_number (format_int z) = true.
Proof.
  unfold plain_number, format_int. rewrite NilZero.isi.
  - rewrite DecimalZ.of_to. apply String.eqb_refl.
  - destruct z; cbn; try discriminate;
      intros Heq; injection Heq; apply Unsigned.to_uint_nonnil.
  - destruct z; cbn; try discriminate;
      intros Heq; injection Heq; apply Unsigned.to_uint_nonnil.
Qed.

Lemma op_payload_plain op payload :
  op_payload op = Some payload ->
  op_inputs_safe op = true ->
  plain_json payload = true /\ (json_height payload <= maxNestingDepth)%N.
Proof.
  destruct op; cbn [op_payload op_inputs_safe]; try discriminate;
    intros [= <-] Hsafe; (split; [|vm_compute; discriminate]).
  - cbn -[string_forallb]. rewrite Hsafe. reflexivity.
  - cbn -[string_forallb format_int]. rewrite Hsafe, format_int_safe. reflexivity.
  - apply andb_true_iff in Hsafe as [Hemail Hcode].
    cbn -[string_forallb format_int].
    rewrite Hemail, Hcode, format_int_safe. reflexivity.
Qed.

(** X15. What is sent reads back as what was passed: when the email and
    the authorization code are made of bytes the encoder leaves as they
    are, the body of the request [CreateCustomer], [InitializeTransaction]
    or [ChargeAuthorization] sends is a JSON text that parses to exactly
    the object with the given email, the decimal amount as a string and
    the given code. *)
Theorem request_body_reads_back transport c name op log payload :
  op_payload op = Some payload ->
  op_inputs_safe op = true ->
  exists new req,
    snd (run transport c (LiveContext name) op log) = (log ++ new)%list
    /\ sent_requests new = [req]
    /\ json_parse (req_Body req) = Some payload.
Proof.
  intros Hpayload Hsafe.
  destruct (op_payload_plain op payload Hpayload Hsafe) as [Hplain Hheight].
  assert (Hurl : exists u, url_Parse (op_url op) = Ok u)
    by (destruct op; try discriminate Hpayload; eexists; apply api_url_parses).
  destruct Hurl as [u Hurl].
  destruct (run_sends transport c name op log u Hurl) as [new [Hlog Hsent]].
  exists new, (authorized c name (op_method op) u (op_body op)).
  split; [exact Hlog|]. split; [exact Hsent|].
  unfold authorized. cbn [req_Body]. unfold op_body. rewrite Hpayload.
  apply json_parse_encode; assumption.
Qed.

Lemma request_body_reads_back_witness :
  exists new req,
    snd (run (stub StatusOK "{}") (Build_Client "sk_test_123") (LiveContext "bg")
           (OpChargeAuthorization "a@b.com" (-2500) "AUTH_x1") [])
    = ([] ++ new)%list
    /\ sent_requests new = [req]
    /\ json_parse (req_Body req)
       = Some (JObject [("email", JString "a@b.com");
                        ("amount", JString "-2500");
                        ("authorization_code", JString "AUTH_x1")]).
Proof.
  apply (request_body_reads_back (stub StatusOK "{}") (Build_Client "sk_test_123")
           "bg" (OpChargeAuthorization "a@b.com" (-2500) "AUTH_x1") []).
  - reflexivity.
  - vm_compute. reflexivity.
Defined.

(** X16. What a server encodes, the client returns: for every operation
    that returns data, when the body of a response with status 200 is the
    encoding of a plain envelope (no escapes needed, nesting within the
    limit) around the encoding of a value of the operation's shape, the
    operation returns that value and no error. *)
Theorem encoded_envelope_is_returned
    transport c name op log j data (v : data_type op) u :
  url_Parse (op_url op) = Ok u ->
  transport log (authorized c name (op_method op) u (op_body op))
  = Ok (Build_Response StatusOK (Ok (json_encode j))) ->
  plain_json j = true ->
  (json_height j <= maxNestingDepth)%N ->
  envelope data j ->
  op_encode_data op v = Ok data ->
  data_in_range op v ->
  fst (run transport c (LiveContext name) op log) = (Some v, None).
Proof.
  intros Hurl Hanswer Hplain Hheight Henv Henc Hrange.
  rewrite (run_on_200 transport c name op log _ u Hurl Hanswer).
  exact (op_decode_envelope op (json_encode j) j data v
           (json_parse_encode j Hplain Hheight) Henv Henc Hrange).
Qed.

Lemma encoded_envelope_is_returned_witness :
  fst (run
         (stub StatusOK
            (json_encode
               (JObject
                  [("status", JBool true);
                   ("data",
                    JObject [("id", JNumber "42"); ("reference", JString "ref123");
                             ("status", JString "success");
                             ("authorization", JNull)])])))
         (Build_Client "sk_test_123") (LiveContext "bg")
         (OpVerifyTransaction "ref123") [])
  = (Some (Build_VerifiedTransaction 42 "ref123" "success" None), None).
Proof.
  apply (encoded_envelope_is_returned
           (stub StatusOK
              (json_encode
                 (JObject
                    [("status", JBool true);
                     ("data",
                      JObject [("id", JNumber "42"); ("reference", JString "ref123");
                               ("status", JString "success");
                               ("authorization", JNull)])])))
           (Build_Client "sk_test_123") "bg" (OpVerifyTransaction "ref123") []
           (JObject
              [("status", JBool true);
               ("data",
                JObject [("id", JNumber "42"); ("reference", JString "ref123");
                         ("status", JString "success");
                         ("authorization", JNull)])])
           (JObject [("id", JNumber "42"); ("reference", JString "ref123");
                     ("status", JString "success"); ("authorization", JNull)])
           (Build_VerifiedTransaction 42 "ref123" "success" None)
           (api_URL "/transaction/verify/ref123")).
  - vm_compute. reflexivity.
  - reflexivity.
  - vm_compute. reflexivity.
  - vm_compute. discriminate.
  - exists [("status", JBool true)], []. split; [reflexivity|]. repeat constructor.
  - reflexivity.
  - unfold data_in_range, is_int, int_min, int_max. cbn. lia.
Defined.

(** X17. A reference that makes the URL unparsable stops the call before
    the network: [VerifyTransaction] returns the error of [url.Parse] and
    no result, and hands nothing to the transport. *)
Theorem unparsable_reference_sends_nothing transport c name ref log err :
  url_Parse ("https://api.paystack.co/transaction/verify/" ++ ref) = Err err ->
  VerifyTransaction transport c (LiveContext name) ref log
  = ((None, Some err), log).
Proof.
  intros Hurl.
  apply (run_not_made transport c (LiveContext name) (OpVerifyTransaction ref)).
  unfold http_NewRequestWithContext. cbn [op_method op_url].
  change (String.eqb "GET" EmptyString) with false. cbv iota zeta.
  change (validMethod "GET") with true. cbn [negb]. rewrite Hurl. reflexivity.
Qed.

Lemma unparsable_reference_sends_nothing_witness :
  VerifyTransaction (stub StatusOK "{}") (Build_Client "sk_test_123")
    (LiveContext "bg") (String (byte_of_code 10) "ref123") []
  = ((None,
      Some (UrlError "parse"
              ("https://api.paystack.co/transaction/verify/"
               ++ String (byte_of_code 10) "ref123")
              (errorString "net/url: invalid control character in URL"))),
     []).
Proof.
  apply (unparsable_reference_sends_nothing (stub StatusOK "{}")
           (Build_Client "sk_test_123") "bg"
           (String (byte_of_code 10) "ref123") []).
  vm_compute. reflexivity.
Defined.
